(** * Focus2 activity pipeline: heartbeat store, persistence adapter,
      storage manager, aggregation cache and facade.

    A shallow embedding of
    - [src/activity/storage/ActivityStorage.ts] ([handleMayBeInactive] and
      the [ActivityStorage] class),
    - [StorageAdapter.ts] ([loadData], [saveData], [validateStoreData]),
    - [AggregationService.ts] (the aggregation cache),
    - [ActivityFacade.ts] ([getDayData]),
    - [src/activity/utils/IntervalScheduler.ts], [ActivityTracker.ts] and
      [HeartbeatManager.ts] (the timers and the path of a heartbeat from
      the watchers to the store),
    together with the properties of these functions. *)

From Stdlib Require Import ZArith String Ascii List Bool Lia.
From stdpp Require Import base option gmap strings pretty list fin_maps sorting.

Set Warnings "-register-all".
Local Open Scope string_scope.
Local Open Scope list_scope.
Local Open Scope stdpp_scope.

(* ===================================================================== *)
(** ** JavaScript values                                                  *)
(* ===================================================================== *)

(** What [JSON.parse] can return.  Numbers of the store (version,
    timestamps, interval) are integers. *)
Inductive JSValue : Type :=
| JNull
| JBool (b : bool)
| JNum (n : Z)
| JStr (s : string)
| JArr (items : list JSValue)
| JObj (fields : list (string * JSValue)).

(** [o.k] : the value of property [k], [None] standing for [undefined]. *)
Fixpoint assoc (k : string) (fields : list (string * JSValue)) : option JSValue :=
  match fields with
  | [] => None
  | (k', v) :: rest => if String.eqb k k' then Some v else assoc k rest
  end.

Definition getProp (v : JSValue) (k : string) : option JSValue :=
  match v with
  | JObj fields => assoc k fields
  | _ => None
  end.

(** JavaScript truthiness ([!x] is its negation). *)
Definition truthy (v : JSValue) : bool :=
  match v with
  | JNull => false
  | JBool b => b
  | JNum n => negb (n =? 0)%Z
  | JStr s => negb (String.eqb s "")
  | JArr _ => true
  | JObj _ => true
  end.

Definition truthyProp (o : option JSValue) : bool :=
  match o with
  | Some v => truthy v
  | None => false
  end.

(** [typeof v === 'object'] : true of [null], arrays and plain objects. *)
Definition typeofObject (v : JSValue) : bool :=
  match v with
  | JNull | JArr _ | JObj _ => true
  | _ => false
  end.

Definition typeofObjectProp (o : option JSValue) : bool :=
  match o with
  | Some v => typeofObject v
  | None => false
  end.

(* ===================================================================== *)
(** ** Types.ts                                                           *)
(* ===================================================================== *)

Inductive UserActivity : Type := active | inactive | may_be_inactive.

#[global] Instance UserActivity_eq_dec : EqDecision UserActivity.
Proof. solve_decision. Defined.

Record AppWindowData : Type := { app : string; title : string }.

(** [extra] holds the additional fields a watcher may merge in. *)
Record HeartbeatData : Type := {
  userActivity : UserActivity;
  appWindow : option AppWindowData;
  extra : list (string * JSValue)
}.

Record Heartbeat : Type := { timestamp : Z; data : HeartbeatData }.

Record TimelineEvent : Type := {
  ev_timestamp : Z;
  ev_duration : Z;
  ev_type : string;
  ev_data : option AppWindowData
}.

Record AggregationSummary : Type := {
  activeTrackingDuration : Z;
  totalActiveDuration : Z;
  totalInactiveDuration : Z;
  totalMeetingDuration : Z;
  appUsage : gmap string Z
}.

(** [AggregatedData] of Types.ts (stored inside a day). *)
Record StoredAggregate : Type := {
  st_summary : AggregationSummary;
  timelineOverview : list TimelineEvent
}.

Record DayData : Type := {
  heartbeats : list Heartbeat;
  aggregated : option StoredAggregate
}.

Record StoreData : Type := {
  version : Z;
  lastCleanupTime : Z;
  startTime : Z;
  aggregationInterval : Z;
  days : gmap string DayData
}.

(* ===================================================================== *)
(** ** handleMayBeInactive (ActivityStorage.ts, lines 40-93)              *)
(* ===================================================================== *)

(** [hb.data?.userActivity === a] *)
Definition hasActivity (a : UserActivity) (hb : Heartbeat) : bool :=
  bool_decide (userActivity (data hb) = a).

(** [{ ...hb, data: { ...hb.data, userActivity: 'inactive' } }] *)
Definition markInactive (hb : Heartbeat) : Heartbeat :=
  {| timestamp := timestamp hb;
     data := {| userActivity := inactive;
                appWindow := appWindow (data hb);
                extra := extra (data hb) |} |}.

(** The backward loop [for (i = length - 1; i >= 0; i--)]: [n] is [i + 1].
    Entries at or after [currentTimestamp] are skipped ([continue]); the
    first 'active' one met stops the loop ([break]).  [-1] when none. *)
Fixpoint findLastActive (hbs : list Heartbeat) (currentTimestamp : Z) (n : nat) : Z :=
  match n with
  | O => (-1)%Z
  | S i =>
      match hbs !! i with
      | None => findLastActive hbs currentTimestamp i
      | Some hb =>
          if (currentTimestamp <=? timestamp hb)%Z
          then findLastActive hbs currentTimestamp i
          else if hasActivity active hb then Z.of_nat i
          else findLastActive hbs currentTimestamp i
      end
  end.

(** The forward loop [for (i = lastActiveIndex + 1; i < length; i++)] over
    the copy [updated], with the flag [changed]; [fuel] bounds the number
    of iterations (the length of the array is always enough). *)
Fixpoint convertLoop (currentTimestamp : Z) (fuel : nat) (i : nat)
    (updated : list Heartbeat) (changed : bool) : list Heartbeat * bool :=
  match fuel with
  | O => (updated, changed)
  | S fuel' =>
      match updated !! i with
      | None => (updated, changed)
      | Some hb =>
          if (currentTimestamp <=? timestamp hb)%Z then (updated, changed)
          else if hasActivity may_be_inactive hb
          then convertLoop currentTimestamp fuel' (S i)
                 (<[i := markInactive hb]> updated) true
          else convertLoop currentTimestamp fuel' (S i) updated changed
      end
  end.

Definition lastActiveIndex (hbs : list Heartbeat) (currentTimestamp : Z) : Z :=
  findLastActive hbs currentTimestamp (length hbs).

Definition handleMayBeInactive (heartbeats : list Heartbeat)
    (currentTimestamp : Z) (heartbeatData : HeartbeatData) : list Heartbeat :=
  if (length heartbeats =? 0)%nat
     || negb (bool_decide (userActivity heartbeatData = inactive))
  then heartbeats
  else if negb (existsb (hasActivity may_be_inactive) heartbeats)
  then heartbeats
  else
    let updatedHeartbeats := heartbeats in
    let start := Z.to_nat (lastActiveIndex updatedHeartbeats currentTimestamp + 1) in
    let '(updatedHeartbeats, changed) :=
      convertLoop currentTimestamp (length updatedHeartbeats) start
        updatedHeartbeats false in
    if changed then updatedHeartbeats else heartbeats.

(** The same pass written by recursion on the part of the list that the
    forward loop walks: used to reason about [convertLoop]. *)
Fixpoint convertRun (currentTimestamp : Z) (l : list Heartbeat) : list Heartbeat :=
  match l with
  | [] => []
  | hb :: rest =>
      if (currentTimestamp <=? timestamp hb)%Z then l
      else (if hasActivity may_be_inactive hb then markInactive hb else hb)
             :: convertRun currentTimestamp rest
  end.

Fixpoint runChanges (currentTimestamp : Z) (l : list Heartbeat) : bool :=
  match l with
  | [] => false
  | hb :: rest =>
      if (currentTimestamp <=? timestamp hb)%Z then false
      else hasActivity may_be_inactive hb || runChanges currentTimestamp rest
  end.

(** Index [j] is in the range the forward loop reaches: after the last
    'active' heartbeat, with no heartbeat at or after [currentTimestamp]
    between that one and [j] (inclusive). *)
Definition reached (hbs : list Heartbeat) (currentTimestamp : Z) (j : nat) : Prop :=
  (lastActiveIndex hbs currentTimestamp < Z.of_nat j)%Z /\
  forall k hk, (lastActiveIndex hbs currentTimestamp < Z.of_nat k)%Z ->
               (k <= j)%nat -> hbs !! k = Some hk ->
               (timestamp hk < currentTimestamp)%Z.

(** Timestamps in non-decreasing order. *)
Definition chronological (hbs : list Heartbeat) : Prop :=
  forall i j hi hj, (i <= j)%nat -> hbs !! i = Some hi -> hbs !! j = Some hj ->
                    (timestamp hi <= timestamp hj)%Z.

(* ===================================================================== *)
(** ** ActivityState                                                      *)
(* ===================================================================== *)

(** Modelled from the spec: [ActivityState] (ActivityState.ts is not among
    the sources).  Section 4.1: it holds the per-day heartbeat sequences
    and the store metadata, with [getHeartbeats], [setHeartbeats] (full
    replace), [getAvailableDates] (all keys with data), [deleteDay],
    [getLastCleanupTime], [updateLastCleanupTime], [getFullStoreData] and
    [setData] (bulk replace). *)
Record ActivityState : Type := { storeData : StoreData }.

Definition withDays (f : gmap string DayData -> gmap string DayData)
    (d : StoreData) : StoreData :=
  {| version := version d;
     lastCleanupTime := lastCleanupTime d;
     startTime := startTime d;
     aggregationInterval := aggregationInterval d;
     days := f (days d) |}.

Definition getHeartbeats (dayKey : string) (st : ActivityState) : option (list Heartbeat) :=
  heartbeats <$> days (storeData st) !! dayKey.

Definition setHeartbeats (dayKey : string) (hbs : list Heartbeat)
    (st : ActivityState) : ActivityState :=
  {| storeData :=
       withDays (fun ds =>
         <[dayKey := {| heartbeats := hbs;
                        aggregated := ds !! dayKey ≫= aggregated |}]> ds)
         (storeData st) |}.

Definition stateAvailableDates (st : ActivityState) : list string :=
  (map_to_list (days (storeData st))).*1.

Definition deleteDay (dayKey : string) (st : ActivityState) : ActivityState :=
  {| storeData := withDays (delete dayKey) (storeData st) |}.

Definition getLastCleanupTime (st : ActivityState) : Z :=
  lastCleanupTime (storeData st).

Definition updateLastCleanupTime (now : Z) (st : ActivityState) : ActivityState :=
  {| storeData :=
       {| version := version (storeData st);
          lastCleanupTime := now;
          startTime := startTime (storeData st);
          aggregationInterval := aggregationInterval (storeData st);
          days := days (storeData st) |} |}.

Definition getFullStoreData (st : ActivityState) : StoreData := storeData st.

Definition setData (d : StoreData) (st : ActivityState) : ActivityState :=
  {| storeData := d |}.

(* ===================================================================== *)
(** ** ActivityStorage: the object and its in-memory operations           *)
(* ===================================================================== *)

Record StorageOptions : Type := { useMockData : bool; storagePath : option string }.

(** StorageAdapter.ts: the adapter's only field. *)
Record StorageAdapter : Type := { filePath : string }.

(** Modelled from the spec: [SettingsManager] (SettingsManager.ts is not
    among the sources).  Sections 4.3 and 6: it keeps the directory chosen
    for the activity store, [null] standing for the platform default. *)
Record SettingsManager : Type := { activityStoreDirPath : option string }.

Definition setActivityStoreDirPath (newDirPath : option string)
    (sm : SettingsManager) : SettingsManager :=
  {| activityStoreDirPath := newDirPath |}.

Record ActivityStorage : Type := {
  options : StorageOptions;
  dataFilePath : string;
  persistence : StorageAdapter;
  activityState : ActivityState;
  settingsManager : SettingsManager
}.

Definition withActivityState (f : ActivityState -> ActivityState)
    (s : ActivityStorage) : ActivityStorage :=
  {| options := options s;
     dataFilePath := dataFilePath s;
     persistence := persistence s;
     activityState := f (activityState s);
     settingsManager := settingsManager s |}.

(** [ActivityStorage.addHeartbeat] (lines 237-255). *)
Definition addHeartbeat (ts : Z) (heartbeatData : HeartbeatData) (dateKey : string)
    (s : ActivityStorage) : ActivityStorage :=
  let dayHeartbeats := default [] (getHeartbeats dateKey (activityState s)) in
  let newHeartbeat := {| timestamp := ts; data := heartbeatData |} in
  if bool_decide (userActivity heartbeatData = inactive) then
    let updatedHeartbeats := handleMayBeInactive dayHeartbeats ts heartbeatData in
    withActivityState (setHeartbeats dateKey (updatedHeartbeats ++ [newHeartbeat])) s
  else
    withActivityState (setHeartbeats dateKey (dayHeartbeats ++ [newHeartbeat])) s.

(** What [getHeartbeats] returns for a day of the storage manager. *)
Definition dayHeartbeatsOf (dateKey : string) (s : ActivityStorage) : list Heartbeat :=
  default [] (getHeartbeats dateKey (activityState s)).

(** Helper notions used to state the properties of the correction. *)

Definition convertOne (hb : Heartbeat) : Heartbeat :=
  if hasActivity may_be_inactive hb then markInactive hb else hb.

Definition corrected (hbs : list Heartbeat) (t : Z) : list Heartbeat :=
  take (Z.to_nat (lastActiveIndex hbs t + 1)) hbs
  ++ convertRun t (drop (Z.to_nat (lastActiveIndex hbs t + 1)) hbs).

(** A rewritten heartbeat differs from the original in its activity tag
    only, and only a 'may_be_inactive' one is rewritten. *)
Definition onlyTagChanged (hb hb' : Heartbeat) : Prop :=
  timestamp hb' = timestamp hb /\
  appWindow (data hb') = appWindow (data hb) /\
  extra (data hb') = extra (data hb) /\
  (hb' = hb \/ (userActivity (data hb) = may_be_inactive /\ hb' = markInactive hb)).


(* ===================================================================== *)
(** ** The store as a JavaScript value                                    *)
(* ===================================================================== *)

(** TypeScript types are erased at run time: a [StoreData] is the plain
    object below, which is what [JSON.stringify] receives. *)
Definition activityToJS (a : UserActivity) : JSValue :=
  match a with
  | active => JStr "active"
  | inactive => JStr "inactive"
  | may_be_inactive => JStr "may_be_inactive"
  end.

Definition appWindowToJS (w : AppWindowData) : JSValue :=
  JObj [("app", JStr (app w)); ("title", JStr (title w))].

Definition heartbeatDataToJS (d : HeartbeatData) : JSValue :=
  JObj (("userActivity", activityToJS (userActivity d))
        :: match appWindow d with
           | Some w => [("appWindow", appWindowToJS w)]
           | None => []
           end ++ extra d).

Definition heartbeatToJS (hb : Heartbeat) : JSValue :=
  JObj [("timestamp", JNum (timestamp hb)); ("data", heartbeatDataToJS (data hb))].

Definition eventToJS (ev : TimelineEvent) : JSValue :=
  JObj [("timestamp", JNum (ev_timestamp ev));
        ("duration", JNum (ev_duration ev));
        ("type", JStr (ev_type ev));
        ("data", match ev_data ev with
                 | Some w => appWindowToJS w
                 | None => JObj []
                 end)].

Definition summaryToJS (sm : AggregationSummary) : JSValue :=
  JObj [("activeTrackingDuration", JNum (activeTrackingDuration sm));
        ("totalActiveDuration", JNum (totalActiveDuration sm));
        ("totalInactiveDuration", JNum (totalInactiveDuration sm));
        ("totalMeetingDuration", JNum (totalMeetingDuration sm));
        ("appUsage", JObj (prod_map id JNum <$> map_to_list (appUsage sm)))].

Definition dayToJS (d : DayData) : JSValue :=
  JObj (("heartbeats", JArr (heartbeatToJS <$> heartbeats d))
        :: match aggregated d with
           | Some ag =>
               [("aggregated",
                 JObj [("summary", summaryToJS (st_summary ag));
                       ("timelineOverview", JArr (eventToJS <$> timelineOverview ag))])]
           | None => []
           end).

Definition storeToJS (sd : StoreData) : JSValue :=
  JObj [("version", JNum (version sd));
        ("lastCleanupTime", JNum (lastCleanupTime sd));
        ("startTime", JNum (startTime sd));
        ("aggregationInterval", JNum (aggregationInterval sd));
        ("days", JObj (prod_map id dayToJS <$> map_to_list (days sd)))].

(** The cast [as StoreData] of a loaded value back to the typed view; at
    run time it does nothing. *)
Class StoreCast : Type := { asStoreData : JSValue -> StoreData }.

(* ===================================================================== *)
(** ** Statements that can throw                                          *)
(* ===================================================================== *)

(** A computation over a state [S] that returns a value or throws; what it
    did to the state before throwing stays done. *)
Inductive outcome (A : Type) : Type :=
| Ok (a : A)
| Throw.
Arguments Ok {A} a.
Arguments Throw {A}.

Definition Eff (S A : Type) : Type := S -> outcome A * S.

Definition ret {S A : Type} (a : A) : Eff S A := fun s => (Ok a, s).

Definition throw {S A : Type} : Eff S A := fun s => (Throw, s).

Definition bind {S A B : Type} (m : Eff S A) (f : A -> Eff S B) : Eff S B :=
  fun s => match m s with
           | (Ok a, s') => f a s'
           | (Throw, s') => (Throw, s')
           end.

(** [try { body } catch (error) { handler }] *)
Definition tryCatch {S A : Type} (body handler : Eff S A) : Eff S A :=
  fun s => match body s with
           | (Ok a, s') => (Ok a, s')
           | (Throw, s') => handler s'
           end.

Definition when {S : Type} (b : bool) (m : Eff S unit) : Eff S unit :=
  if b then m else ret tt.

Declare Scope eff_scope.
Delimit Scope eff_scope with eff.
Notation "'let!' x ':=' m 'in' k" := (bind m (fun x => k))
  (at level 10, x name, m at level 100, k at level 200) : eff_scope.
Notation "m >> k" := (bind m (fun _ => k))
  (at level 100, k at level 200, right associativity) : eff_scope.
Local Open Scope eff_scope.

(* ===================================================================== *)
(** ** The JavaScript runtime and Node's [fs] module                      *)
(* ===================================================================== *)

(** Library functions the code calls.  [JSON_parse] is [None] where
    [JSON.parse] throws, [Date_parse] is [None] where [Date.parse] is NaN,
    [userDataPath] is [app.getPath('userData')]. *)
Class JsRuntime : Type := {
  JSON_parse : string -> option JSValue;
  JSON_stringify : JSValue -> string;
  Date_parse : string -> option Z;
  path_join : string -> string -> string;
  path_dirname : string -> string;
  userDataPath : string
}.

Inductive fsNode : Type :=
| File (content : string)
| Dir.

(** What the process may do at a path. *)
Inductive access : Type := ReadWrite | ReadOnly | NoAccess.

#[global] Instance access_eq_dec : EqDecision access.
Proof. solve_decision. Defined.

(** The disk: what is at each path, and the access the process has to it
    (read and write when nothing is recorded). *)
Record FileSystem : Type := {
  nodes : gmap string fsNode;
  perms : gmap string access
}.

Definition accessOf (p : string) (fs : FileSystem) : access :=
  default ReadWrite (perms fs !! p).

Definition withNodes (f : gmap string fsNode -> gmap string fsNode)
    (fs : FileSystem) : FileSystem :=
  {| nodes := f (nodes fs); perms := perms fs |}.

(** [fs.existsSync(p)] never throws. *)
Definition existsSync (p : string) : Eff FileSystem bool :=
  fun fs => (Ok (bool_decide (is_Some (nodes fs !! p))), fs).

(** [fs.mkdirSync(p, { recursive: true })]: no error when the directory is
    there already. *)
Definition mkdirSync (p : string) : Eff FileSystem unit :=
  fun fs =>
    match nodes fs !! p with
    | Some Dir => (Ok tt, fs)
    | Some (File _) => (Throw, fs)
    | None =>
        if decide (accessOf p fs = ReadWrite)
        then (Ok tt, withNodes <[p := Dir]> fs)
        else (Throw, fs)
    end.

(** [fs.readFileSync(p)] *)
Definition readFileSync (p : string) : Eff FileSystem string :=
  fun fs =>
    match nodes fs !! p with
    | Some (File content) =>
        if decide (accessOf p fs = NoAccess) then (Throw, fs) else (Ok content, fs)
    | _ => (Throw, fs)
    end.

(** [fs.writeFileSync(p, content)]: the directory of [p] must exist. *)
Definition writeFileSync `{JsRuntime} (p content : string) : Eff FileSystem unit :=
  fun fs =>
    match nodes fs !! p, nodes fs !! path_dirname p with
    | Some Dir, _ => (Throw, fs)
    | _, Some Dir =>
        if decide (accessOf p fs = ReadWrite)
        then (Ok tt, withNodes <[p := File content]> fs)
        else (Throw, fs)
    | _, _ => (Throw, fs)
    end.

(** [fs.unlinkSync(p)] *)
Definition unlinkSync (p : string) : Eff FileSystem unit :=
  fun fs =>
    match nodes fs !! p with
    | Some (File _) =>
        if decide (accessOf p fs = ReadWrite)
        then (Ok tt, withNodes (delete p) fs)
        else (Throw, fs)
    | _ => (Throw, fs)
    end.

(** [JSON.parse(text)] as a statement: throws on malformed text. *)
Definition jsonParse `{JsRuntime} {S : Type} (text : string) : Eff S JSValue :=
  match JSON_parse text with
  | Some v => ret v
  | None => throw
  end.

(* ===================================================================== *)
(** ** StorageAdapter.ts                                                  *)
(* ===================================================================== *)

(** [validateStoreData] (lines 111-118). *)
Definition validateStoreData (data : JSValue) : bool :=
  if negb (truthyProp (getProp data "version"))
     || negb (truthyProp (getProp data "days"))
     || negb (typeofObjectProp (getProp data "days"))
  then false
  else true.

(** [loadData] (lines 26-67). *)
Definition loadData `{JsRuntime} (a : StorageAdapter) : Eff FileSystem (option JSValue) :=
  if String.eqb (filePath a) "" then ret None
  else
    tryCatch
      (let dirPath := path_dirname (filePath a) in
       let! dirExists := existsSync dirPath in
       when (negb dirExists) (mkdirSync dirPath) >>
       let! fileExists := existsSync (filePath a) in
       if negb fileExists then ret None
       else
         let! data := readFileSync (filePath a) in
         let! parsedData := jsonParse data in
         if negb (truthy parsedData) || negb (typeofObject parsedData) then ret None
         else if negb (validateStoreData parsedData) then ret None
         else ret (Some parsedData))
      (ret None).

(** [saveData] (lines 74-96). *)
Definition saveData `{JsRuntime} (a : StorageAdapter) (data : JSValue) : Eff FileSystem bool :=
  if String.eqb (filePath a) "" then ret false
  else
    tryCatch
      (let dirPath := path_dirname (filePath a) in
       let! dirExists := existsSync dirPath in
       when (negb dirExists) (mkdirSync dirPath) >>
       let jsonData := JSON_stringify data in
       writeFileSync (filePath a) jsonData >>
       ret true)
      (ret false).

(** [updateFilePath] (lines 102-104). *)
Definition updateFilePath (newFilePath : string) (a : StorageAdapter) : StorageAdapter :=
  {| filePath := newFilePath |}.

(** The validity check in the words of the contract: the parsed value is
    an object that has a truthy [version] and a [days] that is an object
    (as JavaScript has it: an array is one, [null] is not). *)
Definition isJsObject (v : JSValue) : Prop :=
  match v with
  | JArr _ | JObj _ => True
  | _ => False
  end.

Definition validStoreShape (v : JSValue) : Prop :=
  isJsObject v /\
  (exists ver, getProp v "version" = Some ver /\ truthy ver = true) /\
  (exists ds, getProp v "days" = Some ds /\ isJsObject ds).

(** A file is there and can be read. *)
Definition readableFile (p content : string) (fs : FileSystem) : Prop :=
  nodes fs !! p = Some (File content) /\ accessOf p fs <> NoAccess.

(** The directory of the store file is there or can be created. *)
Definition dirReady `{JsRuntime} (p : string) (fs : FileSystem) : Prop :=
  is_Some (nodes fs !! path_dirname p) \/ accessOf (path_dirname p) fs = ReadWrite.

(** The disk lets the store file be written: its path is not empty, no
    directory sits at it, the process may write there, and its directory
    is there, or is missing and can be created (the path then not being
    its own directory). *)
Definition storeWritable `{JsRuntime} (p : string) (fs : FileSystem) : Prop :=
  p <> ""
  /\ nodes fs !! p <> Some Dir
  /\ accessOf p fs = ReadWrite
  /\ (nodes fs !! path_dirname p = Some Dir
      \/ (nodes fs !! path_dirname p = None
          /\ accessOf (path_dirname p) fs = ReadWrite
          /\ path_dirname p <> p)).

(* ===================================================================== *)
(** ** ActivityStorage: day data, purge and relocation                    *)
(* ===================================================================== *)

(** DateManager.ts is not among the sources: [getDateKey], which turns a
    timestamp into the key of its calendar day, is taken as given. *)
Class DateManager : Type := { getDateKey : Z -> string }.

(** The storage manager next to the disk it reads and writes. *)
Record World : Type := { storage : ActivityStorage; disk : FileSystem }.

Definition onDisk {A : Type} (m : Eff FileSystem A) : Eff World A :=
  fun w => let '(r, fs') := m (disk w) in
           (r, {| storage := storage w; disk := fs' |}).

Definition onStorage (f : ActivityStorage -> ActivityStorage) : Eff World unit :=
  fun w => (Ok tt, {| storage := f (storage w); disk := disk w |}).

Definition getStorage : Eff World ActivityStorage := fun w => (Ok (storage w), w).

(** [\d] *)
Definition isDigit (c : ascii) : bool :=
  (48 <=? nat_of_ascii c)%nat && (nat_of_ascii c <=? 57)%nat.

(** [/^\d{4}-\d{2}-\d{2}$/.test(s)] *)
Definition matchesDateKey (s : string) : bool :=
  match list_ascii_of_string s with
  | [y1; y2; y3; y4; h1; m1; m2; h2; d1; d2] =>
      isDigit y1 && isDigit y2 && isDigit y3 && isDigit y4
      && Ascii.eqb h1 "-" && isDigit m1 && isDigit m2
      && Ascii.eqb h2 "-" && isDigit d1 && isDigit d2
  | _ => false
  end.

(** [key || fallback] on an optional string: [null], [undefined] and the
    empty string are falsy. *)
Definition orElse (key : option string) (fallback : string) : string :=
  match key with
  | Some k => if String.eqb k "" then fallback else k
  | None => fallback
  end.

(** [ActivityStorage.getDayData] (lines 193-218); [now] is [Date.now()]. *)
Definition getDayData `{DateManager} (dateKey : option string) (now : Z)
    (s : ActivityStorage) : option DayData :=
  let targetDateKey := orElse dateKey (getDateKey now) in
  let todayDateKey := getDateKey now in
  if negb (matchesDateKey targetDateKey) then None
  else
    let dayHeartbeats := getHeartbeats targetDateKey (activityState s) in
    if match dayHeartbeats with
       | None => true
       | Some hbs => (length hbs =? 0)%nat
       end
    then
      if String.eqb targetDateKey todayDateKey
      then Some {| heartbeats := []; aggregated := None |}
      else None
    else Some {| heartbeats := default [] dayHeartbeats; aggregated := None |}.

(** [saveToDisk] (lines 172-184). *)
Definition saveToDisk `{JsRuntime} : Eff World unit :=
  let! s := getStorage in
  if useMockData (options s) then ret tt
  else
    tryCatch
      (onDisk (saveData (persistence s)
                 (storeToJS (getFullStoreData (activityState s)))) >> ret tt)
      (ret tt).

(** The test of [getDatesOlderThan] on one key. *)
Definition olderThan `{JsRuntime} (timestampThreshold : Z) (dateKey : string) : bool :=
  match Date_parse (dateKey +:+ "T00:00:00Z") with
  | Some dateTimestamp => (dateTimestamp <? timestampThreshold)%Z
  | None => false
  end.

(** [getDatesOlderThan] (lines 326-339). *)
Definition getDatesOlderThan `{JsRuntime} (timestampThreshold : Z)
    (st : ActivityState) : list string :=
  List.filter (olderThan timestampThreshold) (stateAvailableDates st).

Definition oneDayMs : Z := 24 * 60 * 60 * 1000.

Definition deleteDays (datesToDelete : list string) (st : ActivityState) : ActivityState :=
  foldl (fun acc dateKey => deleteDay dateKey acc) st datesToDelete.

(** [cleanupOldData] (lines 282-320); [now] is [Date.now()], also for the
    time that [updateLastCleanupTime] records.  The unused [todayKey] of
    the source is left out. *)
Definition cleanupOldData `{JsRuntime} (now : Z) : Eff World unit :=
  let! s := getStorage in
  if useMockData (options s) then ret tt
  else if (now - oneDayMs <? getLastCleanupTime (activityState s))%Z then ret tt
  else
    let thirtyDaysAgoTimestamp := (now - 30 * oneDayMs)%Z in
    let datesToDelete := getDatesOlderThan thirtyDaysAgoTimestamp (activityState s) in
    if (length datesToDelete =? 0)%nat then
      onStorage (withActivityState (updateLastCleanupTime now)) >>
      saveToDisk
    else
      onStorage (withActivityState (deleteDays datesToDelete)) >>
      onStorage (withActivityState (updateLastCleanupTime now)) >>
      saveToDisk.

(** The storage manager after a purge run at [now]: the old days deleted,
    then the time of the run recorded. *)
Definition purged `{JsRuntime} (now : Z) (s : ActivityStorage) : ActivityStorage :=
  withActivityState
    (fun st =>
       updateLastCleanupTime now
         (deleteDays (getDatesOlderThan (now - 30 * oneDayMs)%Z st) st)) s.

Definition storeFileName : string := "chronflow-activity-store.json".

(** [newDirPath ? path.join(newDirPath, ...) : path.join(userData, ...)] *)
Definition newFilePathFor `{JsRuntime} (newDirPath : option string) : string :=
  path_join (orElse newDirPath userDataPath) storeFileName.

Definition repoint (newDirPath : option string) (newFilePath : string)
    (s : ActivityStorage) : ActivityStorage :=
  {| options := options s;
     dataFilePath := newFilePath;
     persistence := {| filePath := newFilePath |};
     activityState := activityState s;
     settingsManager := setActivityStoreDirPath newDirPath (settingsManager s) |}.

(** [updateStoragePath] (lines 346-393). *)
Definition updateStoragePath `{JsRuntime} `{StoreCast} (newDirPath : option string)
    : Eff World bool :=
  tryCatch
    (let! s := getStorage in
     let oldFilePath := dataFilePath s in
     let newFilePath := newFilePathFor newDirPath in
     let! fileExistsAtNewPath := onDisk (existsSync newFilePath) in
     let! oldExists := onDisk (existsSync oldFilePath) in
     when (oldExists && negb fileExistsAtNewPath)
       (let dirPath := path_dirname newFilePath in
        let! dirExists := onDisk (existsSync dirPath) in
        when (negb dirExists) (onDisk (mkdirSync dirPath)) >>
        let! data := onDisk (readFileSync oldFilePath) in
        onDisk (writeFileSync newFilePath data) >>
        when (negb (String.eqb oldFilePath newFilePath))
          (onDisk (unlinkSync oldFilePath))) >>
     onStorage (repoint newDirPath newFilePath) >>
     let! data := onDisk (loadData {| filePath := newFilePath |}) in
     match data with
     | Some v => onStorage (withActivityState (setData (asStoreData v)))
     | None => ret tt
     end >>
     ret true)
    (ret false).

(** The statements of [updateStoragePath] that move the file, as one
    computation on the disk. *)
Definition copyStoreFile `{JsRuntime} (oldFilePath newFilePath : string)
    : Eff FileSystem unit :=
  let dirPath := path_dirname newFilePath in
  let! dirExists := existsSync dirPath in
  when (negb dirExists) (mkdirSync dirPath) >>
  let! data := readFileSync oldFilePath in
  writeFileSync newFilePath data >>
  when (negb (String.eqb oldFilePath newFilePath)) (unlinkSync oldFilePath).

(** The statements of [updateStoragePath] that follow the move: repoint,
    then reload what is found at the new place. *)
Definition finishRelocation `{JsRuntime} `{StoreCast} (newDirPath : option string)
    (s : ActivityStorage) (fs : FileSystem) : outcome bool * World :=
  let newFilePath := newFilePathFor newDirPath in
  match loadData {| filePath := newFilePath |} fs with
  | (Ok (Some v), fs') =>
      (Ok true,
       {| storage := withActivityState (setData (asStoreData v))
                       (repoint newDirPath newFilePath s);
          disk := fs' |})
  | (_, fs') =>
      (Ok true, {| storage := repoint newDirPath newFilePath s; disk := fs' |})
  end.

(** The old file is there and no file is at the new place yet. *)
Definition mustMove `{JsRuntime} (newDirPath : option string) (w : World) : bool :=
  bool_decide (is_Some (nodes (disk w) !! dataFilePath (storage w)))
  && negb (bool_decide (is_Some (nodes (disk w) !! newFilePathFor newDirPath))).

(** The sentence "returns false on any I/O failure, leaving prior state
    unchanged", read literally: the files count as state. *)
Definition failureChangesNothing `{JsRuntime} `{StoreCast} (newDirPath : option string)
    (w : World) : Prop :=
  forall w', updateStoragePath newDirPath w = (Ok false, w') -> w' = w.

(* ===================================================================== *)
(** ** AggregationService.ts                                              *)
(* ===================================================================== *)

(** TimelineGenerator.ts is not among the sources: its two methods are
    taken as given.  The first argument of [generateTimelineEvents] is the
    generator's field [aggregationInterval]. *)
Class TimelineGeneratorOps : Type := {
  generateTimelineEvents : Z -> list Heartbeat -> list TimelineEvent;
  calculateSummary : list TimelineEvent -> AggregationSummary
}.

(** [AggregatedData] of AggregationService.ts: a cache entry. *)
Record CachedAggregate : Type := {
  summary : AggregationSummary;
  timelineEvents : list TimelineEvent
}.

(** [DayData] of AggregationService.ts: what the facade hands out. *)
Record DayView : Type := {
  dv_heartbeats : list Heartbeat;
  dv_timelineEvents : list TimelineEvent
}.

(** The service's own state: the cache, and the interval held by its
    timeline generator ([timelineGenerator.aggregationInterval]). *)
Record AggregationService : Type := {
  aggregationCache : gmap string CachedAggregate;
  generatorInterval : Z
}.

Definition zeroSummary : AggregationSummary :=
  {| activeTrackingDuration := 0;
     totalActiveDuration := 0;
     totalInactiveDuration := 0;
     totalMeetingDuration := 0;
     appUsage := ∅ |}.

(** [clearCache] (lines 134-137). *)
Definition clearCache (svc : AggregationService) : AggregationService :=
  {| aggregationCache := ∅; generatorInterval := generatorInterval svc |}.

(** [setAggregationInterval] (lines 151-160). *)
Definition setAggregationInterval (interval : Z) (svc : AggregationService)
    : AggregationService :=
  if negb (existsb (Z.eqb interval) [5; 10; 15]%Z) then svc
  else
    clearCache {| aggregationCache := aggregationCache svc;
                  generatorInterval := interval |}.

Definition cacheSet (dateKey : string) (entry : CachedAggregate)
    (svc : AggregationService) : AggregationService :=
  {| aggregationCache := <[dateKey := entry]> (aggregationCache svc);
     generatorInterval := generatorInterval svc |}.

(** [this.activityStorage.getDayData(dateKey)?.heartbeats || []] *)
Definition storedHeartbeats `{DateManager} (dateKey : string) (now : Z)
    (s : ActivityStorage) : list Heartbeat :=
  match getDayData (Some dateKey) now s with
  | Some d => heartbeats d
  | None => []
  end.

(** [aggregateDay] (lines 168-189). *)
Definition aggregateDay `{DateManager} `{TimelineGeneratorOps} (dateKey : string)
    (now : Z) (s : ActivityStorage) (svc : AggregationService)
    : bool * AggregationService :=
  let hbs := storedHeartbeats dateKey now s in
  let events := generateTimelineEvents (generatorInterval svc) hbs in
  let summary_ := calculateSummary events in
  let aggregatedData := {| summary := summary_; timelineEvents := events |} in
  (true, cacheSet dateKey aggregatedData svc).

(** [getAggregatedData] (lines 197-229). *)
Definition getAggregatedData `{DateManager} `{TimelineGeneratorOps} (dateKey : string)
    (now : Z) (s : ActivityStorage) (svc : AggregationService)
    : option CachedAggregate * AggregationService :=
  match aggregationCache svc !! dateKey with
  | Some cachedData => (Some cachedData, svc)
  | None =>
      let hbs := storedHeartbeats dateKey now s in
      let events := generateTimelineEvents (generatorInterval svc) hbs in
      let aggregatedData := {| summary := zeroSummary; timelineEvents := events |} in
      (Some aggregatedData, cacheSet dateKey aggregatedData svc)
  end.

(** [getDayDataWithAggregation] (lines 236-250). *)
Definition getDayDataWithAggregation `{DateManager} `{TimelineGeneratorOps}
    (dateKey : string) (now : Z) (s : ActivityStorage) (svc : AggregationService)
    : DayView * AggregationService :=
  let hbs := storedHeartbeats dateKey now s in
  let '(aggregatedData, svc') := getAggregatedData dateKey now s svc in
  match aggregatedData with
  | None => ({| dv_heartbeats := hbs; dv_timelineEvents := [] |}, svc')
  | Some ad =>
      ({| dv_heartbeats := hbs; dv_timelineEvents := timelineEvents ad |}, svc')
  end.

(* ===================================================================== *)
(** ** ActivityFacade.ts                                                  *)
(* ===================================================================== *)

(** The facade's storage manager and aggregation service; the service
    reads the same storage manager. *)
Record ActivityFacade : Type := {
  activityStorage : ActivityStorage;
  aggregationService : AggregationService
}.

(** [ActivityFacade.getDayData] (lines 164-167): [None] stands for null. *)
Definition facadeGetDayData `{DateManager} `{TimelineGeneratorOps}
    (dateKey : option string) (now : Z) (f : ActivityFacade)
    : option DayView * ActivityFacade :=
  let effectiveDateKey := orElse dateKey (getDateKey now) in
  let '(r, svc') :=
    getDayDataWithAggregation effectiveDateKey now (activityStorage f)
      (aggregationService f) in
  (Some r, {| activityStorage := activityStorage f; aggregationService := svc' |}).

(** [ActivityFacade.cleanupOldData] (lines 173-175), with the disk. *)
Definition facadeCleanupOldData `{JsRuntime} (now : Z)
    (fd : ActivityFacade * FileSystem) : ActivityFacade * FileSystem :=
  let w' := snd (cleanupOldData now {| storage := activityStorage (fst fd);
                                       disk := snd fd |}) in
  ({| activityStorage := storage w';
      aggregationService := aggregationService (fst fd) |}, disk w').

(** [ActivityFacade.setAggregationInterval] (lines 191-197). *)
Definition facadeSetAggregationInterval (interval : Z) (f : ActivityFacade)
    : ActivityFacade :=
  {| activityStorage := activityStorage f;
     aggregationService := setAggregationInterval interval (aggregationService f) |}.

(** Every cache entry under a key that is not of the form YYYY-MM-DD holds
    no event. *)
Definition cacheSound (svc : AggregationService) : Prop :=
  forall k e, aggregationCache svc !! k = Some e ->
              matchesDateKey k = false -> timelineEvents e = [].

(** The states the facade can be in: it starts with an empty cache; the
    storage manager may change in any way (heartbeats added, days purged,
    the store reloaded); the facade serves [getDayData] and
    [setAggregationInterval]; and at the end of an interval the tracker
    (ActivityTracker.handleIntervalEnd) aggregates the day whose key it
    took from the date manager at time [t0]. *)
Inductive facadeReach `{DateManager} `{TimelineGeneratorOps} : ActivityFacade -> Prop :=
| reach_fresh (s : ActivityStorage) (interval : Z) :
    facadeReach {| activityStorage := s;
                   aggregationService := {| aggregationCache := ∅;
                                            generatorInterval := interval |} |}
| reach_storage (f : ActivityFacade) (s' : ActivityStorage) :
    facadeReach f ->
    facadeReach {| activityStorage := s'; aggregationService := aggregationService f |}
| reach_getDayData (f : ActivityFacade) (dateKey : option string) (now : Z) :
    facadeReach f -> facadeReach (snd (facadeGetDayData dateKey now f))
| reach_setInterval (f : ActivityFacade) (interval : Z) :
    facadeReach f -> facadeReach (facadeSetAggregationInterval interval f)
| reach_intervalEnd (f : ActivityFacade) (t0 now : Z) :
    facadeReach f ->
    facadeReach {| activityStorage := activityStorage f;
                   aggregationService :=
                     snd (aggregateDay (getDateKey t0) now (activityStorage f)
                            (aggregationService f)) |}.

(** The sentence "both empty when the key is invalid or unknown", read
    literally: whenever the storage manager has no record for the key. *)
Definition emptyWithoutRecord `{DateManager} `{TimelineGeneratorOps} (now : Z)
    (f : ActivityFacade) (k : string) : Prop :=
  getDayData (Some k) now (activityStorage f) = None ->
  exists r, fst (facadeGetDayData (Some k) now f) = Some r
            /\ dv_heartbeats r = [] /\ dv_timelineEvents r = [].

(** The general sentence about [addHeartbeat], read literally: whatever the
    order of the stored timestamps, every 'may_be_inactive' heartbeat after
    the last 'active' one before [t], itself before [t], is rewritten. *)
Definition rewritesEveryPending (s : ActivityStorage) (k : string) (t : Z)
    (d : HeartbeatData) : Prop :=
  forall j hb,
    dayHeartbeatsOf k s !! j = Some hb ->
    userActivity (data hb) = may_be_inactive ->
    (lastActiveIndex (dayHeartbeatsOf k s) t < Z.of_nat j)%Z ->
    (timestamp hb < t)%Z ->
    dayHeartbeatsOf k (addHeartbeat t d k s) !! j = Some (markInactive hb).

(* ===================================================================== *)
(** ** Sample data                                                        *)
(* ===================================================================== *)

Definition chrome : AppWindowData := {| app := "Chrome"; title := "Inbox" |}.

Definition sample (a : UserActivity) : HeartbeatData :=
  {| userActivity := a; appWindow := Some chrome; extra := [("meeting", JBool false)] |}.

Definition hbAt (t : Z) (a : UserActivity) : Heartbeat :=
  {| timestamp := t; data := sample a |}.

Definition storeWith (cleanup : Z) (ds : gmap string DayData) : StoreData :=
  {| version := 1; lastCleanupTime := cleanup; startTime := 0;
     aggregationInterval := 15; days := ds |}.

Definition dayOf (hbs : list Heartbeat) : DayData :=
  {| heartbeats := hbs; aggregated := None |}.

Definition storageWith (path : string) (mock : bool) (d : StoreData) : ActivityStorage :=
  {| options := {| useMockData := mock; storagePath := None |};
     dataFilePath := path;
     persistence := {| filePath := path |};
     activityState := {| storeData := d |};
     settingsManager := {| activityStoreDirPath := None |} |}.

Definition sampleDay : string := "2026-11-02".

Definition pendingDay : list Heartbeat :=
  [hbAt 100 active; hbAt 200 may_be_inactive; hbAt 300 may_be_inactive].

(** A day whose timestamps are out of order (the clock was set back). *)
Definition shuffledDay : list Heartbeat :=
  [hbAt 0 active; hbAt 10 inactive; hbAt 2 may_be_inactive].

Definition sampleStorage (hbs : list Heartbeat) : ActivityStorage :=
  storageWith "/data/chronflow-activity-store.json" false
    (storeWith 0 {[ sampleDay := dayOf hbs ]}).

(** A runtime for the worked examples: compact JSON text, [JSON.parse]
    knowing the documents of [known] only, ISO dates at midnight UTC, and
    POSIX paths. *)
Definition quoted (s : string) : string :=
  String (ascii_of_nat 34) (s +:+ String (ascii_of_nat 34) "").

Fixpoint render (v : JSValue) : string :=
  match v with
  | JNull => "null"
  | JBool true => "true"
  | JBool false => "false"
  | JNum n => pretty n
  | JStr s => quoted s
  | JArr items =>
      "[" +:+ (fix items_ (l : list JSValue) : string :=
                 match l with
                 | [] => ""
                 | [x] => render x
                 | x :: rest => render x +:+ "," +:+ items_ rest
                 end) items +:+ "]"
  | JObj fields =>
      "{" +:+ (fix fields_ (l : list (string * JSValue)) : string :=
                 match l with
                 | [] => ""
                 | [(k, x)] => quoted k +:+ ":" +:+ render x
                 | (k, x) :: rest => quoted k +:+ ":" +:+ render x +:+ "," +:+ fields_ rest
                 end) fields +:+ "}"
  end.

Definition parseKnown (known : list JSValue) (text : string) : option JSValue :=
  find (fun v => String.eqb (render v) text) known.

Fixpoint digitsValue (acc : Z) (cs : list ascii) : option Z :=
  match cs with
  | [] => Some acc
  | c :: rest =>
      if isDigit c
      then digitsValue (acc * 10 + Z.of_nat (nat_of_ascii c - 48)) rest
      else None
  end.

Definition numberAt (start len : nat) (s : string) : option Z :=
  digitsValue 0 (list_ascii_of_string (substring start len s)).

(** Days between 1970-01-01 and the civil date [y]-[m]-[d]. *)
Definition daysFromCivil (y m d : Z) : Z :=
  let y' := if (m <=? 2)%Z then (y - 1)%Z else y in
  let era := (y' / 400)%Z in
  let yoe := (y' - era * 400)%Z in
  let mp := if (2 <? m)%Z then (m - 3)%Z else (m + 9)%Z in
  let doy := ((153 * mp + 2) / 5 + d - 1)%Z in
  let doe := (yoe * 365 + yoe / 4 - yoe / 100 + doy)%Z in
  (era * 146097 + doe - 719468)%Z.

(** [Date.parse] on texts of the form [YYYY-MM-DDT00:00:00Z]. *)
Definition parseUtcMidnight (text : string) : option Z :=
  if negb (String.eqb (substring 10 10 text) "T00:00:00Z"
           && String.eqb (substring 4 1 text) "-"
           && String.eqb (substring 7 1 text) "-"
           && (String.length text =? 20)%nat)
  then None
  else
    match numberAt 0 4 text, numberAt 5 2 text, numberAt 8 2 text with
    | Some y, Some m, Some d =>
        if ((1 <=? m) && (m <=? 12) && (1 <=? d) && (d <=? 31))%Z
        then Some (daysFromCivil y m d * 86400000)%Z
        else None
    | _, _, _ => None
    end.

Fixpoint dropThroughSlash (cs : list ascii) : list ascii :=
  match cs with
  | [] => []
  | c :: rest => if Ascii.eqb c "/" then rest else dropThroughSlash rest
  end.

Definition posixDirname (p : string) : string :=
  match rev (dropThroughSlash (rev (list_ascii_of_string p))) with
  | [] => "/"
  | cs => string_of_list_ascii cs
  end.

Definition sampleRuntime (known : list JSValue) : JsRuntime :=
  {| JSON_parse := parseKnown known;
     JSON_stringify := render;
     Date_parse := parseUtcMidnight;
     path_join := fun d f => d +:+ "/" +:+ f;
     path_dirname := posixDirname;
     userDataPath := "/home/user/.config/chronflow" |}.

Definition samplePath : string := "/data/chronflow-activity-store.json".

Definition sampleStore : StoreData :=
  storeWith 0 {[ sampleDay := dayOf pendingDay ]}.

Definition emptyDisk : FileSystem := {| nodes := ∅; perms := ∅ |}.

Definition diskWith (p content : string) : FileSystem :=
  {| nodes := {[ p := File content; posixDirname p := Dir ]}; perms := ∅ |}.

(** A date manager whose clock stays within one day. *)
Definition pinnedDate (today : string) : DateManager :=
  {| getDateKey := fun _ => today |}.

(** The sentence "returns null when the key does not match YYYY-MM-DD",
    read literally for every key passed. *)
Definition nullOnEveryMalformedKey `{DateManager} (now : Z) (s : ActivityStorage) : Prop :=
  forall k, matchesDateKey k = false -> getDayData (Some k) now s = None.

Definition oldDay : string := "2020-01-01".

(** Noon of 2026-11-02, in milliseconds since the epoch. *)
Definition sampleNow : Z := 1793620800000.

Definition agedStore : StoreData :=
  storeWith 0 {[ oldDay := dayOf pendingDay; sampleDay := dayOf pendingDay ]}.

Definition agedWorld : World :=
  {| storage := storageWith samplePath false agedStore; disk := emptyDisk |}.

(** A cast that recognises the run-time values of the stores of [known]. *)
Definition castKnown (known : list StoreData) : StoreCast :=
  {| asStoreData := fun v =>
       default (storeWith 0 ∅)
         (find (fun sd => String.eqb (render (storeToJS sd)) (render v)) known) |}.

Definition oldPath : string := "/old/chronflow-activity-store.json".

(** The store file sits at [oldPath] with the given access; the in-memory
    store is empty. *)
Definition relocationWorld (acc : access) : World :=
  {| storage := storageWith oldPath false (storeWith 0 ∅);
     disk := {| nodes := {[ oldPath := File (render (storeToJS sampleStore));
                            "/old" := Dir ]};
                perms := {[ oldPath := acc ]} |} |}.

(** Modelled from the spec: [TimelineGenerator] (TimelineGenerator.ts is
    not among the sources).  Section 4.4: consecutive heartbeats of the
    same event type, and for app-window events of the same app and title,
    merge into one event that starts at the first of them and lasts one
    nominal interval per heartbeat; an 'inactive' heartbeat gives an
    'inactive' event whatever its app-window data, any other heartbeat an
    'appWindow' event.  [calculateSummary] sums the durations by type, and
    per app for the app-window events.  The meeting indicator, whose field
    the spec does not name, is left out. *)
Definition eventTypeOf (d : HeartbeatData) : string :=
  if bool_decide (userActivity d = inactive) then "inactive" else "appWindow".

Definition eventDataOf (d : HeartbeatData) : option AppWindowData :=
  if bool_decide (userActivity d = inactive) then None else appWindow d.

Definition sameWindow (a b : option AppWindowData) : bool :=
  match a, b with
  | Some x, Some y => String.eqb (app x) (app y) && String.eqb (title x) (title y)
  | None, None => true
  | _, _ => false
  end.

Definition eventOf (nominal : Z) (hb : Heartbeat) : TimelineEvent :=
  {| ev_timestamp := timestamp hb;
     ev_duration := nominal;
     ev_type := eventTypeOf (data hb);
     ev_data := eventDataOf (data hb) |}.

Fixpoint mergeHeartbeats (nominal : Z) (hbs : list Heartbeat) : list TimelineEvent :=
  match hbs with
  | [] => []
  | hb :: rest =>
      match mergeHeartbeats nominal rest with
      | ev :: evs =>
          if String.eqb (eventTypeOf (data hb)) (ev_type ev)
             && sameWindow (eventDataOf (data hb)) (ev_data ev)
          then {| ev_timestamp := timestamp hb;
                  ev_duration := (nominal + ev_duration ev)%Z;
                  ev_type := ev_type ev;
                  ev_data := ev_data ev |} :: evs
          else eventOf nominal hb :: ev :: evs
      | [] => [eventOf nominal hb]
      end
  end.

Definition durationOf (type : string) (events : list TimelineEvent) : Z :=
  foldr (fun ev acc => if String.eqb (ev_type ev) type
                       then (ev_duration ev + acc)%Z else acc) 0%Z events.

Definition usageOf (events : list TimelineEvent) : gmap string Z :=
  foldr (fun ev m =>
           match ev_data ev with
           | Some w =>
               if String.eqb (ev_type ev) "appWindow"
               then <[app w := (default 0%Z (m !! app w) + ev_duration ev)%Z]> m
               else m
           | None => m
           end) ∅ events.

Definition specTimeline : TimelineGeneratorOps :=
  {| generateTimelineEvents := fun intervalMinutes hbs =>
       mergeHeartbeats (intervalMinutes * 60 * 1000)%Z hbs;
     calculateSummary := fun events =>
       {| activeTrackingDuration :=
            foldr (fun ev acc => (ev_duration ev + acc)%Z) 0%Z events;
          totalActiveDuration := durationOf "appWindow" events;
          totalInactiveDuration := durationOf "inactive" events;
          totalMeetingDuration := durationOf "teamsMeeting" events;
          appUsage := usageOf events |} |}.

(** The scenario of section 8: heartbeats at 09:00 and 09:15 (active,
    Chrome) and at 09:30 (inactive) of 2026-11-02, interval 15 minutes. *)
Definition nineOClock : Z := 1793610000000.

Definition scenarioDay : list Heartbeat :=
  [ {| timestamp := nineOClock;
       data := {| userActivity := active; appWindow := Some chrome; extra := [] |} |};
    {| timestamp := nineOClock + 900000;
       data := {| userActivity := active; appWindow := Some chrome; extra := [] |} |};
    {| timestamp := nineOClock + 1800000;
       data := {| userActivity := inactive; appWindow := None; extra := [] |} |} ]%Z.

Definition scenarioEvents : list TimelineEvent :=
  [ {| ev_timestamp := nineOClock; ev_duration := 1800000;
       ev_type := "appWindow"; ev_data := Some chrome |};
    {| ev_timestamp := nineOClock + 1800000; ev_duration := 900000;
       ev_type := "inactive"; ev_data := None |} ]%Z.

Definition freshService : AggregationService :=
  {| aggregationCache := ∅; generatorInterval := 15 |}.

Definition scenarioStorage : ActivityStorage :=
  storageWith samplePath false (storeWith 0 {[ sampleDay := dayOf scenarioDay ]}).

(** A facade whose store holds a day older than thirty days. *)
Definition agedFacade : ActivityFacade :=
  {| activityStorage := storageWith samplePath false agedStore;
     aggregationService := freshService |}.

(** The old day is looked at, then the purge runs. *)
Definition afterPurge : ActivityFacade * FileSystem :=
  @facadeCleanupOldData (sampleRuntime []) sampleNow
    (snd (@facadeGetDayData (pinnedDate sampleDay) specTimeline (Some oldDay)
            sampleNow agedFacade), emptyDisk).

(* ===================================================================== *)
(** * Further functions of the cited files                                *)
(* ===================================================================== *)

(** What [loadData] answers once the directory of the path is there: the
    parsed content of the file when it can be read and has the valid
    shape, null in every other case. *)
Definition loadOutcome `{JsRuntime} (p : string) (fs : FileSystem) : option JSValue :=
  match nodes fs !! p with
  | Some (File c) =>
      if decide (accessOf p fs = NoAccess) then None
      else match JSON_parse c with
           | Some v =>
               if negb (truthy v) || negb (typeofObject v) then None
               else if negb (validateStoreData v) then None
               else Some v
           | None => None
           end
  | _ => None
  end.

(** The disk after the directory [d] has been created. *)
Definition withDir (d : string) (fs : FileSystem) : FileSystem :=
  withNodes <[d := Dir]> fs.

(** The disk [fs'] is [fs], or [fs] with the missing directory [d] created. *)
Definition sameOrDirCreated (d : string) (fs fs' : FileSystem) : Prop :=
  fs' = fs \/ (nodes fs !! d = None /\ accessOf d fs = ReadWrite /\ fs' = withDir d fs).

(** [fs.writeFileSync(p, ...)] goes through: no directory sits at [p], the
    directory of [p] exists, and the process may write at [p]. *)
Definition canWrite `{JsRuntime} (p : string) (fs : FileSystem) : bool :=
  match nodes fs !! p, nodes fs !! path_dirname p with
  | Some Dir, _ => false
  | _, Some Dir => bool_decide (accessOf p fs = ReadWrite)
  | _, _ => false
  end.

(** A store whose version is zero. *)
Definition unversionedStore : StoreData :=
  {| version := 0; lastCleanupTime := 0; startTime := 0;
     aggregationInterval := 15; days := {[ sampleDay := dayOf pendingDay ]} |}.

(* ===================================================================== *)
(** ** ActivityStorage: the remaining methods                             *)
(* ===================================================================== *)

(** The order of [Array.prototype.sort] without a comparison function:
    strings compared unit by unit.  (On the ASCII keys of the store this
    is the order of [String.leb].) *)
Definition keyLe (x y : string) : Prop := String.leb x y = true.

#[global] Instance keyLe_dec : RelDecision keyLe.
Proof. intros x y. unfold keyLe. apply _. Defined.

(** [set.add(x)] on a [Set] kept in insertion order. *)
Definition setAdd (x : string) (set : list string) : list string :=
  if decide (x ∈ set) then set else set ++ [x].

(** [new Set(items)] *)
Definition setFrom (items : list string) : list string :=
  foldl (fun set x => setAdd x set) [] items.

(** [ActivityStorage.getAvailableDates] (lines 262-273). *)
Definition getAvailableDates `{DateManager} (now : Z) (s : ActivityStorage) : list string :=
  let storedDates := stateAvailableDates (activityState s) in
  let todayDateKey := getDateKey now in
  let datesSet := setAdd todayDateKey (setFrom storedDates) in
  merge_sort keyLe datesSet.

(** [ActivityStorage.useExistingStoreFile] (lines 400-422). *)
Definition useExistingStoreFile `{JsRuntime} `{StoreCast} (newDirPath : string)
    : Eff World bool :=
  tryCatch
    (onStorage (fun s =>
       {| options := options s;
          dataFilePath := dataFilePath s;
          persistence := persistence s;
          activityState := activityState s;
          settingsManager := setActivityStoreDirPath (Some newDirPath) (settingsManager s) |}) >>
     onStorage (fun s =>
       {| options := options s;
          dataFilePath := path_join newDirPath storeFileName;
          persistence := persistence s;
          activityState := activityState s;
          settingsManager := settingsManager s |}) >>
     let! s := getStorage in
     onStorage (fun s0 =>
       {| options := options s0;
          dataFilePath := dataFilePath s0;
          persistence := {| filePath := dataFilePath s |};
          activityState := activityState s0;
          settingsManager := settingsManager s0 |}) >>
     let! data := onDisk (loadData {| filePath := dataFilePath s |}) in
     match data with
     | Some v => onStorage (withActivityState (setData (asStoreData v)))
     | None => ret tt
     end >>
     ret true)
    (ret false).

(** [ActivityStorage.getStoreVersion] (lines 427-429). *)
Definition getStoreVersion (s : ActivityStorage) : Z :=
  version (getFullStoreData (activityState s)).

(** [ActivityStorage.cleanup] (lines 435-443). *)
Definition storageCleanup `{JsRuntime} : Eff World unit :=
  let! s := getStorage in
  when (negb (useMockData (options s))) saveToDisk.

Definition newPlace : string := "/data/chronflow-activity-store.json".

(** The store file was never written; another store already sits in
    [/data]. *)
Definition occupiedWorld : World :=
  {| storage := storageWith oldPath false (storeWith 0 ∅);
     disk := {| nodes := {[ newPlace := File (render (storeToJS sampleStore));
                            "/data" := Dir ]};
                perms := ∅ |} |}.

(* ===================================================================== *)
(** ** AggregationService: the interval                                   *)
(* ===================================================================== *)

(** [[5, 10, 15].includes(interval)] *)
Definition validInterval (interval : Z) : Prop :=
  interval = 5%Z \/ interval = 10%Z \/ interval = 15%Z.

(** [getAggregationInterval] (lines 143-145). *)
Definition getAggregationInterval (svc : AggregationService) : Z :=
  generatorInterval svc.

(* ===================================================================== *)
(** ** IntervalScheduler.ts                                               *)
(* ===================================================================== *)

Module Scheduler.

(** [timerId] is the timeout that is pending, with the delay it was armed
    with; [None] when no timeout is pending. *)
Record t : Type := {
  intervalMillis : Z;
  timerId : option Z;
  isRunning : bool
}.

(** The constructor (lines 16-19). *)
Definition new (intervalMinutes : Z) : t :=
  {| intervalMillis := (intervalMinutes * 60 * 1000)%Z;
     timerId := None;
     isRunning := false |}.

(** [scheduleNext] (lines 77-91): arms the timeout. *)
Definition scheduleNext (sch : t) : t :=
  if negb (isRunning sch) then sch
  else {| intervalMillis := intervalMillis sch;
          timerId := Some (intervalMillis sch);
          isRunning := isRunning sch |}.

(** [start] (lines 24-33). *)
Definition start (sch : t) : t :=
  if isRunning sch then sch
  else scheduleNext {| intervalMillis := intervalMillis sch;
                       timerId := timerId sch;
                       isRunning := true |}.

(** [pause] (lines 38-50). *)
Definition pause (sch : t) : t :=
  if negb (isRunning sch) then sch
  else {| intervalMillis := intervalMillis sch;
          timerId := None;
          isRunning := false |}.

(** [setInterval] (lines 56-72). *)
Definition setInterval (intervalMinutes : Z) (sch : t) : t :=
  let wasRunning := isRunning sch in
  let sch1 := if wasRunning then pause sch else sch in
  let sch2 := {| intervalMillis := (intervalMinutes * 60 * 1000)%Z;
                 timerId := timerId sch1;
                 isRunning := isRunning sch1 |} in
  if wasRunning then start sch2 else sch2.

(** [cleanup] (lines 96-99). *)
Definition cleanup (sch : t) : t := pause sch.

(** The pending timeout expires: it is pending no more, and the function
    passed to [setTimeout] runs the callback when the scheduler is
    running. *)
Definition expire (sch : t) : bool * t :=
  match timerId sch with
  | Some _ => (isRunning sch,
               {| intervalMillis := intervalMillis sch;
                  timerId := None;
                  isRunning := isRunning sch |})
  | None => (false, sch)
  end.

(** A timeout whose callback leaves the scheduler alone. *)
Definition fire (sch : t) : t :=
  let '(runs, sch1) := expire sch in
  if runs then scheduleNext sch1 else sch1.

Inductive op : Type :=
| Start
| Pause
| SetInterval (intervalMinutes : Z)
| Timeout
| Cleanup.

Definition step (sch : t) (o : op) : t :=
  match o with
  | Start => start sch
  | Pause => pause sch
  | SetInterval m => setInterval m sch
  | Timeout => fire sch
  | Cleanup => cleanup sch
  end.

(** A timeout is pending exactly when the scheduler runs, and it was
    armed with the current interval. *)
Definition consistent (sch : t) : Prop :=
  timerId sch = if isRunning sch then Some (intervalMillis sch) else None.

End Scheduler.

(* ===================================================================== *)
(** ** ActivityTracker.ts                                                 *)
(* ===================================================================== *)

(** A call of one of the two callbacks, with its argument. *)
Inductive notification : Type :=
| DataUpdate (dateKey : string)
| TrackingStatusChange (tracking : bool).

(** [trackerMock] is the tracker's own [useMockData]; [onDataUpdate] and
    [onTrackingStatusChange] tell whether the callback is set. *)
Record ActivityTracker : Type := {
  isTracking : bool;
  currentDayKey : string;
  trackerMock : bool;
  scheduler : Scheduler.t;
  onDataUpdate : bool;
  onTrackingStatusChange : bool
}.

(** The tracker with the storage manager and the aggregation service it
    was given, the disk, and the calls made to the callbacks so far. *)
Record App : Type := {
  tracker : ActivityTracker;
  facade : ActivityFacade;
  appDisk : FileSystem;
  notified : list notification
}.

Definition withTracker (f : ActivityTracker -> ActivityTracker) (app : App) : App :=
  {| tracker := f (tracker app); facade := facade app;
     appDisk := appDisk app; notified := notified app |}.

Definition withScheduler (f : Scheduler.t -> Scheduler.t) (t : ActivityTracker)
    : ActivityTracker :=
  {| isTracking := isTracking t; currentDayKey := currentDayKey t;
     trackerMock := trackerMock t; scheduler := f (scheduler t);
     onDataUpdate := onDataUpdate t;
     onTrackingStatusChange := onTrackingStatusChange t |}.

Definition setTracking (b : bool) (t : ActivityTracker) : ActivityTracker :=
  {| isTracking := b; currentDayKey := currentDayKey t;
     trackerMock := trackerMock t; scheduler := scheduler t;
     onDataUpdate := onDataUpdate t;
     onTrackingStatusChange := onTrackingStatusChange t |}.

Definition setCurrentDayKey (k : string) (t : ActivityTracker) : ActivityTracker :=
  {| isTracking := isTracking t; currentDayKey := k;
     trackerMock := trackerMock t; scheduler := scheduler t;
     onDataUpdate := onDataUpdate t;
     onTrackingStatusChange := onTrackingStatusChange t |}.

Definition withStorage (f : ActivityStorage -> ActivityStorage) (app : App) : App :=
  {| tracker := tracker app;
     facade := {| activityStorage := f (activityStorage (facade app));
                  aggregationService := aggregationService (facade app) |};
     appDisk := appDisk app; notified := notified app |}.

Definition withService (f : AggregationService -> AggregationService) (app : App) : App :=
  {| tracker := tracker app;
     facade := {| activityStorage := activityStorage (facade app);
                  aggregationService := f (aggregationService (facade app)) |};
     appDisk := appDisk app; notified := notified app |}.

Definition notify (n : notification) (app : App) : App :=
  {| tracker := tracker app; facade := facade app;
     appDisk := appDisk app; notified := notified app ++ [n] |}.

(** [this.activityStorage.saveToDisk()] *)
Definition appSave `{JsRuntime} (app : App) : App :=
  let w' := snd (saveToDisk {| storage := activityStorage (facade app);
                               disk := appDisk app |}) in
  {| tracker := tracker app;
     facade := {| activityStorage := storage w';
                  aggregationService := aggregationService (facade app) |};
     appDisk := disk w'; notified := notified app |}.

(** The constructor (lines 59-75). *)
Definition newActivityTracker `{DateManager} (useMock : bool) (now : Z)
    (svc : AggregationService) : ActivityTracker :=
  {| isTracking := false;
     currentDayKey := getDateKey now;
     trackerMock := useMock;
     scheduler := Scheduler.new (getAggregationInterval svc);
     onDataUpdate := false;
     onTrackingStatusChange := false |}.

(** [setCallbacks] (lines 82-88): [true] for a function, [false] for null. *)
Definition setCallbacks (dataUpdateCallback trackingStatusCallback : bool)
    (app : App) : App :=
  withTracker (fun t =>
    {| isTracking := isTracking t; currentDayKey := currentDayKey t;
       trackerMock := trackerMock t; scheduler := scheduler t;
       onDataUpdate := dataUpdateCallback;
       onTrackingStatusChange := trackingStatusCallback |}) app.

(** [startTracking] (lines 93-110). *)
Definition startTracking `{DateManager} (now : Z) (app : App) : App :=
  if isTracking (tracker app) then app
  else
    let app1 := withTracker (setTracking true) app in
    let app2 := withTracker (setCurrentDayKey (getDateKey now)) app1 in
    let app3 := if negb (trackerMock (tracker app2))
                then withTracker (withScheduler Scheduler.start) app2
                else app2 in
    if onTrackingStatusChange (tracker app3)
    then notify (TrackingStatusChange (isTracking (tracker app3))) app3
    else app3.

(** [pauseTracking] (lines 115-132). *)
Definition pauseTracking `{JsRuntime} (app : App) : App :=
  if negb (isTracking (tracker app)) then app
  else
    let app1 := withTracker (setTracking false) app in
    let app2 := withTracker (withScheduler Scheduler.pause) app1 in
    let app3 := if negb (trackerMock (tracker app2)) then appSave app2 else app2 in
    if onTrackingStatusChange (tracker app3)
    then notify (TrackingStatusChange (isTracking (tracker app3))) app3
    else app3.

(** [handleDayChange] (lines 182-188). *)
Definition handleDayChange `{JsRuntime} (newDateKey : string) (app : App) : App :=
  let app1 := if negb (trackerMock (tracker app)) then appSave app else app in
  withTracker (setCurrentDayKey newDateKey) app1.

(** [ActivityTracker.addHeartbeat] (lines 138-154); [now] is [Date.now()]. *)
Definition trackerAddHeartbeat `{JsRuntime} `{DateManager} (heartbeatData : HeartbeatData)
    (now : Z) (app : App) : App :=
  if negb (isTracking (tracker app)) then app
  else
    let ts := now in
    let newDateKey := getDateKey ts in
    let app1 := if negb (String.eqb newDateKey (currentDayKey (tracker app)))
                then handleDayChange newDateKey app
                else app in
    withStorage (addHeartbeat ts heartbeatData (currentDayKey (tracker app1))) app1.

(** [notifyDataUpdate] (lines 194-198). *)
Definition notifyDataUpdate (dateKey : string) (app : App) : App :=
  if onDataUpdate (tracker app) then notify (DataUpdate dateKey) app else app.

(** [handleIntervalEnd] (lines 159-166). *)
Definition handleIntervalEnd `{JsRuntime} `{DateManager} `{TimelineGeneratorOps}
    (now : Z) (app : App) : App :=
  if isTracking (tracker app) && negb (trackerMock (tracker app)) then
    let app1 :=
      withService (fun svc =>
        snd (aggregateDay (currentDayKey (tracker app)) now
               (activityStorage (facade app)) svc)) app in
    let app2 := notifyDataUpdate (currentDayKey (tracker app1)) app1 in
    appSave app2
  else app.

(** The scheduler's timeout expires: [handleIntervalEnd] is the callback
    (lines 72-74), and the next timeout is armed after it. *)
Definition timerExpires `{JsRuntime} `{DateManager} `{TimelineGeneratorOps}
    (now : Z) (app : App) : App :=
  let '(runs, sch1) := Scheduler.expire (scheduler (tracker app)) in
  let app1 := withTracker (withScheduler (fun _ => sch1)) app in
  if runs
  then withTracker (withScheduler Scheduler.scheduleNext) (handleIntervalEnd now app1)
  else app1.

(** [getTrackingStatus] (lines 204-206). *)
Definition getTrackingStatus (app : App) : bool := isTracking (tracker app).

(** [ActivityTracker.setAggregationInterval] (lines 212-214). *)
Definition trackerSetAggregationInterval (interval : Z) (app : App) : App :=
  withTracker (withScheduler (Scheduler.setInterval interval)) app.

(** [ActivityTracker.cleanup] (lines 219-223). *)
Definition trackerCleanup (app : App) : App :=
  withTracker (withScheduler Scheduler.cleanup) app.

(** What can happen to a tracker. *)
Inductive trackerOp : Type :=
| OpSetCallbacks (dataUpdateCallback trackingStatusCallback : bool)
| OpStart (now : Z)
| OpPause
| OpHeartbeat (heartbeatData : HeartbeatData) (now : Z)
| OpTimeout (now : Z)
| OpSetInterval (interval : Z)
| OpCleanup.

Definition trackerStep `{JsRuntime} `{DateManager} `{TimelineGeneratorOps}
    (app : App) (o : trackerOp) : App :=
  match o with
  | OpSetCallbacks a b => setCallbacks a b app
  | OpStart now => startTracking now app
  | OpPause => pauseTracking app
  | OpHeartbeat d now => trackerAddHeartbeat d now app
  | OpTimeout now => timerExpires now app
  | OpSetInterval m => trackerSetAggregationInterval m app
  | OpCleanup => trackerCleanup app
  end.

Definition isCleanup (o : trackerOp) : bool :=
  match o with
  | OpCleanup => true
  | _ => false
  end.

(** The scheduler of a tracker is in step with the tracker: consistent,
    and running only while the tracker tracks outside mock mode. *)
Definition schedulerInStep (t : ActivityTracker) : Prop :=
  Scheduler.consistent (scheduler t)
  /\ (Scheduler.isRunning (scheduler t) = true ->
      isTracking t = true /\ trackerMock t = false).

(** An application whose tracker has just been constructed. *)
Definition newApp `{DateManager} (useMock : bool) (now : Z) (f : ActivityFacade)
    (fs : FileSystem) : App :=
  {| tracker := newActivityTracker useMock now (aggregationService f);
     facade := f; appDisk := fs; notified := [] |}.

(* ===================================================================== *)
(** ** HeartbeatManager.ts                                                *)
(* ===================================================================== *)

Module HeartbeatManager.

(** [heartbeatInterval] tells whether the one-second interval timer is
    set. *)
Record t : Type := {
  isRunning : bool;
  isInitialized : bool;
  heartbeatInterval : bool;
  shouldCheckHeartbeatTime : bool
}.

(** The constructor (lines 47-74). *)
Definition new : t :=
  {| isRunning := false; isInitialized := false;
     heartbeatInterval := false; shouldCheckHeartbeatTime := true |}.

(** [init] (lines 80-106) is asynchronous: it tests [isInitialized], then
    waits for the watchers, and sets the flag only when they have
    answered.  Other calls can run in between, so the two halves are
    separate steps.

    [initEnter]: the test of lines 81-84, true when the call goes on to
    wait for the watchers. *)
Definition initEnter (m : t) : bool := negb (isInitialized m).

(** [initSettle]: the wait is over (lines 98 and 103); [watchersOk] tells
    whether every watcher's [init] resolved. *)
Definition initSettle (watchersOk : bool) (m : t) : t :=
  {| isRunning := isRunning m; isInitialized := watchersOk;
     heartbeatInterval := heartbeatInterval m;
     shouldCheckHeartbeatTime := shouldCheckHeartbeatTime m |}.

(** A call of [init] during whose wait nothing else runs. *)
Definition init (watchersOk : bool) (m : t) : t :=
  if initEnter m then initSettle watchersOk m else m.

(** [start] (lines 111-128). *)
Definition start (m : t) : t :=
  if isRunning m then m
  else if negb (isInitialized m) then m
  else {| isRunning := true; isInitialized := isInitialized m;
          heartbeatInterval := true;
          shouldCheckHeartbeatTime := shouldCheckHeartbeatTime m |}.

(** [stop] (lines 133-145). *)
Definition stop (m : t) : t :=
  if negb (isRunning m) then m
  else {| isRunning := false; isInitialized := isInitialized m;
          heartbeatInterval := false;
          shouldCheckHeartbeatTime := shouldCheckHeartbeatTime m |}.

(** [checkHeartbeatTime] (lines 150-172), [seconds] being
    [new Date().getSeconds()]: whether [generateHeartbeat] is called, and
    the manager afterwards. *)
Definition checkHeartbeatTime (seconds : Z) (m : t) : bool * t :=
  if negb (isRunning m) || negb (shouldCheckHeartbeatTime m) then (false, m)
  else if (seconds =? 15)%Z || (seconds =? 45)%Z then
    (true, {| isRunning := isRunning m; isInitialized := isInitialized m;
              heartbeatInterval := heartbeatInterval m;
              shouldCheckHeartbeatTime := false |})
  else (false, m).

(** The timeout set by [checkHeartbeatTime] (lines 168-170). *)
Definition reenableCheck (m : t) : t :=
  {| isRunning := isRunning m; isInitialized := isInitialized m;
     heartbeatInterval := heartbeatInterval m;
     shouldCheckHeartbeatTime := true |}.

(** [cleanup] (lines 258-276). *)
Definition cleanup (m : t) : t :=
  let m1 := stop m in
  {| isRunning := isRunning m1; isInitialized := false;
     heartbeatInterval := heartbeatInterval m1;
     shouldCheckHeartbeatTime := shouldCheckHeartbeatTime m1 |}.

(** A JavaScript object as the list of its properties, in order. *)
Definition object : Type := list (string * JSValue).

(** [obj[k] = v] *)
Fixpoint setProp (k : string) (v : JSValue) (obj : object) : object :=
  match obj with
  | [] => [(k, v)]
  | (k', v') :: rest =>
      if String.eqb k k' then (k', v) :: rest else (k', v') :: setProp k v rest
  end.

(** [Object.assign(target, ...sources)] *)
Definition objectAssign (target : object) (sources : list object) : object :=
  foldl (fun tgt src => foldl (fun tgt' kv => setProp kv.1 kv.2 tgt') tgt src)
    target sources.

(** [Promise.all]: the results in order when every promise resolved
    ([None] stands for a rejected one). *)
Fixpoint promiseAll (outcomes : list (option object)) : option (list object) :=
  match outcomes with
  | [] => Some []
  | Some r :: rest =>
      match promiseAll rest with
      | Some rs => Some (r :: rs)
      | None => None
      end
  | None :: _ => None
  end.

Definition inactiveOnly : object := [("userActivity", JStr "inactive")].

(** [collectHeartbeatData] (lines 178-207); [outcomes] are the watchers'
    [getHeartbeatData()] promises, in the order of [this.watchers]. *)
Definition collectHeartbeatData (m : t) (outcomes : list (option object)) : object :=
  if negb (isInitialized m) then inactiveOnly
  else
    match promiseAll outcomes with
    | Some results =>
        let combinedData := objectAssign [] results in
        if negb (truthyProp (assoc "userActivity" combinedData))
        then setProp "userActivity" (JStr "inactive") combinedData
        else combinedData
    | None => inactiveOnly
    end.

(** [generateHeartbeat] (lines 232-253): the data handed to
    [activityFacade.addHeartbeat], if any. *)
Definition generateHeartbeat (m : t) (outcomes : list (option object)) : option object :=
  if negb (isRunning m) then None
  else
    let heartbeatData := collectHeartbeatData m outcomes in
    if (length heartbeatData =? 0)%nat then None
    else Some heartbeatData.

(** The value of [k] in the last object of [sources] that has it. *)
Definition lastDefined (k : string) (sources : list object) : option JSValue :=
  foldl (fun acc src => match assoc k src with
                        | Some v => Some v
                        | None => acc
                        end) None sources.

(** No property occurs twice. *)
Definition wellFormed (obj : object) : Prop := NoDup obj.*1.

(** The manager together with the calls of [init] that are waiting for
    the watchers. *)
Record process : Type := {
  manager : t;
  pendingInits : nat
}.

Definition boot : process := {| manager := new; pendingInits := 0 |}.

Definition onManager (f : t -> t) (p : process) : process :=
  {| manager := f (manager p); pendingInits := pendingInits p |}.

(** What can happen to a manager: the public methods, the ticks of the
    one-second timer, the timeout that re-enables the check, and the end
    of the wait of a call of [init]. *)
Inductive op : Type :=
| InitCall
| InitSettled (watchersOk : bool)
| Start
| Stop
| Check (seconds : Z)
| Reenable
| Cleanup.

Definition step (p : process) (o : op) : process :=
  match o with
  | InitCall =>
      if initEnter (manager p)
      then {| manager := manager p; pendingInits := S (pendingInits p) |}
      else p
  | InitSettled ok =>
      match pendingInits p with
      | O => p
      | S n => {| manager := initSettle ok (manager p); pendingInits := n |}
      end
  | Start => onManager start p
  | Stop => onManager stop p
  | Check seconds => onManager (fun m => snd (checkHeartbeatTime seconds m)) p
  | Reenable => onManager reenableCheck p
  | Cleanup => onManager cleanup p
  end.

(** The end of a wait with every watcher initialised. *)
Definition isInitSuccess (o : op) : bool :=
  match o with
  | InitSettled true => true
  | _ => false
  end.

(** No call of [init] goes on to wait while an earlier one is waiting. *)
Fixpoint initsSequential (p : process) (ops : list op) : bool :=
  match ops with
  | [] => true
  | o :: rest =>
      match o with
      | InitCall => negb (initEnter (manager p)) || (pendingInits p =? 0)%nat
      | _ => true
      end && initsSequential (step p o) rest
  end.

(** Two calls of [init] that overlap: the first succeeds, the manager is
    started, then the second fails. *)
Definition overlappingInits : list op :=
  [InitCall; InitCall; InitSettled true; Start; InitSettled false].

(** While the calls of [init] do not overlap: a running manager is
    initialised, and no call is waiting once the manager is initialised. *)
Definition initsInOrder (p : process) : Prop :=
  (isRunning (manager p) = true -> isInitialized (manager p) = true)
  /\ (isInitialized (manager p) = true -> pendingInits p = 0%nat)
  /\ (pendingInits p <= 1)%nat.

End HeartbeatManager.
(* ===================================================================== *)
(** * Properties                                                          *)
(* ===================================================================== *)

(** ** The may_be_inactive correction *)

Lemma convertLoop_run t fuel : forall i upd c,
  (length upd - i <= fuel)%nat ->
  convertLoop t fuel i upd c
  = (take i upd ++ convertRun t (drop i upd), c || runChanges t (drop i upd)).
Proof.
  induction fuel as [|fuel IH]; intros i upd c Hfuel.
  - assert (Hi : (length upd <= i)%nat) by lia.
    rewrite (drop_ge upd i Hi), (take_ge upd i Hi). simpl.
    by rewrite app_nil_r, orb_false_r.
  - simpl. destruct (upd !! i) as [hb|] eqn:Hlk.
    + rewrite (drop_S upd hb i Hlk). simpl.
      destruct (t <=? timestamp hb)%Z eqn:Hts.
      * rewrite orb_false_r. f_equal.
        rewrite <- (drop_S upd hb i Hlk). by rewrite take_drop.
      * assert (Hlt : (i < length upd)%nat) by (eapply lookup_lt_Some; eauto).
        destruct (hasActivity may_be_inactive hb) eqn:Hm.
        -- rewrite IH by (rewrite length_insert; lia).
           rewrite drop_insert_lt by lia.
           rewrite (take_S_r (<[i:=markInactive hb]> upd) i (markInactive hb))
             by (by apply list_lookup_insert_eq).
           rewrite take_insert_ge by lia.
           rewrite <- app_assoc. simpl. by rewrite orb_true_r.
        -- rewrite IH by lia.
           rewrite (take_S_r upd i hb Hlk), <- app_assoc. simpl. done.
    + assert (Hi : (length upd <= i)%nat) by (by apply lookup_ge_None).
      rewrite (drop_ge upd i Hi), (take_ge upd i Hi). simpl.
      by rewrite app_nil_r, orb_false_r.
Qed.

Lemma convertRun_same t l : runChanges t l = false -> convertRun t l = l.
Proof.
  induction l as [|hb l IH]; simpl; [done|].
  destruct (t <=? timestamp hb)%Z; [done|].
  intros [Hm Hr]%orb_false_elim. rewrite Hm. by rewrite IH.
Qed.

Lemma runChanges_existsb t l :
  runChanges t l = true -> existsb (hasActivity may_be_inactive) l = true.
Proof.
  induction l as [|hb l IH]; simpl; [done|].
  destruct (t <=? timestamp hb)%Z; [done|].
  intros [Hm|Hr]%orb_true_elim.
  - by rewrite Hm.
  - rewrite (IH Hr). apply orb_true_r.
Qed.

Lemma existsb_drop {A} (f : A -> bool) (l : list A) n :
  existsb f (drop n l) = true -> existsb f l = true.
Proof.
  rewrite <- (take_drop n l) at 2. rewrite existsb_app.
  intros ->. apply orb_true_r.
Qed.

Lemma findLastActive_lt hbs t n : (findLastActive hbs t n < Z.of_nat n)%Z.
Proof.
  induction n as [|n IH]; simpl; [lia|].
  destruct (hbs !! n) as [hb|]; [|lia].
  destruct (t <=? timestamp hb)%Z; [lia|].
  destruct (hasActivity active hb); lia.
Qed.

Lemma findLastActive_ge_m1 hbs t n : (-1 <= findLastActive hbs t n)%Z.
Proof.
  induction n as [|n IH]; simpl; [lia|].
  destruct (hbs !! n) as [hb|]; [|lia].
  destruct (t <=? timestamp hb)%Z; [lia|].
  destruct (hasActivity active hb); lia.
Qed.

(** The backward scan returns the largest index of an 'active' heartbeat
    before [t]: any such heartbeat sits at or before it. *)
Lemma findLastActive_max hbs t n a ha :
  (a < n)%nat -> hbs !! a = Some ha ->
  hasActivity active ha = true -> (timestamp ha < t)%Z ->
  (Z.of_nat a <= findLastActive hbs t n)%Z.
Proof.
  intros Han Ha Hact Hts. induction n as [|n IH]; [lia|]. simpl.
  destruct (decide (a = n)) as [->|Hne].
  - rewrite Ha. destruct (Z.leb_spec t (timestamp ha)); [lia|].
    rewrite Hact. lia.
  - assert (Hlt : (a < n)%nat) by lia. specialize (IH Hlt).
    destruct (hbs !! n) as [hb|]; [|done].
    destruct (t <=? timestamp hb)%Z; [done|].
    destruct (hasActivity active hb); [lia|done].
Qed.

(** When the scan finds an index, an 'active' heartbeat before [t] is there. *)
Lemma findLastActive_found hbs t n :
  (0 <= findLastActive hbs t n)%Z ->
  exists ha, hbs !! Z.to_nat (findLastActive hbs t n) = Some ha
             /\ hasActivity active ha = true /\ (timestamp ha < t)%Z.
Proof.
  induction n as [|n IH]; simpl; [lia|].
  destruct (hbs !! n) as [hb|] eqn:Hn; [|done].
  destruct (Z.leb_spec t (timestamp hb)); [done|].
  destruct (hasActivity active hb) eqn:Hact; [|done].
  intros _. rewrite Nat2Z.id. eauto.
Qed.

Lemma handleMayBeInactive_corrected hbs t d :
  handleMayBeInactive hbs t d
  = if bool_decide (userActivity d = inactive) then corrected hbs t else hbs.
Proof.
  unfold handleMayBeInactive, corrected.
  set (s := Z.to_nat (lastActiveIndex hbs t + 1)).
  destruct (bool_decide (userActivity d = inactive)); simpl.
  2: { by rewrite orb_true_r. }
  rewrite orb_false_r.
  destruct (Nat.eqb_spec (length hbs) 0) as [Hlen|Hlen].
  { apply length_zero_iff_nil in Hlen. subst hbs.
    by rewrite take_nil, drop_nil. }
  rewrite convertLoop_run by lia. simpl.
  destruct (runChanges t (drop s hbs)) eqn:Hch.
  - rewrite (existsb_drop _ _ _ (runChanges_existsb _ _ Hch)). done.
  - rewrite (convertRun_same _ _ Hch), take_drop.
    by destruct (existsb (hasActivity may_be_inactive) hbs).
Qed.

Lemma onlyTagChanged_refl hb : onlyTagChanged hb hb.
Proof. repeat split; auto. Qed.

Lemma onlyTagChanged_convertOne hb : onlyTagChanged hb (convertOne hb).
Proof.
  unfold convertOne, hasActivity. case_bool_decide as Hm.
  - repeat split; auto.
  - apply onlyTagChanged_refl.
Qed.

Lemma convertRun_Forall2 t l : Forall2 onlyTagChanged l (convertRun t l).
Proof.
  induction l as [|hb l IH]; simpl; [constructor|].
  destruct (t <=? timestamp hb)%Z.
  - apply Forall2_same_length_lookup_2; [done|].
    intros i x y Hx Hy. rewrite Hx in Hy. injection Hy as <-.
    apply onlyTagChanged_refl.
  - constructor; [apply (onlyTagChanged_convertOne hb)|done].
Qed.

Lemma corrected_Forall2 hbs t : Forall2 onlyTagChanged hbs (corrected hbs t).
Proof.
  unfold corrected. set (s := Z.to_nat _).
  rewrite <- (take_drop s hbs) at 1.
  apply Forall2_app; [|apply convertRun_Forall2].
  apply Forall2_same_length_lookup_2; [done|].
  intros i x y Hx Hy. rewrite Hx in Hy. injection Hy as <-.
  apply onlyTagChanged_refl.
Qed.

Lemma corrected_length hbs t : length (corrected hbs t) = length hbs.
Proof. symmetry. eapply Forall2_length, corrected_Forall2. Qed.

Lemma corrected_prefix hbs t j :
  (Z.of_nat j <= lastActiveIndex hbs t)%Z -> corrected hbs t !! j = hbs !! j.
Proof.
  intros Hj. unfold corrected. set (s := Z.to_nat _).
  assert (Hlt : (lastActiveIndex hbs t < Z.of_nat (length hbs))%Z)
    by apply findLastActive_lt.
  assert (Hjs : (j < s)%nat) by (subst s; lia).
  rewrite lookup_app_l by (rewrite length_take; subst s; lia).
  by apply lookup_take_lt.
Qed.

Lemma convertRun_lookup_in t l : forall k hb,
  l !! k = Some hb ->
  (forall i hi, (i <= k)%nat -> l !! i = Some hi -> (timestamp hi < t)%Z) ->
  convertRun t l !! k = Some (convertOne hb).
Proof.
  induction l as [|x l IH]; intros k hb Hk Hall; [done|]. simpl.
  assert (Hx : (timestamp x < t)%Z) by (apply (Hall 0%nat x); [lia|done]).
  destruct (Z.leb_spec t (timestamp x)); [lia|].
  destruct k as [|k]; simpl in *.
  - by injection Hk as ->.
  - apply IH; [done|]. intros i hi Hi Hlk. apply (Hall (S i) hi); [lia|done].
Qed.

Lemma corrected_reached hbs t j hb :
  reached hbs t j -> hbs !! j = Some hb ->
  corrected hbs t !! j = Some (convertOne hb).
Proof.
  intros [Hafter Hall] Hj. unfold corrected. set (s := Z.to_nat _).
  assert (Hm1 : (-1 <= lastActiveIndex hbs t)%Z) by apply findLastActive_ge_m1.
  assert (Hlt : (lastActiveIndex hbs t < Z.of_nat (length hbs))%Z)
    by apply findLastActive_lt.
  assert (Hs : (s <= j)%nat) by (subst s; lia).
  rewrite lookup_app_r by (rewrite length_take; lia).
  rewrite length_take, Nat.min_l by (subst s; lia).
  apply convertRun_lookup_in.
  - rewrite lookup_drop. by replace (s + (j - s))%nat with j by lia.
  - intros i hi Hi. rewrite lookup_drop. intros Hlk.
    apply (Hall (s + i)%nat hi); [subst s; lia|lia|done].
Qed.

Lemma findLastActive_agree l1 l2 t :
  Forall2 onlyTagChanged l1 l2 ->
  forall n, findLastActive l2 t n = findLastActive l1 t n.
Proof.
  intros HF n. induction n as [|n IH]; simpl; [done|].
  pose proof (proj1 (Forall2_lookup onlyTagChanged l1 l2) HF n) as Hlk.
  destruct Hlk as [x y Hxy|]; [|done].
  destruct Hxy as (Hts & _ & _ & Hcase). rewrite Hts, IH.
  destruct (t <=? timestamp x)%Z; [done|].
  assert (Hact : hasActivity active y = hasActivity active x).
  { destruct Hcase as [->|[Hm ->]]; [done|].
    unfold hasActivity. simpl. rewrite Hm.
    rewrite !bool_decide_eq_false_2; done. }
  by rewrite Hact.
Qed.

Lemma convertRun_idem t l : convertRun t (convertRun t l) = convertRun t l.
Proof.
  induction l as [|hb l IH]; simpl; [done|].
  destruct (t <=? timestamp hb)%Z eqn:Hts; simpl.
  - by rewrite Hts.
  - destruct (hasActivity may_be_inactive hb) eqn:Hm; simpl; rewrite Hts.
    + change (hasActivity may_be_inactive (markInactive hb)) with false.
      by rewrite IH.
    + by rewrite Hm, IH.
Qed.

Lemma corrected_idem hbs t : corrected (corrected hbs t) t = corrected hbs t.
Proof.
  assert (Hlai : lastActiveIndex (corrected hbs t) t = lastActiveIndex hbs t).
  { unfold lastActiveIndex. rewrite corrected_length.
    apply findLastActive_agree, corrected_Forall2. }
  unfold corrected at 1. rewrite Hlai. unfold corrected.
  set (s := Z.to_nat _).
  assert (Hm1 : (-1 <= lastActiveIndex hbs t)%Z) by apply findLastActive_ge_m1.
  assert (Hlt : (lastActiveIndex hbs t < Z.of_nat (length hbs))%Z)
    by apply findLastActive_lt.
  assert (Hlen : s = length (take s hbs))
    by (rewrite length_take; subst s; lia).
  rewrite (take_app_length' _ _ s Hlen), (drop_app_length' _ _ s Hlen).
  by rewrite convertRun_idem.
Qed.

Lemma chronological_reached hbs t j hb :
  chronological hbs -> hbs !! j = Some hb ->
  (lastActiveIndex hbs t < Z.of_nat j)%Z -> (timestamp hb < t)%Z ->
  reached hbs t j.
Proof.
  intros Hchr Hj Hafter Hts. split; [done|].
  intros k hk _ Hkj Hk. pose proof (Hchr k j hk hb Hkj Hk Hj). lia.
Qed.

Lemma dayHeartbeatsOf_addHeartbeat s k t d :
  dayHeartbeatsOf k (addHeartbeat t d k s)
  = (if bool_decide (userActivity d = inactive)
     then handleMayBeInactive (dayHeartbeatsOf k s) t d
     else dayHeartbeatsOf k s) ++ [{| timestamp := t; data := d |}].
Proof.
  unfold addHeartbeat, dayHeartbeatsOf at 1.
  destruct (bool_decide (userActivity d = inactive));
    unfold withActivityState, getHeartbeats, setHeartbeats, withDays; simpl;
    by rewrite lookup_insert_eq.
Qed.

(** C1 (as amended).  Adding an 'inactive' sample at [t] stores the
    corrected sequence followed by the new heartbeat.  Every
    'may_be_inactive' heartbeat that the forward pass reaches (after the
    last 'active' heartbeat before [t], with no heartbeat at or after [t]
    between that one and it) is rewritten to 'inactive'; when the stored
    timestamps are in non-decreasing order this is every 'may_be_inactive'
    heartbeat after the last 'active' one and before [t].  In particular
    [active@t0, may_be_inactive@t1, may_be_inactive@t2] with
    [t0 < t1 < t2 < t] becomes [active@t0, inactive@t1, inactive@t2]
    followed by the new heartbeat. *)
Theorem addHeartbeat_inactive_backfill
    (s : ActivityStorage) (k : string) (t : Z) (d : HeartbeatData) :
  userActivity d = inactive ->
  dayHeartbeatsOf k (addHeartbeat t d k s)
    = handleMayBeInactive (dayHeartbeatsOf k s) t d ++ [{| timestamp := t; data := d |}]
  /\ (forall j hb,
        dayHeartbeatsOf k s !! j = Some hb ->
        userActivity (data hb) = may_be_inactive ->
        reached (dayHeartbeatsOf k s) t j ->
        dayHeartbeatsOf k (addHeartbeat t d k s) !! j = Some (markInactive hb))
  /\ (chronological (dayHeartbeatsOf k s) -> rewritesEveryPending s k t d)
  /\ (forall h0 h1 h2,
        dayHeartbeatsOf k s = [h0; h1; h2] ->
        userActivity (data h0) = active ->
        userActivity (data h1) = may_be_inactive ->
        userActivity (data h2) = may_be_inactive ->
        (timestamp h0 < timestamp h1 < timestamp h2)%Z ->
        (timestamp h2 < t)%Z ->
        dayHeartbeatsOf k (addHeartbeat t d k s)
          = [h0; markInactive h1; markInactive h2; {| timestamp := t; data := d |}]).
Proof.
  intros Hd.
  assert (Hstored : dayHeartbeatsOf k (addHeartbeat t d k s)
    = corrected (dayHeartbeatsOf k s) t ++ [{| timestamp := t; data := d |}]).
  { rewrite dayHeartbeatsOf_addHeartbeat, handleMayBeInactive_corrected.
    by rewrite bool_decide_eq_true_2. }
  assert (Hgen : forall j hb,
    dayHeartbeatsOf k s !! j = Some hb ->
    userActivity (data hb) = may_be_inactive ->
    reached (dayHeartbeatsOf k s) t j ->
    dayHeartbeatsOf k (addHeartbeat t d k s) !! j = Some (markInactive hb)).
  { intros j hb Hj Hm Hr. rewrite Hstored.
    rewrite lookup_app_l
      by (rewrite corrected_length; eapply lookup_lt_Some; eauto).
    rewrite (corrected_reached _ _ _ _ Hr Hj).
    unfold convertOne, hasActivity. by rewrite bool_decide_eq_true_2. }
  split; [|split; [|split]].
  - rewrite Hstored, handleMayBeInactive_corrected.
    by rewrite bool_decide_eq_true_2.
  - exact Hgen.
  - intros Hchr j hb Hj Hm Hafter Hts.
    apply Hgen; [done|done|]. by eapply chronological_reached.
  - intros h0 h1 h2 Hhbs H0 H1 H2 [H01 H12] H2t.
    rewrite Hstored, Hhbs. unfold corrected, lastActiveIndex. simpl.
    assert (E2 : (t <=? timestamp h2)%Z = false) by (apply Z.leb_gt; lia).
    assert (E1 : (t <=? timestamp h1)%Z = false) by (apply Z.leb_gt; lia).
    assert (E0 : (t <=? timestamp h0)%Z = false) by (apply Z.leb_gt; lia).
    unfold hasActivity. rewrite E2, E1, E0, H0, H1, H2. simpl.
    rewrite E1, E2. unfold hasActivity. rewrite H1, H2. done.
Qed.

Lemma addHeartbeat_inactive_backfill_witness :
  dayHeartbeatsOf sampleDay
    (addHeartbeat 400 (sample inactive) sampleDay (sampleStorage pendingDay))
  = [hbAt 100 active; hbAt 200 inactive; hbAt 300 inactive; hbAt 400 inactive].
Proof.
  destruct (addHeartbeat_inactive_backfill (sampleStorage pendingDay) sampleDay
              400 (sample inactive) eq_refl) as (_ & _ & _ & H).
  apply (H (hbAt 100 active) (hbAt 200 may_be_inactive) (hbAt 300 may_be_inactive));
    [reflexivity|reflexivity|reflexivity|reflexivity|simpl; lia|simpl; lia].
Defined.

(** C1, counterexample.  With the stored timestamps out of order,
    [active@0, inactive@10, may_be_inactive@2] and an 'inactive' sample at
    5: the forward pass stops at the heartbeat of timestamp 10, so the
    'may_be_inactive' heartbeat of timestamp 2, which lies after the last
    'active' one and before 5, keeps its tag. *)
Lemma addHeartbeat_unordered_counterexample :
  ~ rewritesEveryPending (sampleStorage shuffledDay) sampleDay 5 (sample inactive).
Proof.
  intros H.
  specialize (H 2%nat (hbAt 2 may_be_inactive)).
  assert (Hbad : dayHeartbeatsOf sampleDay
            (addHeartbeat 5 (sample inactive) sampleDay (sampleStorage shuffledDay)) !! 2%nat
          = Some (hbAt 2 may_be_inactive)) by (vm_compute; reflexivity).
  rewrite Hbad in H.
  assert (Habs : Some (hbAt 2 may_be_inactive) = Some (markInactive (hbAt 2 may_be_inactive))).
  { apply H; [vm_compute; reflexivity|reflexivity|vm_compute; reflexivity|simpl; lia]. }
  discriminate Habs.
Qed.

(** C2.  Whatever the trigger sample, the correction keeps the length and
    the order of the sequence; position by position the result has the
    same timestamp, app-window data and other fields as the input, and
    differs from it only where a 'may_be_inactive' tag became 'inactive';
    every heartbeat at or before an 'active' heartbeat whose timestamp is
    before the trigger (so at or before the last such one) is unchanged. *)
Theorem handleMayBeInactive_frame (hbs : list Heartbeat) (t : Z) (d : HeartbeatData) :
  length (handleMayBeInactive hbs t d) = length hbs
  /\ Forall2 onlyTagChanged hbs (handleMayBeInactive hbs t d)
  /\ (forall a ha j,
        hbs !! a = Some ha ->
        userActivity (data ha) = active ->
        (timestamp ha < t)%Z ->
        (j <= a)%nat ->
        handleMayBeInactive hbs t d !! j = hbs !! j).
Proof.
  rewrite handleMayBeInactive_corrected.
  destruct (bool_decide (userActivity d = inactive)).
  - split; [apply corrected_length|]. split; [apply corrected_Forall2|].
    intros a ha j Ha Hact Hts Hja. apply corrected_prefix.
    assert (Hmax : (Z.of_nat a <= lastActiveIndex hbs t)%Z).
    { apply (findLastActive_max hbs t (length hbs) a ha); [|done| |done].
      - eapply lookup_lt_Some; eauto.
      - unfold hasActivity. by rewrite bool_decide_eq_true_2. }
    lia.
  - split; [done|]. split; [|done].
    apply Forall2_same_length_lookup_2; [done|].
    intros i x y Hx Hy. rewrite Hx in Hy. injection Hy as <-.
    apply onlyTagChanged_refl.
Qed.

Lemma handleMayBeInactive_frame_witness :
  handleMayBeInactive pendingDay 400 (sample inactive) !! 0%nat = Some (hbAt 100 active).
Proof.
  destruct (handleMayBeInactive_frame pendingDay 400 (sample inactive)) as (_ & _ & H).
  apply (H 0%nat (hbAt 100 active) 0%nat); [reflexivity|reflexivity|simpl; lia|lia].
Defined.

(** C3.  The correction is idempotent: a second pass with the same
    timestamp and data returns what the first pass returned. *)
Theorem handleMayBeInactive_idempotent (hbs : list Heartbeat) (t : Z) (d : HeartbeatData) :
  handleMayBeInactive (handleMayBeInactive hbs t d) t d = handleMayBeInactive hbs t d.
Proof.
  rewrite !handleMayBeInactive_corrected.
  destruct (bool_decide (userActivity d = inactive)); [|done].
  apply corrected_idem.
Qed.

(** ** The persistence adapter *)

Lemma loadData_returns `{JsRuntime} (a : StorageAdapter) (fs : FileSystem) :
  exists r fs', loadData a fs = (Ok r, fs').
Proof.
  unfold loadData. destruct (String.eqb (filePath a) ""); [by eexists _, _|].
  unfold tryCatch. match goal with |- context [match ?b fs with _ => _ end] =>
    destruct (b fs) as [[r|] fs'] end; by eexists _, _.
Qed.

(** What the two opening statements of [loadData] and [saveData] do:
    nothing when the directory is there, create it when that is allowed,
    throw otherwise. *)
Lemma ensure_dir_step {A : Type} (d : string) (k : Eff FileSystem A) (fs : FileSystem) :
  (let! dirExists := existsSync d in when (negb dirExists) (mkdirSync d) >> k) fs
  = match nodes fs !! d with
    | Some _ => k fs
    | None => if decide (accessOf d fs = ReadWrite)
              then k (withNodes <[d := Dir]> fs) else (Throw, fs)
    end.
Proof.
  unfold bind, existsSync, when, mkdirSync, ret.
  destruct (nodes fs !! d) as [n|] eqn:Hd; simpl.
  - done.
  - rewrite Hd. by destruct (decide (accessOf d fs = ReadWrite)).
Qed.

(** The checks of [loadData] on the parsed value accept exactly the
    values of the shape the contract describes. *)
Lemma accepts_validStoreShape (v : JSValue) :
  (negb (truthy v) || negb (typeofObject v) = false /\ validateStoreData v = true)
  <-> validStoreShape v.
Proof.
  unfold validStoreShape, validateStoreData. split.
  - intros [Hobj Hval].
    apply orb_false_elim in Hobj as [Ht Ho].
    apply negb_false_iff in Ht, Ho.
    destruct (negb (truthyProp (getProp v "version"))
              || negb (truthyProp (getProp v "days"))
              || negb (typeofObjectProp (getProp v "days"))) eqn:Hc; [done|].
    apply orb_false_elim in Hc as [Hc Hty].
    apply orb_false_elim in Hc as [Hver Hdays].
    apply negb_false_iff in Hver, Hdays, Hty.
    split; [by destruct v|]. split.
    + destruct (getProp v "version") as [ver|]; [|done]. by exists ver.
    + destruct (getProp v "days") as [ds|]; [|done]. exists ds.
      split; [done|]. by destruct ds.
  - intros (Hobj & (ver & Hver & Hvt) & (ds & Hds & Hdo)).
    split; [by destruct v|].
    rewrite Hver, Hds. simpl. rewrite Hvt. by destruct ds.
Qed.

(** The statements of [loadData] that follow the directory check. *)
Lemma loadData_after_dir `{JsRuntime} (p : string) (fs : FileSystem) :
  (let! fileExists := existsSync p in
   if negb fileExists then ret None
   else
     let! data := readFileSync p in
     let! parsedData := jsonParse data in
     if negb (truthy parsedData) || negb (typeofObject parsedData) then ret None
     else if negb (validateStoreData parsedData) then ret None
     else ret (Some parsedData)) fs
  = match nodes fs !! p with
    | None => (Ok None, fs)
    | Some Dir => (Throw, fs)
    | Some (File c) =>
        if decide (accessOf p fs = NoAccess) then (Throw, fs)
        else match JSON_parse c with
             | None => (Throw, fs)
             | Some v =>
                 if negb (truthy v) || negb (typeofObject v) then (Ok None, fs)
                 else if negb (validateStoreData v) then (Ok None, fs)
                 else (Ok (Some v), fs)
             end
    end.
Proof.
  unfold bind, existsSync, readFileSync, jsonParse, ret, throw.
  destruct (nodes fs !! p) as [[c|]|] eqn:Hp; simpl.
  - rewrite Hp.
    destruct (decide (accessOf p fs = NoAccess)); [done|].
    destruct (JSON_parse c) as [v|]; [|done].
    destruct (negb (truthy v) || negb (typeofObject v)); [done|].
    by destruct (negb (validateStoreData v)).
  - by rewrite Hp.
  - done.
Qed.

Lemma loadData_accepts_iff `{JsRuntime} (a : StorageAdapter) (fs : FileSystem) (v : JSValue) :
  (exists fs', loadData a fs = (Ok (Some v), fs'))
  <-> filePath a <> "" /\ dirReady (filePath a) fs
      /\ exists c, readableFile (filePath a) c fs
                   /\ JSON_parse c = Some v /\ validStoreShape v.
Proof.
  unfold loadData, dirReady, readableFile.
  destruct (String.eqb_spec (filePath a) "") as [He|Hne].
  { split; [intros [fs' Hl]; discriminate Hl|intros [? _]; done]. }
  set (p := filePath a) in *. set (d := path_dirname p).
  unfold tryCatch. cbv zeta. rewrite ensure_dir_step.
  assert (Hrest : forall fs1, perms fs1 = perms fs ->
    (exists fs', match
        (let! fileExists := existsSync p in
         if negb fileExists then ret None
         else
           let! data := readFileSync p in
           let! parsedData := jsonParse data in
           if negb (truthy parsedData) || negb (typeofObject parsedData) then ret None
           else if negb (validateStoreData parsedData) then ret None
           else ret (Some parsedData)) fs1
      with
      | (Ok r, s') => (Ok r, s')
      | (Throw, s') => ret None s'
      end = (Ok (Some v), fs'))
    <-> exists c, (nodes fs1 !! p = Some (File c) /\ accessOf p fs <> NoAccess)
                  /\ JSON_parse c = Some v /\ validStoreShape v).
  { intros fs1 Hperm. rewrite loadData_after_dir.
    assert (Hacc : accessOf p fs1 = accessOf p fs) by (unfold accessOf; by rewrite Hperm).
    rewrite Hacc.
    destruct (nodes fs1 !! p) as [[c|]|] eqn:Hp.
    - destruct (decide (accessOf p fs = NoAccess)) as [Hno|Hyes].
      { split; [intros [? Hl]; discriminate Hl|].
        intros (c' & [_ Hc'] & _); done. }
      destruct (JSON_parse c) as [w|] eqn:Hparse.
      2: { split; [intros [? Hl]; discriminate Hl|].
           intros (c' & [Hc' _] & Hpc & _). congruence. }
      pose proof (accepts_validStoreShape w) as Hshape.
      destruct (negb (truthy w) || negb (typeofObject w)) eqn:Hobj.
      { split; [intros [? Hl]; discriminate Hl|].
        intros (c' & [Hc' _] & Hpc & Hv).
        assert (w = v) as -> by congruence.
        apply Hshape in Hv as [Hv _]. done. }
      destruct (validateStoreData w) eqn:Hval; simpl.
      + split.
        * intros [fs' Hl]. injection Hl as -> _. exists c.
          split; [done|]. split; [done|]. by apply Hshape.
        * intros (c' & [Hc' _] & Hpc & Hv).
          assert (w = v) as -> by congruence. by eexists.
      + split; [intros [? Hl]; discriminate Hl|].
        intros (c' & [Hc' _] & Hpc & Hv).
        assert (w = v) as -> by congruence.
        apply Hshape in Hv as [_ Hv]. done.
    - split; [intros [? Hl]; discriminate Hl|].
      intros (c' & [Hc' _] & _); done.
    - split; [intros [? Hl]; discriminate Hl|].
      intros (c' & [Hc' _] & _); done. }
  destruct (nodes fs !! d) as [n|] eqn:Hd.
  - rewrite (Hrest fs eq_refl). split.
    + intros Hc. split; [done|]. split; [by left; eauto|done].
    + intros (_ & _ & Hc). done.
  - destruct (decide (accessOf d fs = ReadWrite)) as [Hrw|Hnrw].
    + rewrite (Hrest (withNodes <[d:=Dir]> fs) eq_refl). simpl.
      split.
      * intros (c & [Hc Hacc] & Hrest'). split; [done|]. split; [by right|].
        exists c. split; [|done]. split; [|done].
        destruct (decide (d = p)) as [Hdp|Hdp].
        -- rewrite Hdp, lookup_insert_eq in Hc. done.
        -- by rewrite lookup_insert_ne in Hc.
      * intros (_ & _ & c & [Hc Hacc] & Hrest'). exists c.
        split; [|done]. split; [|done].
        rewrite lookup_insert_ne; [done|]. intros Hdp. congruence.
    + split; [intros [? Hl]; discriminate Hl|].
      intros (_ & [[n Hn]|Hrw] & _); [congruence|done].
Qed.

(** C7.  [loadData] never throws.  It returns null when the file is
    missing, when it cannot be read, and when its content does not parse to
    a value of the valid shape; it returns a value exactly when the file
    can be read and parses to an object with a truthy [version] and a
    [days] that is an object (the path being set and its directory being
    there or creatable), and the value returned is the parsed one. *)
Theorem loadData_fails_soft `{JsRuntime} (a : StorageAdapter) (fs : FileSystem) :
  (exists r fs', loadData a fs = (Ok r, fs'))
  /\ (nodes fs !! filePath a = None -> exists fs', loadData a fs = (Ok None, fs'))
  /\ ((forall c, ~ readableFile (filePath a) c fs) ->
      exists fs', loadData a fs = (Ok None, fs'))
  /\ (forall c, readableFile (filePath a) c fs ->
      (forall v, JSON_parse c = Some v -> ~ validStoreShape v) ->
      exists fs', loadData a fs = (Ok None, fs'))
  /\ (forall v,
      (exists fs', loadData a fs = (Ok (Some v), fs'))
      <-> filePath a <> "" /\ dirReady (filePath a) fs
          /\ exists c, readableFile (filePath a) c fs
                       /\ JSON_parse c = Some v /\ validStoreShape v).
Proof.
  assert (Hnone : (forall v c, readableFile (filePath a) c fs ->
                     JSON_parse c = Some v -> ~ validStoreShape v) ->
                  exists fs', loadData a fs = (Ok None, fs')).
  { intros Hno. destruct (loadData_returns a fs) as (r & fs' & Hl).
    destruct r as [v|]; [|by eexists].
    assert (Hex : exists fs', loadData a fs = (Ok (Some v), fs')) by eauto.
    apply loadData_accepts_iff in Hex as (_ & _ & c & Hr & Hp & Hv).
    destruct (Hno v c Hr Hp Hv). }
  split; [apply loadData_returns|]. split; [|split; [|split]].
  - intros Hmiss. apply Hnone. intros v c [Hc _]. congruence.
  - intros Hunread. apply Hnone. intros v c Hc. destruct (Hunread c Hc).
  - intros c Hc Hbad. apply Hnone. intros v c' Hc' Hp.
    assert (c' = c) as -> by (destruct Hc, Hc'; congruence). by apply Hbad.
  - apply loadData_accepts_iff.
Qed.

Lemma loadData_fails_soft_witness :
  exists fs',
    @loadData (sampleRuntime [storeToJS sampleStore]) {| filePath := samplePath |}
      (diskWith samplePath (render (storeToJS sampleStore)))
    = (Ok (Some (storeToJS sampleStore)), fs').
Proof.
  destruct (@loadData_fails_soft (sampleRuntime [storeToJS sampleStore])
              {| filePath := samplePath |}
              (diskWith samplePath (render (storeToJS sampleStore))))
    as (_ & _ & _ & _ & H).
  apply H. split; [discriminate|]. split; [left; vm_compute; eauto|].
  exists (render (storeToJS sampleStore)).
  split; [split; [vm_compute; reflexivity|vm_compute; discriminate]|].
  split; [vm_compute; reflexivity|].
  split; [exact I|]. split.
  - exists (JNum 1). split; reflexivity.
  - eexists. split; [vm_compute; reflexivity|exact I].
Defined.

(** The run-time value of a typed store has the valid shape as soon as its
    version is not zero. *)
Lemma storeToJS_validStoreShape (sd : StoreData) :
  version sd <> 0%Z -> validStoreShape (storeToJS sd).
Proof.
  intros Hv. split; [exact I|]. split.
  - exists (JNum (version sd)). split; [reflexivity|]. simpl.
    apply negb_true_iff. by apply Z.eqb_neq.
  - eexists. split; [reflexivity|exact I].
Qed.

(** A successful [saveData] has written the text of the value at the
    path, in a directory that exists. *)
Lemma saveData_success `{JsRuntime} (a : StorageAdapter) (d : JSValue)
    (fs fs1 : FileSystem) :
  saveData a d fs = (Ok true, fs1) ->
  filePath a <> ""
  /\ exists fs0,
       nodes fs0 !! path_dirname (filePath a) = Some Dir
       /\ accessOf (filePath a) fs0 = ReadWrite
       /\ fs1 = withNodes <[filePath a := File (JSON_stringify d)]> fs0.
Proof.
  intros Hsave. unfold saveData in Hsave.
  destruct (String.eqb_spec (filePath a) "") as [He|Hne]; [discriminate Hsave|].
  split; [done|].
  set (p := filePath a) in *. set (d' := path_dirname p) in *.
  unfold tryCatch in Hsave. cbv zeta in Hsave. rewrite ensure_dir_step in Hsave.
  assert (Hwrite : forall fs0,
    match (writeFileSync p (JSON_stringify d) >> ret true) fs0 with
    | (Ok r, s') => (Ok r, s')
    | (Throw, s') => ret false s'
    end = (Ok true, fs1) ->
    nodes fs0 !! d' = Some Dir /\ accessOf p fs0 = ReadWrite
    /\ fs1 = withNodes <[p := File (JSON_stringify d)]> fs0).
  { intros fs0. unfold bind, writeFileSync, ret. fold d'.
    destruct (nodes fs0 !! p) as [[c|]|]; destruct (nodes fs0 !! d') as [[c'|]|];
      try discriminate;
      (destruct (decide (accessOf p fs0 = ReadWrite)); [|discriminate]);
      intros Heq; injection Heq as <-; done. }
  destruct (nodes fs !! d') as [n|].
  - exists fs. by apply Hwrite.
  - destruct (decide (accessOf d' fs = ReadWrite)); [|discriminate Hsave].
    eexists. by apply Hwrite.
Qed.

Lemma saveData_written `{JsRuntime} (a : StorageAdapter) (d : JSValue)
    (fs fs1 : FileSystem) :
  saveData a d fs = (Ok true, fs1) ->
  nodes fs1 !! filePath a = Some (File (JSON_stringify d)).
Proof.
  intros (_ & fs0 & _ & _ & ->)%saveData_success. simpl. apply lookup_insert_eq.
Qed.

Lemma writeFileSync_canWrite `{JsRuntime} (p c : string) (fs : FileSystem) :
  writeFileSync p c fs
  = if canWrite p fs then (Ok tt, withNodes <[p := File c]> fs) else (Throw, fs).
Proof.
  unfold writeFileSync, canWrite.
  destruct (nodes fs !! p) as [[c'|]|]; destruct (nodes fs !! path_dirname p) as [[c''|]|];
    try done; case_bool_decide; by destruct (decide (accessOf p fs = ReadWrite)).
Qed.

Lemma saveData_unfold `{JsRuntime} (a : StorageAdapter) (d : JSValue) (fs : FileSystem) :
  saveData a d fs
  = if String.eqb (filePath a) "" then (Ok false, fs)
    else
      let write := fun fs1 =>
        if canWrite (filePath a) fs1
        then (Ok true, withNodes <[filePath a := File (JSON_stringify d)]> fs1)
        else (Ok false, fs1) in
      match nodes fs !! path_dirname (filePath a) with
      | Some _ => write fs
      | None =>
          if decide (accessOf (path_dirname (filePath a)) fs = ReadWrite)
          then write (withDir (path_dirname (filePath a)) fs)
          else (Ok false, fs)
      end.
Proof.
  unfold saveData. destruct (String.eqb (filePath a) ""); [done|].
  unfold tryCatch. cbv zeta. rewrite ensure_dir_step.
  assert (Hw : forall fs1,
    match (writeFileSync (filePath a) (JSON_stringify d) >> ret true) fs1 with
    | (Ok r, s') => (Ok r, s')
    | (Throw, s') => ret false s'
    end = if canWrite (filePath a) fs1
          then (Ok true, withNodes <[filePath a := File (JSON_stringify d)]> fs1)
          else (Ok false, fs1)).
  { intros fs1. unfold bind. rewrite writeFileSync_canWrite.
    by destruct (canWrite (filePath a) fs1). }
  destruct (nodes fs !! path_dirname (filePath a)); [apply Hw|].
  destruct (decide _); [apply Hw|done].
Qed.

Lemma saveData_writable `{JsRuntime} (a : StorageAdapter) (d : JSValue)
    (fs : FileSystem) :
  storeWritable (filePath a) fs ->
  exists fs0,
    sameOrDirCreated (path_dirname (filePath a)) fs fs0
    /\ saveData a d fs
       = (Ok true, withNodes <[filePath a := File (JSON_stringify d)]> fs0).
Proof.
  intros (Hne & Hnd & Hacc & Hdir). rewrite saveData_unfold.
  destruct (String.eqb_spec (filePath a) "") as [He|_]; [done|]. cbv zeta.
  destruct Hdir as [Hd|(Hd & Hdacc & Hpd)]; rewrite Hd.
  - exists fs. split; [by left|].
    unfold canWrite. rewrite Hd.
    destruct (nodes fs !! filePath a) as [[c|]|]; try done;
      by rewrite bool_decide_eq_true_2.
  - destruct (decide (accessOf (path_dirname (filePath a)) fs = ReadWrite)); [|done].
    exists (withDir (path_dirname (filePath a)) fs). split; [by right|].
    assert (Hw : canWrite (filePath a) (withDir (path_dirname (filePath a)) fs) = true).
    { unfold canWrite, withDir. simpl.
      rewrite lookup_insert_eq. rewrite lookup_insert_ne by done.
      destruct (nodes fs !! filePath a) as [[c|]|]; try done;
        by apply bool_decide_eq_true_2. }
    by rewrite Hw.
Qed.

(** What a save that the disk lets through leaves behind: the text in the
    store file, every path but the file and its directory as before. *)
Lemma saveData_persists `{JsRuntime} (a : StorageAdapter) (d : JSValue)
    (fs : FileSystem) :
  storeWritable (filePath a) fs ->
  fst (saveData a d fs) = Ok true
  /\ nodes (snd (saveData a d fs)) !! filePath a = Some (File (JSON_stringify d))
  /\ (forall q, q <> filePath a -> q <> path_dirname (filePath a) ->
        nodes (snd (saveData a d fs)) !! q = nodes fs !! q).
Proof.
  intros Hw. destruct (saveData_writable a d fs Hw) as (fs0 & Hfs0 & ->). simpl.
  split; [done|]. split; [apply lookup_insert_eq|].
  intros q Hq Hqd. rewrite lookup_insert_ne by done.
  destruct Hfs0 as [->|(_ & _ & ->)]; [done|].
  unfold withDir. simpl. by rewrite lookup_insert_ne.
Qed.

(** C8.  A value of the valid shape that survives [JSON.stringify]
    followed by [JSON.parse], once saved with success, is what [loadData]
    on the same path returns: the same value, hence the same day keys,
    heartbeats, interval and timestamps. *)
Theorem save_load_roundtrip `{JsRuntime} (a : StorageAdapter) (d : JSValue)
    (fs fs1 : FileSystem) :
  validStoreShape d ->
  JSON_parse (JSON_stringify d) = Some d ->
  saveData a d fs = (Ok true, fs1) ->
  exists fs2, loadData a fs1 = (Ok (Some d), fs2).
Proof.
  intros Hshape Hjson Hsave. apply loadData_accepts_iff.
  apply saveData_success in Hsave as (Hne & fs0 & Hdir & Hacc & ->).
  split; [done|].
  set (p := filePath a) in *. set (d' := path_dirname p) in *.
  unfold dirReady, readableFile. fold d'. simpl. split.
  - left. destruct (decide (p = d')) as [<-|Hpd].
    + rewrite lookup_insert_eq. eauto.
    + rewrite lookup_insert_ne by done. eauto.
  - exists (JSON_stringify d). split; [|done].
    split; [by rewrite lookup_insert_eq|].
    unfold accessOf in *. simpl. rewrite Hacc. discriminate.
Qed.

Lemma save_load_roundtrip_witness :
  exists fs2,
    @loadData (sampleRuntime [storeToJS sampleStore]) {| filePath := samplePath |}
      (snd (@saveData (sampleRuntime [storeToJS sampleStore])
              {| filePath := samplePath |} (storeToJS sampleStore) emptyDisk))
    = (Ok (Some (storeToJS sampleStore)), fs2).
Proof.
  apply (@save_load_roundtrip (sampleRuntime [storeToJS sampleStore])
           {| filePath := samplePath |} (storeToJS sampleStore) emptyDisk).
  - apply storeToJS_validStoreShape. discriminate.
  - vm_compute. reflexivity.
  - vm_compute. reflexivity.
Defined.

(** The same for a typed store: with a version other than zero, what is
    loaded after a successful save is the run-time value of the store. *)
Lemma save_load_roundtrip_store `{JsRuntime} (a : StorageAdapter) (sd : StoreData)
    (fs fs1 : FileSystem) :
  version sd <> 0%Z ->
  JSON_parse (JSON_stringify (storeToJS sd)) = Some (storeToJS sd) ->
  saveData a (storeToJS sd) fs = (Ok true, fs1) ->
  exists fs2, loadData a fs1 = (Ok (Some (storeToJS sd)), fs2).
Proof.
  intros Hv Hjson Hsave.
  apply loadData_accepts_iff.
  pose proof (storeToJS_validStoreShape sd Hv) as Hshape.
  apply saveData_success in Hsave as (Hne & fs0 & Hdir & Hacc & ->).
  split; [done|]. unfold dirReady, readableFile. simpl. split.
  - left. destruct (decide (filePath a = path_dirname (filePath a))) as [<-|Hpd].
    + rewrite lookup_insert_eq. eauto.
    + rewrite lookup_insert_ne by done. eauto.
  - exists (JSON_stringify (storeToJS sd)). split; [|done].
    split; [by rewrite lookup_insert_eq|].
    unfold accessOf in *. simpl. rewrite Hacc. discriminate.
Qed.

(** ** The storage manager *)

Lemma orElse_cases (key : option string) (fallback : string) :
  ((key = None \/ key = Some "") /\ orElse key fallback = fallback)
  \/ (exists k, key = Some k /\ k <> "" /\ orElse key fallback = k).
Proof.
  destruct key as [k|]; simpl; [|by left; split; [left|]].
  destruct (String.eqb_spec k "") as [->|Hne].
  - left. split; [by right|done].
  - right. by exists k.
Qed.

(** C5 (as amended).  [getDayData] works on the key passed, or on today's
    key when none, or an empty one, is passed.  It returns null when that
    key does not match YYYY-MM-DD; for a well-formed key other than
    today's with no stored heartbeats it returns null; for today's key with
    no stored heartbeats it returns a day with an empty heartbeat list;
    otherwise it returns the stored heartbeats. *)
Theorem getDayData_contract `{DateManager} (dateKey : option string) (now : Z)
    (s : ActivityStorage) :
  (matchesDateKey (orElse dateKey (getDateKey now)) = false ->
     getDayData dateKey now s = None)
  /\ (matchesDateKey (orElse dateKey (getDateKey now)) = true ->
      orElse dateKey (getDateKey now) <> getDateKey now ->
      dayHeartbeatsOf (orElse dateKey (getDateKey now)) s = [] ->
      getDayData dateKey now s = None)
  /\ (matchesDateKey (getDateKey now) = true ->
      orElse dateKey (getDateKey now) = getDateKey now ->
      dayHeartbeatsOf (getDateKey now) s = [] ->
      getDayData dateKey now s = Some {| heartbeats := []; aggregated := None |})
  /\ (matchesDateKey (orElse dateKey (getDateKey now)) = true ->
      dayHeartbeatsOf (orElse dateKey (getDateKey now)) s <> [] ->
      getDayData dateKey now s
      = Some {| heartbeats := dayHeartbeatsOf (orElse dateKey (getDateKey now)) s;
                aggregated := None |})
  /\ (dateKey = None \/ dateKey = Some "" ->
      orElse dateKey (getDateKey now) = getDateKey now)
  /\ (forall k, dateKey = Some k -> k <> "" ->
      orElse dateKey (getDateKey now) = k).
Proof.
  unfold getDayData, dayHeartbeatsOf.
  set (target := orElse dateKey (getDateKey now)).
  split; [by intros ->|]. split; [|split; [|split; [|split]]].
  - intros -> Hne Hhb. simpl.
    destruct (String.eqb_spec target (getDateKey now)) as [He|_]; [done|].
    destruct (getHeartbeats target (activityState s)) as [hbs|]; [|done].
    simpl in Hhb. by rewrite Hhb.
  - intros Hm Heq Hhb. rewrite Heq, Hm. simpl. rewrite String.eqb_refl.
    destruct (getHeartbeats (getDateKey now) (activityState s)) as [hbs|]; [|done].
    simpl in Hhb. by rewrite Hhb.
  - intros -> Hhb. simpl.
    destruct (getHeartbeats target (activityState s)) as [hbs|]; [|done].
    simpl in *. destruct hbs; [done|]. done.
  - intros Hk. destruct (orElse_cases dateKey (getDateKey now)) as [[_ Ho]|(k & Hk' & Hne & _)].
    + done.
    + destruct Hk as [Hk|Hk]; rewrite Hk in Hk'; [done|]. by injection Hk' as <-.
  - intros k -> Hne. subst target. simpl. by destruct (String.eqb_spec k "").
Qed.

Lemma getDayData_contract_witness :
  @getDayData (pinnedDate sampleDay) (Some "") 0 (sampleStorage [])
  = Some {| heartbeats := []; aggregated := None |}.
Proof.
  destruct (@getDayData_contract (pinnedDate sampleDay) (Some "") 0 (sampleStorage []))
    as (_ & _ & H & _).
  apply H; reflexivity.
Defined.

(** C5, counterexample.  The empty string does not match YYYY-MM-DD, yet
    [getDayData("")] is not null: the empty key is replaced by today's. *)
Lemma getDayData_empty_key_counterexample :
  ~ @nullOnEveryMalformedKey (pinnedDate sampleDay) 0 (sampleStorage []).
Proof.
  intros H. specialize (H "" eq_refl). discriminate H.
Qed.

Lemma saveData_returns `{JsRuntime} (a : StorageAdapter) (d : JSValue) (fs : FileSystem) :
  exists b fs', saveData a d fs = (Ok b, fs').
Proof.
  unfold saveData. destruct (String.eqb (filePath a) ""); [by eexists _, _|].
  unfold tryCatch. match goal with |- context [match ?b fs with _ => _ end] =>
    destruct (b fs) as [[r|] fs'] end; by eexists _, _.
Qed.

(** Outside mock mode [saveToDisk] hands the whole store to the adapter
    and never throws, whatever the adapter answers. *)
Lemma saveToDisk_run `{JsRuntime} (w : World) :
  useMockData (options (storage w)) = false ->
  saveToDisk w
  = (Ok tt, {| storage := storage w;
               disk := snd (saveData (persistence (storage w))
                              (storeToJS (getFullStoreData (activityState (storage w))))
                              (disk w)) |}).
Proof.
  intros Hmock. unfold saveToDisk, bind, getStorage. rewrite Hmock.
  unfold tryCatch, onDisk, ret.
  destruct (saveData_returns (persistence (storage w))
              (storeToJS (getFullStoreData (activityState (storage w)))) (disk w))
    as (b & fs' & ->). done.
Qed.

Lemma deleteDays_lookup (l : list string) (st : ActivityState) (k : string) :
  days (storeData (deleteDays l st)) !! k
  = if decide (k ∈ l) then None else days (storeData st) !! k.
Proof.
  unfold deleteDays. revert st. induction l as [|x l IH]; intros st.
  - destruct (decide (k ∈ [])) as [Hin|_]; [|done].
    by apply not_elem_of_nil in Hin.
  - cbn [foldl]. rewrite IH.
    destruct (decide (k ∈ l)) as [Hin|Hnin];
      destruct (decide (k ∈ x :: l)) as [Hin'|Hnin']; try done.
    + destruct Hnin'. by right.
    + apply elem_of_cons in Hin' as [->|Hin']; [|done].
      apply lookup_delete_eq.
    + simpl. apply lookup_delete_ne. intros ->. apply Hnin'. left.
Qed.

Lemma deleteDays_metadata (l : list string) (st : ActivityState) :
  version (storeData (deleteDays l st)) = version (storeData st)
  /\ lastCleanupTime (storeData (deleteDays l st)) = lastCleanupTime (storeData st)
  /\ startTime (storeData (deleteDays l st)) = startTime (storeData st)
  /\ aggregationInterval (storeData (deleteDays l st)) = aggregationInterval (storeData st).
Proof.
  unfold deleteDays. revert st. induction l as [|x l IH]; intros st; simpl; [done|].
  destruct (IH (deleteDay x st)) as (-> & -> & -> & ->). done.
Qed.

Lemma getDatesOlderThan_elem `{JsRuntime} (threshold : Z) (st : ActivityState) (k : string) :
  k ∈ getDatesOlderThan threshold st
  <-> olderThan threshold k = true /\ is_Some (days (storeData st) !! k).
Proof.
  unfold getDatesOlderThan, stateAvailableDates.
  rewrite list_elem_of_In, filter_In, <- list_elem_of_In.
  rewrite list_elem_of_fmap. split.
  - intros [([k' d] & -> & Hin%elem_of_map_to_list) Ho]. simpl in *. eauto.
  - intros [Ho [d Hd]]. split; [|done]. exists (k, d). split; [done|].
    by apply elem_of_map_to_list.
Qed.

Lemma cleanupOldData_skipped `{JsRuntime} (now : Z) (w : World) :
  useMockData (options (storage w)) = true
  \/ (now - oneDayMs < getLastCleanupTime (activityState (storage w)))%Z ->
  cleanupOldData now w = (Ok tt, w).
Proof.
  intros Hskip. unfold cleanupOldData, bind, getStorage.
  destruct (useMockData (options (storage w))); [done|].
  destruct Hskip as [Hm|Hlt]; [done|].
  by rewrite (proj2 (Z.ltb_lt _ _) Hlt).
Qed.

Lemma cleanupOldData_runs `{JsRuntime} (now : Z) (w : World) :
  useMockData (options (storage w)) = false ->
  (getLastCleanupTime (activityState (storage w)) <= now - oneDayMs)%Z ->
  cleanupOldData now w
  = (Ok tt,
     {| storage := purged now (storage w);
        disk := snd (saveData (persistence (storage w))
                       (storeToJS (storeData (activityState (purged now (storage w)))))
                       (disk w)) |}).
Proof.
  intros Hmock Hle. unfold cleanupOldData, bind at 1, getStorage. rewrite Hmock.
  rewrite (proj2 (Z.ltb_ge _ _) Hle). unfold purged, withActivityState.
  cbv beta zeta.
  set (l := getDatesOlderThan (now - 30 * oneDayMs)%Z (activityState (storage w))).
  destruct (Nat.eqb_spec (length l) 0) as [Hnil|Hcons].
  - apply length_zero_iff_nil in Hnil. rewrite Hnil.
    unfold bind, onStorage. rewrite saveToDisk_run by done. done.
  - unfold bind, onStorage. rewrite saveToDisk_run by done. done.
Qed.

(** C6.  In mock mode, or while [lastCleanupTime] is within the last 24
    hours, [cleanupOldData] changes nothing.  Otherwise the scan runs: it
    deletes exactly the days whose UTC-midnight timestamp is before
    [now] minus 30 days and records [now] as [lastCleanupTime], also when
    nothing was deleted; and it persists: when the disk lets the store
    file be written, the file afterwards holds the text of the purged
    store, every path but the file and its directory being as before.  A
    further call less than 24 hours after the run changes nothing. *)
Theorem cleanupOldData_contract `{JsRuntime} (now : Z) (w : World) :
  (useMockData (options (storage w)) = true
   \/ (now - oneDayMs < getLastCleanupTime (activityState (storage w)))%Z ->
   cleanupOldData now w = (Ok tt, w))
  /\ (useMockData (options (storage w)) = false ->
      (getLastCleanupTime (activityState (storage w)) <= now - oneDayMs)%Z ->
      exists fs',
        cleanupOldData now w
        = (Ok tt, {| storage := purged now (storage w); disk := fs' |})
        /\ getLastCleanupTime (activityState (purged now (storage w))) = now
        /\ (forall k,
              days (storeData (activityState (purged now (storage w)))) !! k
              = if olderThan (now - 30 * oneDayMs)%Z k then None
                else days (storeData (activityState (storage w))) !! k)
        /\ (forall now2, (now2 - oneDayMs < now)%Z ->
              cleanupOldData now2 (snd (cleanupOldData now w))
              = (Ok tt, snd (cleanupOldData now w)))
        /\ (storeWritable (filePath (persistence (storage w))) (disk w) ->
            nodes fs' !! filePath (persistence (storage w))
            = Some (File (JSON_stringify
                            (storeToJS (storeData (activityState
                                                     (purged now (storage w)))))))
            /\ (forall q, q <> filePath (persistence (storage w)) ->
                          q <> path_dirname (filePath (persistence (storage w))) ->
                          nodes fs' !! q = nodes (disk w) !! q))).
Proof.
  split; [apply cleanupOldData_skipped|].
  intros Hmock Hle. rewrite (cleanupOldData_runs now w Hmock Hle).
  eexists. split; [reflexivity|]. split; [done|].
  split; [|split].
  - intros k. unfold purged. simpl. rewrite deleteDays_lookup.
    destruct (decide (k ∈ _)) as [Hin|Hnin].
    + apply getDatesOlderThan_elem in Hin as [-> _]. done.
    + destruct (olderThan (now - 30 * oneDayMs)%Z k) eqn:Hold; [|done].
      destruct (days (storeData (activityState (storage w))) !! k) as [d|] eqn:Hk;
        [|done].
      destruct Hnin. apply getDatesOlderThan_elem. eauto.
  - intros now2 Hnow2. apply cleanupOldData_skipped. right. done.
  - intros Hw.
    destruct (saveData_persists (persistence (storage w))
                (storeToJS (storeData (activityState (purged now (storage w)))))
                (disk w) Hw) as (_ & Hfile & Hframe).
    by split.
Qed.

Lemma cleanupOldData_contract_witness :
  nodes (disk (snd (@cleanupOldData (sampleRuntime []) sampleNow agedWorld)))
    !! samplePath
  = Some (File (render (storeToJS (storeData (activityState
                  (@purged (sampleRuntime []) sampleNow (storage agedWorld)))))))
  /\ days (storeData (activityState (storage (snd
       (@cleanupOldData (sampleRuntime []) sampleNow agedWorld))))) !! oldDay = None
  /\ getLastCleanupTime (activityState (storage (snd
       (@cleanupOldData (sampleRuntime []) sampleNow agedWorld)))) = sampleNow.
Proof.
  destruct (@cleanupOldData_contract (sampleRuntime []) sampleNow agedWorld)
    as [_ H].
  destruct H as (fs' & Hrun & Htime & Hdays & _ & Hdisk);
    [reflexivity|vm_compute; discriminate|].
  rewrite Hrun. simpl. split; [|split; [|exact Htime]].
  - apply Hdisk. unfold storeWritable.
    split; [vm_compute; discriminate|]. split; [vm_compute; discriminate|].
    split; [vm_compute; reflexivity|]. right.
    split; [vm_compute; reflexivity|].
    split; [vm_compute; reflexivity|vm_compute; discriminate].
  - rewrite Hdays. reflexivity.
Defined.

(** Case analysis on the outcome of each file operation of a computation,
    in the order in which they run. *)
Ltac fs_cases :=
  repeat (simpl;
          match goal with
          | |- context [mkdirSync ?p ?fs] => destruct (mkdirSync p fs) as [[[]|] ?]
          | |- context [readFileSync ?p ?fs] => destruct (readFileSync p fs) as [[?|] ?]
          | |- context [writeFileSync ?p ?c ?fs] =>
              destruct (writeFileSync p c fs) as [[[]|] ?]
          | |- context [unlinkSync ?p ?fs] => destruct (unlinkSync p fs) as [[[]|] ?]
          | |- context [if ?b then _ else _] => destruct b
          end);
  try done.

Lemma copy_block_onDisk `{JsRuntime} (old new : string) (s : ActivityStorage)
    (fs : FileSystem) :
  (let! dirExists := onDisk (existsSync (path_dirname new)) in
   when (negb dirExists) (onDisk (mkdirSync (path_dirname new))) >>
   let! data := onDisk (readFileSync old) in
   onDisk (writeFileSync new data) >>
   when (negb (String.eqb old new)) (onDisk (unlinkSync old)))
    {| storage := s; disk := fs |}
  = let '(o, fs1) := copyStoreFile old new fs in (o, {| storage := s; disk := fs1 |}).
Proof.
  unfold copyStoreFile, bind, onDisk, when, ret, existsSync. fs_cases.
Qed.

Lemma updateStoragePath_unfold `{JsRuntime} `{StoreCast} (dir : option string) (w : World) :
  updateStoragePath dir w
  = if mustMove dir w
    then match copyStoreFile (dataFilePath (storage w)) (newFilePathFor dir) (disk w) with
         | (Ok _, fs1) => finishRelocation dir (storage w) fs1
         | (Throw, fs1) => (Ok false, {| storage := storage w; disk := fs1 |})
         end
    else finishRelocation dir (storage w) (disk w).
Proof.
  destruct w as [s fs]. unfold updateStoragePath, mustMove, finishRelocation.
  unfold tryCatch, bind at 1, getStorage. cbv zeta. simpl.
  set (new := newFilePathFor dir). set (old := dataFilePath s).
  unfold bind at 1, onDisk at 1, existsSync at 1. simpl.
  unfold bind at 1, onDisk at 1, existsSync at 1. simpl.
  assert (Htail : forall fs1,
    (onStorage (repoint dir new) >>
     let! data := onDisk (loadData {| filePath := new |}) in
     match data with
     | Some v => onStorage (withActivityState (setData (asStoreData v)))
     | None => ret tt
     end >> ret true) {| storage := s; disk := fs1 |}
    = let '(o0, fs') := loadData {| filePath := new |} fs1 in
      match o0 with
      | Ok (Some v) =>
          (Ok true,
           {| storage := withActivityState (setData (asStoreData v)) (repoint dir new s);
              disk := fs' |})
      | _ => (Ok true, {| storage := repoint dir new s; disk := fs' |})
      end).
  { intros fs1. unfold bind at 1, onStorage at 1. simpl.
    unfold bind at 1, onDisk. simpl.
    destruct (loadData_returns {| filePath := new |} fs1) as (r & fs' & ->).
    by destruct r. }
  destruct (bool_decide (is_Some (nodes fs !! old))
            && negb (bool_decide (is_Some (nodes fs !! new)))) eqn:Hmove.
  - unfold bind at 1, when at 1. rewrite copy_block_onDisk.
    destruct (copyStoreFile old new fs) as [[[]|] fs1]; [|done].
    rewrite Htail.
    destruct (loadData {| filePath := new |} fs1) as [[[v|]|] fs']; done.
  - unfold bind at 1, when at 1, ret at 1. rewrite Htail.
    destruct (loadData {| filePath := new |} fs) as [[[v|]|] fs']; done.
Qed.

Lemma move_steps `{JsRuntime} (old new : string) (fs0 fs' : FileSystem) :
  old <> new ->
  (let! data := readFileSync old in
   writeFileSync new data >>
   when (negb (String.eqb old new)) (unlinkSync old)) fs0 = (Ok tt, fs') ->
  exists c, nodes fs0 !! old = Some (File c)
            /\ nodes fs' !! new = Some (File c) /\ nodes fs' !! old = None.
Proof.
  intros Hne. unfold bind, readFileSync.
  destruct (nodes fs0 !! old) as [[c|]|] eqn:Hold; try discriminate.
  destruct (decide (accessOf old fs0 = NoAccess)); [discriminate|].
  unfold writeFileSync.
  assert (Hwritten : forall fs1, fs1 = withNodes <[new := File c]> fs0 ->
    when (negb (String.eqb old new)) (unlinkSync old) fs1 = (Ok tt, fs') ->
    exists c0, Some (File c) = Some (File c0)
               /\ nodes fs' !! new = Some (File c0) /\ nodes fs' !! old = None).
  { intros fs1 -> . destruct (String.eqb_spec old new) as [|_]; [done|]. simpl.
    unfold unlinkSync. simpl. rewrite lookup_insert_ne by done. rewrite Hold.
    destruct (decide _); [|discriminate]. intros Heq. injection Heq as <-.
    exists c. simpl. split; [done|].
    rewrite lookup_delete_ne by done. rewrite lookup_insert_eq, lookup_delete_eq. done. }
  destruct (nodes fs0 !! new) as [[c'|]|]; destruct (nodes fs0 !! path_dirname new) as [[c''|]|];
    try discriminate;
    (destruct (decide (accessOf new fs0 = ReadWrite)); [|discriminate]);
    by apply Hwritten.
Qed.

Lemma copyStoreFile_done `{JsRuntime} (old new : string) (fs fs' : FileSystem) :
  is_Some (nodes fs !! old) -> nodes fs !! new = None ->
  copyStoreFile old new fs = (Ok tt, fs') ->
  exists c, nodes fs !! old = Some (File c)
            /\ nodes fs' !! new = Some (File c) /\ nodes fs' !! old = None.
Proof.
  intros [n Hold] Hnew. assert (Hne : old <> new) by congruence.
  unfold copyStoreFile. cbv zeta. rewrite ensure_dir_step.
  destruct (nodes fs !! path_dirname new) as [d|] eqn:Hd.
  - by apply move_steps.
  - destruct (decide (accessOf (path_dirname new) fs = ReadWrite)); [|discriminate].
    intros Hrun. apply move_steps in Hrun as (c & Hc & Hrest); [|done].
    exists c. split; [|done]. simpl in Hc.
    rewrite lookup_insert_ne in Hc; [done|]. congruence.
Qed.

Lemma finishRelocation_done `{JsRuntime} `{StoreCast} (dir : option string)
    (s : ActivityStorage) (fs : FileSystem) (ok : bool) (w' : World) :
  finishRelocation dir s fs = (Ok ok, w') ->
  ok = true
  /\ dataFilePath (storage w') = newFilePathFor dir
  /\ persistence (storage w') = {| filePath := newFilePathFor dir |}
  /\ settingsManager (storage w') = {| activityStoreDirPath := dir |}
  /\ options (storage w') = options s
  /\ exists r, loadData {| filePath := newFilePathFor dir |} fs = (Ok r, disk w')
               /\ activityState (storage w')
                  = match r with
                    | Some v => setData (asStoreData v) (activityState s)
                    | None => activityState s
                    end.
Proof.
  unfold finishRelocation.
  destruct (loadData_returns {| filePath := newFilePathFor dir |} fs) as (r & fs' & ->).
  destruct r as [v|]; intros Heq; injection Heq as <- <-;
    repeat split; by eexists.
Qed.

(** C9 (as amended).  [updateStoragePath] never throws.  The new file path
    is the fixed file name under the given directory, or under the
    user-data directory when the argument is null or empty.  When it
    answers true, the file path, the adapter and the settings point to the
    new place, the in-memory store is what [loadData] found there (it is
    kept when nothing valid was found), and the old file was copied and
    then removed exactly when it existed while no file was at the new
    place.  It answers false only when that move fails, and then the file
    path, the adapter, the settings and the in-memory store are as
    before; what the move had already written to disk stays. *)
Theorem updateStoragePath_contract `{JsRuntime} `{StoreCast}
    (dir : option string) (w : World) :
  (exists ok w', updateStoragePath dir w = (Ok ok, w'))
  /\ (dir = None \/ dir = Some "" ->
      newFilePathFor dir = path_join userDataPath storeFileName)
  /\ (forall d, dir = Some d -> d <> "" ->
      newFilePathFor dir = path_join d storeFileName)
  /\ (forall w', updateStoragePath dir w = (Ok false, w') ->
        storage w' = storage w /\ mustMove dir w = true)
  /\ (forall w', updateStoragePath dir w = (Ok true, w') ->
        dataFilePath (storage w') = newFilePathFor dir
        /\ persistence (storage w') = {| filePath := newFilePathFor dir |}
        /\ settingsManager (storage w') = {| activityStoreDirPath := dir |}
        /\ options (storage w') = options (storage w)
        /\ exists fsm r,
             loadData {| filePath := newFilePathFor dir |} fsm = (Ok r, disk w')
             /\ activityState (storage w')
                = match r with
                  | Some v => setData (asStoreData v) (activityState (storage w))
                  | None => activityState (storage w)
                  end
             /\ (mustMove dir w = false -> fsm = disk w)
             /\ (mustMove dir w = true ->
                 exists c,
                   nodes (disk w) !! dataFilePath (storage w) = Some (File c)
                   /\ nodes fsm !! newFilePathFor dir = Some (File c)
                   /\ nodes fsm !! dataFilePath (storage w) = None)).
Proof.
  rewrite updateStoragePath_unfold.
  assert (Hnull : dir = None \/ dir = Some "" ->
                  newFilePathFor dir = path_join userDataPath storeFileName).
  { unfold newFilePathFor. by intros [->| ->]. }
  assert (Hdir : forall d, dir = Some d -> d <> "" ->
                 newFilePathFor dir = path_join d storeFileName).
  { unfold newFilePathFor. intros d -> Hd. simpl.
    by destruct (String.eqb_spec d ""). }
  destruct (mustMove dir w) eqn:Hmove.
  - destruct (copyStoreFile (dataFilePath (storage w)) (newFilePathFor dir) (disk w))
      as [[[]|] fs1] eqn:Hcopy.
    + split.
      { destruct (finishRelocation dir (storage w) fs1) as [[ok|] w'] eqn:Hfin.
        - by eexists _, _.
        - unfold finishRelocation in Hfin.
          destruct (loadData _ fs1) as [[[v|]|] fs']; discriminate Hfin. }
      split; [done|]. split; [done|]. split.
      { intros w' Hfin. apply finishRelocation_done in Hfin as [Hok _]. done. }
      intros w' Hfin.
      apply finishRelocation_done in Hfin as (_ & Hp & Ha & Hs & Ho & r & Hl & Hst).
      do 4 (split; [done|]). exists fs1, r. do 2 (split; [done|]).
      split; [done|]. intros _.
      unfold mustMove in Hmove. apply andb_prop in Hmove as [Hold Hnew].
      apply bool_decide_eq_true_1 in Hold.
      apply negb_true_iff, bool_decide_eq_false_1 in Hnew.
      apply (copyStoreFile_done _ _ _ _ Hold); [|done].
      destruct (nodes (disk w) !! newFilePathFor dir) eqn:E; [|done].
      destruct Hnew. eauto.
    + split; [by eexists _, _|]. split; [done|]. split; [done|]. split.
      * intros w' Heq. by injection Heq as <-.
      * intros w' Heq. discriminate Heq.
  - split.
    { destruct (finishRelocation dir (storage w) (disk w)) as [[ok|] w'] eqn:Hfin.
      - by eexists _, _.
      - unfold finishRelocation in Hfin.
        destruct (loadData _ (disk w)) as [[[v|]|] fs']; discriminate Hfin. }
    split; [done|]. split; [done|]. split.
    { intros w' Hfin. apply finishRelocation_done in Hfin as [Hok _]. done. }
    intros w' Hfin.
    apply finishRelocation_done in Hfin as (_ & Hp & Ha & Hs & Ho & r & Hl & Hst).
    do 4 (split; [done|]). exists (disk w), r. do 2 (split; [done|]).
    split; [done|]. intros Habs. discriminate Habs.
Qed.

Lemma updateStoragePath_contract_witness :
  let w' := snd (@updateStoragePath (sampleRuntime [storeToJS sampleStore])
                   (castKnown [sampleStore]) (Some "/data") (relocationWorld ReadWrite)) in
  dataFilePath (storage w') = samplePath
  /\ persistence (storage w') = {| filePath := samplePath |}.
Proof.
  intros w'.
  destruct (@updateStoragePath_contract (sampleRuntime [storeToJS sampleStore])
              (castKnown [sampleStore]) (Some "/data") (relocationWorld ReadWrite))
    as (_ & _ & _ & _ & H).
  destruct (H w') as (Hp & Ha & _); [vm_compute; reflexivity|].
  split; [exact Hp|exact Ha].
Defined.

(** C9, counterexample.  The old file can be read but not removed, and the
    target directory does not exist yet: the directory is created and the
    file copied, then removing the old file throws.  The answer is false,
    and the disk now holds the new directory and the copy. *)
Lemma updateStoragePath_failure_counterexample :
  ~ @failureChangesNothing (sampleRuntime [storeToJS sampleStore])
      (castKnown [sampleStore]) (Some "/data") (relocationWorld ReadOnly).
Proof.
  intros H.
  specialize (H (snd (@updateStoragePath (sampleRuntime [storeToJS sampleStore])
                        (castKnown [sampleStore]) (Some "/data")
                        (relocationWorld ReadOnly)))).
  assert (Hrun : nodes (disk (snd (@updateStoragePath
            (sampleRuntime [storeToJS sampleStore]) (castKnown [sampleStore])
            (Some "/data") (relocationWorld ReadOnly)))) !! samplePath
          = Some (File (render (storeToJS sampleStore))))
    by (vm_compute; reflexivity).
  rewrite H in Hrun by (vm_compute; reflexivity).
  vm_compute in Hrun. discriminate Hrun.
Qed.

(** ** The aggregation cache *)

Lemma getAggregatedData_hit `{DateManager} `{TimelineGeneratorOps} (k : string) (now : Z)
    (s : ActivityStorage) (svc : AggregationService) (e : CachedAggregate) :
  aggregationCache svc !! k = Some e ->
  getAggregatedData k now s svc = (Some e, svc).
Proof. intros Hk. unfold getAggregatedData. by rewrite Hk. Qed.

Lemma getAggregatedData_miss `{DateManager} `{TimelineGeneratorOps} (k : string) (now : Z)
    (s : ActivityStorage) (svc : AggregationService) :
  aggregationCache svc !! k = None ->
  getAggregatedData k now s svc
  = (Some {| summary := zeroSummary;
             timelineEvents := generateTimelineEvents (generatorInterval svc)
                                 (storedHeartbeats k now s) |},
     cacheSet k {| summary := zeroSummary;
                   timelineEvents := generateTimelineEvents (generatorInterval svc)
                                       (storedHeartbeats k now s) |} svc).
Proof. intros Hk. unfold getAggregatedData. by rewrite Hk. Qed.

(** A valid interval empties the cache, so the next request for any day
    computes its events again, under the new interval. *)
Lemma setAggregationInterval_recomputes `{DateManager} `{TimelineGeneratorOps}
    (interval : Z) (k : string) (now : Z) (s : ActivityStorage) (svc : AggregationService) :
  interval = 5%Z \/ interval = 10%Z \/ interval = 15%Z ->
  aggregationCache (setAggregationInterval interval svc) = ∅
  /\ generatorInterval (setAggregationInterval interval svc) = interval
  /\ fst (getAggregatedData k now s (setAggregationInterval interval svc))
     = Some {| summary := zeroSummary;
               timelineEvents := generateTimelineEvents interval
                                   (storedHeartbeats k now s) |}.
Proof.
  intros Hi.
  assert (Hset : setAggregationInterval interval svc
                 = {| aggregationCache := ∅; generatorInterval := interval |}).
  { unfold setAggregationInterval. by destruct Hi as [->|[->| ->]]. }
  rewrite Hset. split; [done|]. split; [done|].
  by rewrite getAggregatedData_miss by apply lookup_empty.
Qed.

(** C4, at the scenario of section 8 with an empty cache.  The events are
    computed by the generator and cached, but the summary returned and
    cached is all zeros, where [calculateSummary] gives 30 minutes of
    active and 15 minutes of inactive time, as [aggregateDay] caches. *)
Theorem getAggregatedData_miss_zero_summary :
  @getAggregatedData (pinnedDate sampleDay) specTimeline sampleDay sampleNow
     scenarioStorage freshService
  = (Some {| summary := zeroSummary; timelineEvents := scenarioEvents |},
     cacheSet sampleDay {| summary := zeroSummary; timelineEvents := scenarioEvents |}
       freshService)
  /\ totalActiveDuration (@calculateSummary specTimeline scenarioEvents) = 1800000%Z
  /\ totalInactiveDuration (@calculateSummary specTimeline scenarioEvents) = 900000%Z
  /\ @calculateSummary specTimeline scenarioEvents <> zeroSummary
  /\ aggregationCache
       (snd (@aggregateDay (pinnedDate sampleDay) specTimeline sampleDay sampleNow
               scenarioStorage freshService)) !! sampleDay
     = Some {| summary := @calculateSummary specTimeline scenarioEvents;
               timelineEvents := scenarioEvents |}.
Proof.
  split; [|split; [|split; [|split]]].
  - rewrite getAggregatedData_miss by apply lookup_empty.
    assert (Hev : @generateTimelineEvents specTimeline (generatorInterval freshService)
                    (@storedHeartbeats (pinnedDate sampleDay) sampleDay sampleNow
                       scenarioStorage) = scenarioEvents)
      by (vm_compute; reflexivity).
    by rewrite Hev.
  - reflexivity.
  - reflexivity.
  - intros Heq. apply (f_equal totalActiveDuration) in Heq. discriminate Heq.
  - unfold aggregateDay. simpl. rewrite lookup_insert_eq.
    assert (Hev : mergeHeartbeats (15 * 60 * 1000)
                    (@storedHeartbeats (pinnedDate sampleDay) sampleDay sampleNow
                       scenarioStorage) = scenarioEvents)
      by (vm_compute; reflexivity).
    by rewrite Hev.
Qed.

(** ** The facade *)

Lemma orElse_idem (key : option string) (fallback : string) :
  orElse (Some (orElse key fallback)) fallback = orElse key fallback.
Proof.
  destruct key as [k|]; simpl.
  - destruct (String.eqb_spec k "") as [->|Hne]; simpl.
    + by destruct (String.eqb fallback "").
    + by destruct (String.eqb_spec k "").
  - by destruct (String.eqb fallback "").
Qed.

Lemma storedHeartbeats_invalid `{DateManager} (k : string) (now : Z) (s : ActivityStorage) :
  orElse (Some k) (getDateKey now) = k -> matchesDateKey k = false ->
  storedHeartbeats k now s = [].
Proof.
  intros Hk Hbad. unfold storedHeartbeats, getDayData. by rewrite Hk, Hbad.
Qed.

Lemma cacheSound_fresh (interval : Z) :
  cacheSound {| aggregationCache := ∅; generatorInterval := interval |}.
Proof. intros k e Hk. simpl in Hk. by rewrite lookup_empty in Hk. Qed.

Lemma cacheSound_cacheSet (k : string) (e : CachedAggregate) (svc : AggregationService) :
  (matchesDateKey k = false -> timelineEvents e = []) ->
  cacheSound svc -> cacheSound (cacheSet k e svc).
Proof.
  intros He Hsvc k' e' Hk' Hbad. simpl in Hk'.
  destruct (decide (k = k')) as [<-|Hne].
  - rewrite lookup_insert_eq in Hk'. injection Hk' as <-. by apply He.
  - rewrite lookup_insert_ne in Hk' by done. by eapply Hsvc.
Qed.

(** The operations that write the cache keep it sound, provided the
    generator makes no event out of no heartbeat. *)
Lemma cacheSound_preserved `{DateManager} `{TimelineGeneratorOps}
    (now : Z) (s : ActivityStorage) (svc : AggregationService) :
  (forall i, generateTimelineEvents i [] = []) ->
  cacheSound svc ->
  (forall interval, cacheSound (setAggregationInterval interval svc))
  /\ (forall k, orElse (Some k) (getDateKey now) = k ->
        cacheSound (snd (aggregateDay k now s svc))
        /\ cacheSound (snd (getAggregatedData k now s svc))
        /\ cacheSound (snd (getDayDataWithAggregation k now s svc))).
Proof.
  intros Hgen Hsvc. split.
  - intros interval. unfold setAggregationInterval.
    destruct (negb _); [done|]. apply cacheSound_fresh.
  - intros k Hk.
    assert (Hget : cacheSound (snd (getAggregatedData k now s svc))).
    { unfold getAggregatedData.
      destruct (aggregationCache svc !! k); [done|]. simpl.
      apply cacheSound_cacheSet; [|done]. simpl. intros Hbad.
      by rewrite storedHeartbeats_invalid. }
    split; [|split; [done|]].
    + unfold aggregateDay. simpl. apply cacheSound_cacheSet; [|done]. simpl.
      intros Hbad. by rewrite storedHeartbeats_invalid.
    + unfold getDayDataWithAggregation.
      destruct (getAggregatedData k now s svc) as [[ad|] svc']; done.
Qed.

(** Every state the facade can reach has a sound cache, provided the
    generator makes no event out of no heartbeat and the date manager
    never hands out an empty key. *)
Lemma facadeReach_cacheSound `{DateManager} `{TimelineGeneratorOps} (f : ActivityFacade) :
  (forall i, generateTimelineEvents i [] = []) ->
  (forall t, getDateKey t <> "") ->
  facadeReach f -> cacheSound (aggregationService f).
Proof.
  intros Hgen Hkey Hreach.
  induction Hreach as [s i|f s' _ IH|f dk now _ IH|f i _ IH|f t0 now _ IH]; simpl.
  - apply cacheSound_fresh.
  - exact IH.
  - unfold facadeGetDayData.
    destruct (cacheSound_preserved now (activityStorage f) (aggregationService f) Hgen IH)
      as [_ Hk].
    destruct (Hk (orElse dk (getDateKey now)) (orElse_idem dk (getDateKey now)))
      as (_ & _ & Hview).
    destruct (getDayDataWithAggregation _ now _ _) as [r svc']. exact Hview.
  - by apply (cacheSound_preserved 0%Z (activityStorage f) (aggregationService f) Hgen IH).
  - destruct (cacheSound_preserved now (activityStorage f) (aggregationService f) Hgen IH)
      as [_ Hk].
    apply (Hk (getDateKey t0)). simpl.
    destruct (String.eqb_spec (getDateKey t0) "") as [He|_]; [|done].
    destruct (Hkey t0 He).
Qed.

(** C10 (as amended).  The facade's [getDayData] never returns null: it
    returns the heartbeats the storage manager has for the key (today's
    key when none, or an empty one, is passed), and the events of the
    cache entry of that key, computed by the generator when the cache has
    none.  When the storage manager has no record for the key the
    heartbeats are empty, and so are the events unless the cache still
    holds an entry for the key (the generator making no event out of no
    heartbeat); when the key is not of the form YYYY-MM-DD both are
    empty, in every state the facade can reach. *)
Theorem facadeGetDayData_contract `{DateManager} `{TimelineGeneratorOps}
    (dateKey : option string) (now : Z) (f : ActivityFacade) :
  exists r f',
    facadeGetDayData dateKey now f = (Some r, f')
    /\ activityStorage f' = activityStorage f
    /\ dv_heartbeats r
       = storedHeartbeats (orElse dateKey (getDateKey now)) now (activityStorage f)
    /\ dv_timelineEvents r
       = match aggregationCache (aggregationService f)
                 !! orElse dateKey (getDateKey now) with
         | Some e => timelineEvents e
         | None => generateTimelineEvents (generatorInterval (aggregationService f))
                     (dv_heartbeats r)
         end
    /\ (getDayData (Some (orElse dateKey (getDateKey now))) now (activityStorage f) = None ->
        dv_heartbeats r = []
        /\ (aggregationCache (aggregationService f)
              !! orElse dateKey (getDateKey now) = None ->
            generateTimelineEvents (generatorInterval (aggregationService f)) [] = [] ->
            dv_timelineEvents r = []))
    /\ (matchesDateKey (orElse dateKey (getDateKey now)) = false ->
        cacheSound (aggregationService f) ->
        generateTimelineEvents (generatorInterval (aggregationService f)) [] = [] ->
        dv_heartbeats r = [] /\ dv_timelineEvents r = [])
    /\ (matchesDateKey (orElse dateKey (getDateKey now)) = false ->
        facadeReach f ->
        (forall i, generateTimelineEvents i [] = []) ->
        (forall t, getDateKey t <> "") ->
        dv_heartbeats r = [] /\ dv_timelineEvents r = []).
Proof.
  unfold facadeGetDayData, getDayDataWithAggregation, getAggregatedData.
  set (key := orElse dateKey (getDateKey now)).
  set (svc := aggregationService f). set (s := activityStorage f).
  assert (Hnone : getDayData (Some key) now s = None -> storedHeartbeats key now s = []).
  { intros Hn. unfold storedHeartbeats. by rewrite Hn. }
  assert (Hkey : orElse (Some key) (getDateKey now) = key) by apply orElse_idem.
  destruct (aggregationCache svc !! key) as [e|] eqn:Hc.
  - eexists _, _. split; [reflexivity|]. simpl.
    do 3 (split; [done|]). split; [|split].
    + intros Hn. split; [by apply Hnone|]. intros Habs. discriminate Habs.
    + intros Hbad Hsound _. split; [by apply storedHeartbeats_invalid|].
      by apply (Hsound key e).
    + intros Hbad Hreach Hgen Hdm. split; [by apply storedHeartbeats_invalid|].
      by apply (facadeReach_cacheSound f Hgen Hdm Hreach key e).
  - eexists _, _. split; [reflexivity|]. simpl.
    do 3 (split; [done|]). split; [|split].
    + intros Hn. split; [by apply Hnone|]. intros _ Hgen. by rewrite (Hnone Hn).
    + intros Hbad _ Hgen. rewrite (storedHeartbeats_invalid key now s Hkey Hbad).
      done.
    + intros Hbad _ Hgen _. rewrite (storedHeartbeats_invalid key now s Hkey Hbad).
      split; [done|]. apply Hgen.
Qed.

Lemma facadeGetDayData_contract_witness :
  fst (@facadeGetDayData (pinnedDate sampleDay) specTimeline (Some "yesterday")
         sampleNow agedFacade)
  = Some {| dv_heartbeats := []; dv_timelineEvents := [] |}.
Proof.
  destruct (@facadeGetDayData_contract (pinnedDate sampleDay) specTimeline
              (Some "yesterday") sampleNow agedFacade)
    as (r & f' & Hrun & _ & _ & _ & Hnone & _).
  destruct Hnone as [Hh He]; [reflexivity|].
  specialize (He eq_refl eq_refl).
  rewrite Hrun. simpl. destruct r as [hbs evs]. simpl in Hh, He.
  rewrite Hh, He. reflexivity.
Defined.

(** C10, counterexample.  A day older than thirty days is looked at, which
    caches its events; the purge then deletes the day.  The facade now
    returns no heartbeat for it, but still the cached events. *)
Lemma facadeGetDayData_stale_counterexample :
  ~ @emptyWithoutRecord (pinnedDate sampleDay) specTimeline sampleNow
      (fst afterPurge) oldDay.
Proof.
  intros H. destruct H as (r & Hr & _ & He); [vm_compute; reflexivity|].
  vm_compute in Hr. injection Hr as <-. discriminate He.
Qed.

(* ===================================================================== *)
(** * Further properties                                                  *)
(* ===================================================================== *)

(** ** StorageAdapter: effects on the disk *)

Lemma loadData_unfold `{JsRuntime} (a : StorageAdapter) (fs : FileSystem) :
  loadData a fs
  = if String.eqb (filePath a) "" then (Ok None, fs)
    else match nodes fs !! path_dirname (filePath a) with
         | Some _ => (Ok (loadOutcome (filePath a) fs), fs)
         | None =>
             if decide (accessOf (path_dirname (filePath a)) fs = ReadWrite)
             then (Ok (loadOutcome (filePath a) (withDir (path_dirname (filePath a)) fs)),
                   withDir (path_dirname (filePath a)) fs)
             else (Ok None, fs)
         end.
Proof.
  unfold loadData. destruct (String.eqb (filePath a) ""); [done|].
  unfold tryCatch. cbv zeta. rewrite ensure_dir_step.
  assert (Hrest : forall fs1,
    match
      (let! fileExists := existsSync (filePath a) in
       if negb fileExists then ret None
       else
         let! data := readFileSync (filePath a) in
         let! parsedData := jsonParse data in
         if negb (truthy parsedData) || negb (typeofObject parsedData) then ret None
         else if negb (validateStoreData parsedData) then ret None
         else ret (Some parsedData)) fs1
    with
    | (Ok r, s') => (Ok r, s')
    | (Throw, s') => ret None s'
    end = (Ok (loadOutcome (filePath a) fs1), fs1)).
  { intros fs1. rewrite loadData_after_dir. unfold loadOutcome, ret.
    destruct (nodes fs1 !! filePath a) as [[c|]|]; try done.
    destruct (decide _); [done|].
    destruct (JSON_parse c) as [v|]; [|done].
    destruct (negb (truthy v) || negb (typeofObject v)); [done|].
    by destruct (negb (validateStoreData v)). }
  destruct (nodes fs !! path_dirname (filePath a)); [apply Hrest|].
  destruct (decide _); [apply Hrest|done].
Qed.

Lemma loadData_only_creates_directory_aux `{JsRuntime} (a : StorageAdapter)
    (fs fs' : FileSystem) (r : outcome (option JSValue)) :
  loadData a fs = (r, fs') ->
  sameOrDirCreated (path_dirname (filePath a)) fs fs'.
Proof.
  rewrite loadData_unfold. unfold sameOrDirCreated.
  destruct (String.eqb (filePath a) "").
  { intros Heq. injection Heq as <- <-. by left. }
  destruct (nodes fs !! path_dirname (filePath a)) eqn:Hd.
  { intros Heq. injection Heq as <- <-. by left. }
  destruct (decide _) as [Hrw|Hno].
  - intros Heq. injection Heq as <- <-. by right.
  - intros Heq. injection Heq as <- <-. by left.
Qed.

(** X1.  [loadData] never creates, changes or removes a file: whatever it
    answers, the disk afterwards is the disk before, or the disk before
    with the missing directory of the path created. *)
Theorem loadData_only_creates_directory `{JsRuntime} (a : StorageAdapter)
    (fs fs' : FileSystem) (r : outcome (option JSValue)) :
  loadData a fs = (r, fs') ->
  sameOrDirCreated (path_dirname (filePath a)) fs fs'
  /\ perms fs' = perms fs
  /\ (forall q, q <> path_dirname (filePath a) -> nodes fs' !! q = nodes fs !! q).
Proof.
  rewrite loadData_unfold. unfold sameOrDirCreated.
  destruct (String.eqb (filePath a) "").
  { intros Heq. injection Heq as <- <-. by repeat split; [left|..]. }
  destruct (nodes fs !! path_dirname (filePath a)) eqn:Hd.
  { intros Heq. injection Heq as <- <-. by repeat split; [left|..]. }
  destruct (decide _) as [Hrw|Hno].
  - intros Heq. injection Heq as <- <-. split; [by right|]. split; [done|].
    intros q Hq. simpl. by rewrite lookup_insert_ne.
  - intros Heq. injection Heq as <- <-. by repeat split; [left|..].
Qed.

Lemma loadData_only_creates_directory_witness :
  nodes (snd (@loadData (sampleRuntime []) {| filePath := samplePath |} emptyDisk))
    !! samplePath = None.
Proof.
  destruct (@loadData_only_creates_directory (sampleRuntime [])
              {| filePath := samplePath |} emptyDisk
              (snd (@loadData (sampleRuntime []) {| filePath := samplePath |} emptyDisk))
              (fst (@loadData (sampleRuntime []) {| filePath := samplePath |} emptyDisk)))
    as (_ & _ & H); [vm_compute; reflexivity|].
  rewrite H by (vm_compute; discriminate). reflexivity.
Defined.

(** X2.  [loadData] can be repeated: a second call right after the first
    gives the same answer and leaves the disk as the first call left it. *)
Theorem loadData_repeatable `{JsRuntime} (a : StorageAdapter) (fs fs' : FileSystem)
    (r : outcome (option JSValue)) :
  loadData a fs = (r, fs') -> loadData a fs' = (r, fs').
Proof.
  rewrite (loadData_unfold a fs).
  destruct (String.eqb (filePath a) "") eqn:Hp.
  { intros Heq. injection Heq as <- <-. rewrite loadData_unfold. by rewrite Hp. }
  destruct (nodes fs !! path_dirname (filePath a)) eqn:Hd.
  { intros Heq. injection Heq as <- <-. rewrite loadData_unfold. by rewrite Hp, Hd. }
  destruct (decide _) as [Hrw|Hno].
  - intros Heq. injection Heq as <- <-. rewrite loadData_unfold, Hp. simpl.
    by rewrite lookup_insert_eq.
  - intros Heq. injection Heq as <- <-. rewrite loadData_unfold, Hp, Hd.
    by rewrite decide_False.
Qed.

Lemma loadData_repeatable_witness :
  @loadData (sampleRuntime [storeToJS sampleStore]) {| filePath := samplePath |}
    (diskWith samplePath (render (storeToJS sampleStore)))
  = (Ok (Some (storeToJS sampleStore)),
     diskWith samplePath (render (storeToJS sampleStore))).
Proof.
  apply (@loadData_repeatable (sampleRuntime [storeToJS sampleStore])
           {| filePath := samplePath |}
           (diskWith samplePath (render (storeToJS sampleStore)))).
  vm_compute. reflexivity.
Defined.

(** X3.  [saveData] touches nothing but the store file and its directory,
    and never the access rights.  When it answers false no file has been
    written: the disk is as before, except that the missing directory may
    have been created.  When it answers true the file holds the text of
    the value. *)
Theorem saveData_footprint `{JsRuntime} (a : StorageAdapter) (d : JSValue)
    (fs fs' : FileSystem) (b : bool) :
  saveData a d fs = (Ok b, fs') ->
  perms fs' = perms fs
  /\ (forall q, q <> filePath a -> q <> path_dirname (filePath a) ->
        nodes fs' !! q = nodes fs !! q)
  /\ (b = false -> sameOrDirCreated (path_dirname (filePath a)) fs fs')
  /\ (b = true -> nodes fs' !! filePath a = Some (File (JSON_stringify d))).
Proof.
  rewrite saveData_unfold. unfold sameOrDirCreated. cbv zeta.
  destruct (String.eqb (filePath a) "").
  { intros Heq. injection Heq as <- <-. by repeat split; [left|..]. }
  destruct (nodes fs !! path_dirname (filePath a)) eqn:Hd.
  - destruct (canWrite (filePath a) fs); intros Heq; injection Heq as <- <-.
    + split; [done|]. split; [|split; [done|]].
      * intros q Hq _. simpl. by rewrite lookup_insert_ne.
      * intros _. simpl. apply lookup_insert_eq.
    + by repeat split; [left|..].
  - destruct (decide _) as [Hrw|Hno].
    + destruct (canWrite (filePath a) _); intros Heq; injection Heq as <- <-.
      * split; [done|]. split; [|split; [done|]].
        -- intros q Hq Hq'. simpl. by rewrite !lookup_insert_ne.
        -- intros _. simpl. apply lookup_insert_eq.
      * split; [done|]. split; [|split; [by right|done]].
        intros q _ Hq'. simpl. by rewrite lookup_insert_ne.
    + intros Heq. injection Heq as <- <-. by repeat split; [left|..].
Qed.

Lemma saveData_footprint_witness :
  nodes (snd (@saveData (sampleRuntime []) {| filePath := samplePath |}
                (storeToJS sampleStore) emptyDisk)) !! samplePath
  = Some (File (render (storeToJS sampleStore))).
Proof.
  destruct (@saveData_footprint (sampleRuntime []) {| filePath := samplePath |}
              (storeToJS sampleStore) emptyDisk
              (snd (@saveData (sampleRuntime []) {| filePath := samplePath |}
                      (storeToJS sampleStore) emptyDisk)) true)
    as (_ & _ & _ & H); [vm_compute; reflexivity|].
  apply H. reflexivity.
Defined.

(** X4.  Once [saveData] has answered true, saving another value through
    the same adapter answers true as well and replaces the text of the
    file, nothing else (the path not being its own directory). *)
Theorem saveData_again_overwrites `{JsRuntime} (a : StorageAdapter) (d1 d2 : JSValue)
    (fs fs1 : FileSystem) :
  path_dirname (filePath a) <> filePath a ->
  saveData a d1 fs = (Ok true, fs1) ->
  saveData a d2 fs1
  = (Ok true, withNodes <[filePath a := File (JSON_stringify d2)]> fs1).
Proof.
  intros Hdir Hsave.
  apply saveData_success in Hsave as (Hne & fs0 & Hd & Hacc & ->).
  rewrite saveData_unfold. cbv zeta.
  destruct (String.eqb_spec (filePath a) "") as [|_]; [done|].
  simpl. rewrite lookup_insert_ne by done. rewrite Hd.
  unfold canWrite. simpl. rewrite lookup_insert_eq, lookup_insert_ne by done.
  rewrite Hd. unfold accessOf in *. simpl. rewrite Hacc.
  by rewrite bool_decide_eq_true_2.
Qed.

Lemma saveData_again_overwrites_witness :
  nodes (snd (@saveData (sampleRuntime []) {| filePath := samplePath |}
                (storeToJS unversionedStore)
                (snd (@saveData (sampleRuntime []) {| filePath := samplePath |}
                        (storeToJS sampleStore) emptyDisk)))) !! samplePath
  = Some (File (render (storeToJS unversionedStore))).
Proof.
  rewrite (@saveData_again_overwrites (sampleRuntime []) {| filePath := samplePath |}
             (storeToJS sampleStore) (storeToJS unversionedStore) emptyDisk
             (snd (@saveData (sampleRuntime []) {| filePath := samplePath |}
                     (storeToJS sampleStore) emptyDisk)));
    [|vm_compute; discriminate|vm_compute; reflexivity].
  simpl. apply lookup_insert_eq.
Defined.

(** X5.  [saveData] does not validate what it writes: a store whose
    version is zero is saved with success, but [loadData] then rejects the
    file and answers null. *)
Theorem zero_version_saved_not_loaded `{JsRuntime} (a : StorageAdapter) (sd : StoreData)
    (fs fs1 : FileSystem) :
  version sd = 0%Z ->
  JSON_parse (JSON_stringify (storeToJS sd)) = Some (storeToJS sd) ->
  saveData a (storeToJS sd) fs = (Ok true, fs1) ->
  exists fs2, loadData a fs1 = (Ok None, fs2).
Proof.
  intros Hv Hjson Hsave.
  destruct (loadData_returns a fs1) as ([v|] & fs2 & Hload); [|by eexists].
  assert (Hex : exists fs', loadData a fs1 = (Ok (Some v), fs')) by eauto.
  apply loadData_accepts_iff in Hex as (_ & _ & c & [Hc _] & Hp & Hshape).
  apply saveData_written in Hsave. rewrite Hsave in Hc. injection Hc as <-.
  rewrite Hjson in Hp. injection Hp as <-.
  destruct Hshape as (_ & (ver & Hver & Ht) & _).
  simpl in Hver. injection Hver as <-. simpl in Ht. rewrite Hv in Ht. done.
Qed.

Lemma zero_version_saved_not_loaded_witness :
  exists fs2,
    @loadData (sampleRuntime [storeToJS unversionedStore]) {| filePath := samplePath |}
      (snd (@saveData (sampleRuntime [storeToJS unversionedStore])
              {| filePath := samplePath |} (storeToJS unversionedStore) emptyDisk))
    = (Ok None, fs2).
Proof.
  apply (@zero_version_saved_not_loaded (sampleRuntime [storeToJS unversionedStore])
           {| filePath := samplePath |} unversionedStore emptyDisk).
  - reflexivity.
  - vm_compute. reflexivity.
  - vm_compute. reflexivity.
Defined.

(** ** ActivityStorage: heartbeats and dates *)

Lemma handleMayBeInactive_length hbs t d :
  length (handleMayBeInactive hbs t d) = length hbs.
Proof.
  rewrite handleMayBeInactive_corrected.
  destruct (bool_decide _); [apply corrected_length|done].
Qed.

(** X6.  [addHeartbeat] changes the day of its key only: the other days,
    the store's metadata and the storage manager's own fields are as
    before.  The day grows by exactly one heartbeat, the new one, put
    last; when the sample is not 'inactive' the earlier heartbeats of the
    day are unchanged. *)
Theorem addHeartbeat_frame (ts : Z) (d : HeartbeatData) (k : string)
    (s : ActivityStorage) :
  (forall k', k' <> k ->
     days (storeData (activityState (addHeartbeat ts d k s))) !! k'
     = days (storeData (activityState s)) !! k')
  /\ version (storeData (activityState (addHeartbeat ts d k s)))
     = version (storeData (activityState s))
  /\ lastCleanupTime (storeData (activityState (addHeartbeat ts d k s)))
     = lastCleanupTime (storeData (activityState s))
  /\ startTime (storeData (activityState (addHeartbeat ts d k s)))
     = startTime (storeData (activityState s))
  /\ aggregationInterval (storeData (activityState (addHeartbeat ts d k s)))
     = aggregationInterval (storeData (activityState s))
  /\ options (addHeartbeat ts d k s) = options s
  /\ dataFilePath (addHeartbeat ts d k s) = dataFilePath s
  /\ persistence (addHeartbeat ts d k s) = persistence s
  /\ settingsManager (addHeartbeat ts d k s) = settingsManager s
  /\ length (dayHeartbeatsOf k (addHeartbeat ts d k s))
     = S (length (dayHeartbeatsOf k s))
  /\ last (dayHeartbeatsOf k (addHeartbeat ts d k s))
     = Some {| timestamp := ts; data := d |}
  /\ (userActivity d <> inactive ->
      dayHeartbeatsOf k (addHeartbeat ts d k s)
      = dayHeartbeatsOf k s ++ [{| timestamp := ts; data := d |}]).
Proof.
  split.
  { intros k' Hne. unfold addHeartbeat.
    destruct (bool_decide _); simpl; by rewrite lookup_insert_ne. }
  do 8 (split; [unfold addHeartbeat; by destruct (bool_decide _)|]).
  rewrite dayHeartbeatsOf_addHeartbeat. split; [|split].
  - rewrite length_app. simpl.
    destruct (bool_decide _); [rewrite handleMayBeInactive_length|]; lia.
  - apply last_snoc.
  - intros Hd. by rewrite bool_decide_eq_false_2.
Qed.

Lemma setAdd_elem (x y : string) (set : list string) :
  y ∈ setAdd x set <-> y = x \/ y ∈ set.
Proof.
  unfold setAdd. destruct (decide (x ∈ set)) as [Hin|Hnin].
  - split; [by right|]. by intros [->|?].
  - rewrite elem_of_app, list_elem_of_singleton. tauto.
Qed.

Lemma setAdd_NoDup (x : string) (set : list string) :
  NoDup set -> NoDup (setAdd x set).
Proof.
  intros Hnd. unfold setAdd. destruct (decide (x ∈ set)) as [Hin|Hnin]; [done|].
  apply NoDup_app. split; [done|]. split; [|apply NoDup_singleton].
  intros y Hy ->%list_elem_of_singleton. done.
Qed.

Lemma setFrom_spec (items : list string) :
  NoDup (setFrom items) /\ forall y, y ∈ setFrom items <-> y ∈ items.
Proof.
  unfold setFrom.
  assert (Hgen : forall acc, NoDup acc ->
    NoDup (foldl (fun set x => setAdd x set) acc items)
    /\ forall y, y ∈ foldl (fun set x => setAdd x set) acc items
                 <-> y ∈ acc \/ y ∈ items).
  { induction items as [|x items IH]; intros acc Hacc; simpl.
    - split; [done|]. intros y. rewrite elem_of_nil. tauto.
    - destruct (IH (setAdd x acc) (setAdd_NoDup x acc Hacc)) as [Hnd Hel].
      split; [done|]. intros y. rewrite Hel, setAdd_elem, elem_of_cons. tauto. }
  destruct (Hgen [] (NoDup_nil_2)) as [Hnd Hel]. split; [done|].
  intros y. rewrite Hel, elem_of_nil. tauto.
Qed.

Lemma stateAvailableDates_elem (st : ActivityState) (k : string) :
  k ∈ stateAvailableDates st <-> is_Some (days (storeData st) !! k).
Proof.
  unfold stateAvailableDates. rewrite list_elem_of_fmap. split.
  - intros ([k' d] & -> & Hin%elem_of_map_to_list). simpl. eauto.
  - intros [d Hd]. exists (k, d). split; [done|]. by apply elem_of_map_to_list.
Qed.

#[global] Instance keyLe_total : Total keyLe.
Proof. intros x y. apply String.leb_total. Qed.

(** X7.  [getAvailableDates] lists exactly the days of the store and
    today's key, each once, in ascending order; today's key is there also
    when the store has no data for it. *)
Theorem getAvailableDates_spec `{DateManager} (now : Z) (s : ActivityStorage) :
  (forall k, k ∈ getAvailableDates now s
             <-> k = getDateKey now \/ is_Some (days (storeData (activityState s)) !! k))
  /\ getDateKey now ∈ getAvailableDates now s
  /\ NoDup (getAvailableDates now s)
  /\ Sorted keyLe (getAvailableDates now s).
Proof.
  unfold getAvailableDates. cbv zeta.
  destruct (setFrom_spec (stateAvailableDates (activityState s))) as [Hnd Hel].
  assert (Hall : forall k,
    k ∈ merge_sort keyLe
          (setAdd (getDateKey now) (setFrom (stateAvailableDates (activityState s))))
    <-> k = getDateKey now \/ is_Some (days (storeData (activityState s)) !! k)).
  { intros k. rewrite merge_sort_Permutation, setAdd_elem, Hel.
    by rewrite stateAvailableDates_elem. }
  split; [exact Hall|]. split; [apply Hall; by left|]. split.
  - rewrite merge_sort_Permutation. by apply setAdd_NoDup.
  - apply Sorted_merge_sort, _.
Qed.

(** ** ActivityStorage: saving, purging and relocating *)

(** X8.  [saveToDisk] never throws and never changes the storage manager
    itself; in mock mode it does not touch the disk either.  Outside mock
    mode, when the disk lets the store file be written, the file
    afterwards holds the text of the in-memory store and every path but
    the file and its directory is as before; loading through the same
    adapter then gives back the run-time value of the store, provided its
    version is not zero and the value survives [JSON.stringify] followed
    by [JSON.parse]. *)
Theorem saveToDisk_contract `{JsRuntime} (w : World) :
  (exists w', saveToDisk w = (Ok tt, w') /\ storage w' = storage w)
  /\ (useMockData (options (storage w)) = true -> saveToDisk w = (Ok tt, w))
  /\ (useMockData (options (storage w)) = false ->
      storeWritable (filePath (persistence (storage w))) (disk w) ->
      nodes (disk (snd (saveToDisk w))) !! filePath (persistence (storage w))
      = Some (File (JSON_stringify (storeToJS (storeData (activityState (storage w))))))
      /\ (forall q, q <> filePath (persistence (storage w)) ->
                    q <> path_dirname (filePath (persistence (storage w))) ->
                    nodes (disk (snd (saveToDisk w))) !! q = nodes (disk w) !! q)
      /\ (version (storeData (activityState (storage w))) <> 0%Z ->
          JSON_parse (JSON_stringify (storeToJS (storeData (activityState (storage w)))))
          = Some (storeToJS (storeData (activityState (storage w)))) ->
          exists fs2,
            loadData (persistence (storage w)) (disk (snd (saveToDisk w)))
            = (Ok (Some (storeToJS (storeData (activityState (storage w))))), fs2))).
Proof.
  destruct (useMockData (options (storage w))) eqn:Hmock.
  - assert (Hskip : saveToDisk w = (Ok tt, w)).
    { unfold saveToDisk, bind, getStorage. by rewrite Hmock. }
    split; [by exists w|]. split; [done|]. intros Habs. discriminate Habs.
  - rewrite (saveToDisk_run w Hmock). split; [by eexists|].
    split; [intros Habs; discriminate Habs|].
    intros _ Hw. simpl. unfold getFullStoreData.
    destruct (saveData_persists (persistence (storage w))
                (storeToJS (storeData (activityState (storage w)))) (disk w) Hw)
      as (Hok & Hfile & Hframe).
    split; [done|]. split; [done|].
    intros Hv Hjson.
    destruct (saveData (persistence (storage w))
                (storeToJS (storeData (activityState (storage w)))) (disk w))
      as [o fs1] eqn:Hsave.
    simpl in *. subst o. by eapply save_load_roundtrip_store.
Qed.

Lemma saveToDisk_contract_witness :
  nodes (disk (snd (@saveToDisk (sampleRuntime [storeToJS sampleStore])
                      {| storage := storageWith samplePath false sampleStore;
                         disk := emptyDisk |}))) !! samplePath
  = Some (File (render (storeToJS sampleStore)))
  /\ exists fs2,
       @loadData (sampleRuntime [storeToJS sampleStore]) {| filePath := samplePath |}
         (disk (snd (@saveToDisk (sampleRuntime [storeToJS sampleStore])
                       {| storage := storageWith samplePath false sampleStore;
                          disk := emptyDisk |})))
       = (Ok (Some (storeToJS sampleStore)), fs2).
Proof.
  destruct (@saveToDisk_contract (sampleRuntime [storeToJS sampleStore])
              {| storage := storageWith samplePath false sampleStore;
                 disk := emptyDisk |}) as (_ & _ & H).
  destruct H as (Hfile & _ & Hload).
  - reflexivity.
  - unfold storeWritable.
    split; [vm_compute; discriminate|]. split; [vm_compute; discriminate|].
    split; [vm_compute; reflexivity|]. right.
    split; [vm_compute; reflexivity|].
    split; [vm_compute; reflexivity|vm_compute; discriminate].
  - split; [exact Hfile|]. apply Hload.
    + discriminate.
    + vm_compute. reflexivity.
Defined.

(** X9.  [cleanupOldData] never throws.  It leaves the storage manager's
    options, paths, adapter and settings alone, and of the store only
    [lastCleanupTime] and the set of days can change: no day is added or
    altered, the version, start time and aggregation interval stay, and
    [lastCleanupTime] never goes back. *)
Theorem cleanupOldData_frame `{JsRuntime} (now : Z) (w : World) :
  exists w',
    cleanupOldData now w = (Ok tt, w')
    /\ options (storage w') = options (storage w)
    /\ dataFilePath (storage w') = dataFilePath (storage w)
    /\ persistence (storage w') = persistence (storage w)
    /\ settingsManager (storage w') = settingsManager (storage w)
    /\ version (storeData (activityState (storage w')))
       = version (storeData (activityState (storage w)))
    /\ startTime (storeData (activityState (storage w')))
       = startTime (storeData (activityState (storage w)))
    /\ aggregationInterval (storeData (activityState (storage w')))
       = aggregationInterval (storeData (activityState (storage w)))
    /\ (lastCleanupTime (storeData (activityState (storage w)))
        <= lastCleanupTime (storeData (activityState (storage w'))))%Z
    /\ (forall k d, days (storeData (activityState (storage w'))) !! k = Some d ->
                    days (storeData (activityState (storage w))) !! k = Some d).
Proof.
  destruct (useMockData (options (storage w))) eqn:Hmock.
  { exists w. split; [apply cleanupOldData_skipped; by left|].
    repeat split; (done || lia). }
  destruct (Z.lt_ge_cases (now - oneDayMs)
              (getLastCleanupTime (activityState (storage w)))) as [Hlt|Hge].
  { exists w. split; [apply cleanupOldData_skipped; by right|].
    repeat split; (done || lia). }
  eexists. split; [by apply cleanupOldData_runs|]. simpl.
  do 4 (split; [done|]).
  destruct (deleteDays_metadata
              (getDatesOlderThan (now - 30 * oneDayMs) (activityState (storage w)))
              (activityState (storage w))) as (Hv & _ & Hs & Hi).
  do 3 (split; [done|]). split.
  - unfold getLastCleanupTime, oneDayMs in Hge. unfold oneDayMs in *. lia.
  - intros k d. rewrite deleteDays_lookup. by destruct (decide _).
Qed.

(** X10.  [useExistingStoreFile] answers true whether or not a store file
    is at the new place.  The file path, the adapter and the settings then
    point there; the in-memory store is replaced by what [loadData] found,
    and kept when it found nothing valid; no file is moved, written or
    removed (at most the directory is created). *)
Theorem useExistingStoreFile_contract `{JsRuntime} `{StoreCast} (dir : string) (w : World) :
  exists w' r,
    useExistingStoreFile dir w = (Ok true, w')
    /\ loadData {| filePath := path_join dir storeFileName |} (disk w) = (Ok r, disk w')
    /\ dataFilePath (storage w') = path_join dir storeFileName
    /\ persistence (storage w') = {| filePath := path_join dir storeFileName |}
    /\ settingsManager (storage w') = {| activityStoreDirPath := Some dir |}
    /\ options (storage w') = options (storage w)
    /\ activityState (storage w')
       = match r with
         | Some v => setData (asStoreData v) (activityState (storage w))
         | None => activityState (storage w)
         end
    /\ sameOrDirCreated (path_dirname (path_join dir storeFileName)) (disk w) (disk w').
Proof.
  unfold useExistingStoreFile, tryCatch.
  unfold bind, onStorage, getStorage, onDisk. simpl.
  destruct (loadData {| filePath := path_join dir storeFileName |} (disk w))
    as [o fs'] eqn:Hload.
  destruct (loadData_returns {| filePath := path_join dir storeFileName |} (disk w))
    as (r & fs'' & Hr).
  rewrite Hload in Hr. injection Hr as -> ->.
  pose proof (loadData_only_creates_directory_aux {| filePath := path_join dir storeFileName |}
                (disk w) fs'' (Ok r) Hload) as Hdisk.
  destruct r as [v|]; eexists _, _; simpl; repeat split; try done.
Qed.

Lemma loadOutcome_valid `{JsRuntime} (p c : string) (v : JSValue) (fs : FileSystem) :
  readableFile p c fs -> JSON_parse c = Some v -> validStoreShape v ->
  loadOutcome p fs = Some v.
Proof.
  intros [Hc Hacc] Hparse Hshape. unfold loadOutcome. rewrite Hc.
  rewrite decide_False by done. rewrite Hparse.
  apply accepts_validStoreShape in Hshape as [-> ->]. done.
Qed.

(** X11.  When a readable store file of the valid shape already sits at
    the new place, [updateStoragePath] moves nothing: it answers true, the
    disk is exactly as before (the old file, if any, stays where it was),
    and the in-memory store is replaced by the content of the file found
    at the new place. *)
Theorem updateStoragePath_destination_wins `{JsRuntime} `{StoreCast}
    (dir : option string) (w : World) (c : string) (v : JSValue) :
  newFilePathFor dir <> "" ->
  is_Some (nodes (disk w) !! path_dirname (newFilePathFor dir)) ->
  readableFile (newFilePathFor dir) c (disk w) ->
  JSON_parse c = Some v ->
  validStoreShape v ->
  updateStoragePath dir w
  = (Ok true,
     {| storage := withActivityState (setData (asStoreData v))
                     (repoint dir (newFilePathFor dir) (storage w));
        disk := disk w |}).
Proof.
  intros Hne [n Hdir] Hfile Hparse Hshape.
  rewrite updateStoragePath_unfold.
  assert (Hmove : mustMove dir w = false).
  { unfold mustMove. destruct Hfile as [Hc _].
    rewrite (bool_decide_eq_true_2 (is_Some (nodes (disk w) !! newFilePathFor dir)))
      by eauto.
    apply andb_false_r. }
  rewrite Hmove. unfold finishRelocation. rewrite loadData_unfold. simpl.
  destruct (String.eqb_spec (newFilePathFor dir) "") as [|_]; [done|].
  rewrite Hdir. by rewrite (loadOutcome_valid _ c v).
Qed.

Lemma updateStoragePath_destination_wins_witness :
  @updateStoragePath (sampleRuntime [storeToJS sampleStore]) (castKnown [sampleStore])
    (Some "/data") occupiedWorld
  = (Ok true,
     {| storage := withActivityState (setData sampleStore)
                     (repoint (Some "/data") newPlace (storage occupiedWorld));
        disk := disk occupiedWorld |}).
Proof.
  apply (@updateStoragePath_destination_wins (sampleRuntime [storeToJS sampleStore])
           (castKnown [sampleStore]) (Some "/data") occupiedWorld
           (render (storeToJS sampleStore)) (storeToJS sampleStore)).
  - discriminate.
  - vm_compute. eauto.
  - split; [vm_compute; reflexivity|vm_compute; discriminate].
  - vm_compute. reflexivity.
  - apply storeToJS_validStoreShape. discriminate.
Defined.

(** X12.  When there is no store file yet, neither at the old place nor at
    the new one, [updateStoragePath] answers true, points the file path,
    the adapter and the settings to the new place and keeps the in-memory
    store; it creates no file (at most the new directory). *)
Theorem updateStoragePath_nothing_to_move `{JsRuntime} `{StoreCast}
    (dir : option string) (w : World) :
  nodes (disk w) !! dataFilePath (storage w) = None ->
  nodes (disk w) !! newFilePathFor dir = None ->
  exists fs',
    updateStoragePath dir w
    = (Ok true, {| storage := repoint dir (newFilePathFor dir) (storage w); disk := fs' |})
    /\ sameOrDirCreated (path_dirname (newFilePathFor dir)) (disk w) fs'.
Proof.
  intros Hold Hnew. rewrite updateStoragePath_unfold.
  assert (Hmove : mustMove dir w = false).
  { unfold mustMove. rewrite Hold.
    by rewrite (bool_decide_eq_false_2 (is_Some None)) by (intros [? ?]; done). }
  rewrite Hmove. unfold finishRelocation.
  destruct (loadData {| filePath := newFilePathFor dir |} (disk w)) as [o fs'] eqn:Hload.
  pose proof (loadData_only_creates_directory_aux _ _ _ _ Hload) as Hdisk.
  assert (Hnone : o = Ok None).
  { rewrite loadData_unfold in Hload. simpl in Hload.
    destruct (String.eqb (newFilePathFor dir) ""); [by injection Hload as <-|].
    assert (Hout : forall fs1, nodes fs1 !! newFilePathFor dir = None
                               \/ nodes fs1 !! newFilePathFor dir = Some Dir ->
                   loadOutcome (newFilePathFor dir) fs1 = None).
    { intros fs1 [Hn|Hn]; unfold loadOutcome; by rewrite Hn. }
    destruct (nodes (disk w) !! path_dirname (newFilePathFor dir)) eqn:Hd.
    - injection Hload as <- _. by rewrite Hout by (by left).
    - destruct (decide _); [|by injection Hload as <-].
      injection Hload as <- _. rewrite Hout; [done|]. simpl.
      destruct (decide (path_dirname (newFilePathFor dir) = newFilePathFor dir))
        as [->|Hdn].
      + right. apply lookup_insert_eq.
      + left. by rewrite lookup_insert_ne. }
  subst o. exists fs'. done.
Qed.

Lemma updateStoragePath_nothing_to_move_witness :
  exists fs',
    @updateStoragePath (sampleRuntime []) (castKnown []) (Some "/data")
      {| storage := storageWith oldPath false sampleStore; disk := emptyDisk |}
    = (Ok true,
       {| storage := repoint (Some "/data") newPlace (storageWith oldPath false sampleStore);
          disk := fs' |})
    /\ sameOrDirCreated "/data" emptyDisk fs'.
Proof.
  apply (@updateStoragePath_nothing_to_move (sampleRuntime []) (castKnown [])
           (Some "/data")
           {| storage := storageWith oldPath false sampleStore; disk := emptyDisk |});
    reflexivity.
Defined.

(** ** AggregationService *)

Lemma includes_validInterval (interval : Z) :
  existsb (Z.eqb interval) [5; 10; 15]%Z = true <-> validInterval interval.
Proof.
  unfold validInterval. simpl. rewrite !orb_true_iff, !Z.eqb_eq.
  split; [intros [?|[?|[?|?]]]; auto; done|intros [?|[?|?]]; auto].
Qed.

(** X13.  [setAggregationInterval] takes 5, 10 and 15 only: any other
    value leaves the interval and the cache as they are, so an interval
    that is one of the three stays one of the three whatever is passed. *)
Theorem setAggregationInterval_guard (interval : Z) (svc : AggregationService) :
  (~ validInterval interval -> setAggregationInterval interval svc = svc)
  /\ (validInterval interval ->
      getAggregationInterval (setAggregationInterval interval svc) = interval
      /\ aggregationCache (setAggregationInterval interval svc) = ∅)
  /\ (validInterval (getAggregationInterval svc) ->
      validInterval (getAggregationInterval (setAggregationInterval interval svc))).
Proof.
  unfold setAggregationInterval, getAggregationInterval.
  destruct (existsb (Z.eqb interval) [5; 10; 15]%Z) eqn:Hin; simpl.
  - apply includes_validInterval in Hin. split; [done|]. split; done.
  - assert (Hno : ~ validInterval interval).
    { intros Hv%includes_validInterval. congruence. }
    split; [done|]. split; done.
Qed.

(** X14.  [aggregateDay] answers true and overwrites the cache entry of
    the day with the events of the stored heartbeats and their computed
    summary; a later [getAggregatedData] for that day returns this entry
    as it is, without touching the service. *)
Theorem aggregateDay_refreshes `{DateManager} `{TimelineGeneratorOps} (k : string)
    (now now' : Z) (s s' : ActivityStorage) (svc : AggregationService) :
  fst (aggregateDay k now s svc) = true
  /\ getAggregatedData k now' s' (snd (aggregateDay k now s svc))
     = (Some {| summary :=
                  calculateSummary
                    (generateTimelineEvents (generatorInterval svc)
                       (storedHeartbeats k now s));
                timelineEvents :=
                  generateTimelineEvents (generatorInterval svc)
                    (storedHeartbeats k now s) |},
        snd (aggregateDay k now s svc)).
Proof.
  split; [done|]. unfold aggregateDay. simpl.
  apply getAggregatedData_hit. simpl. apply lookup_insert_eq.
Qed.

(** X15.  The cache is not invalidated by changes of the store: once
    [getAggregatedData] has answered for a day, asking again gives the
    same entry and leaves the service as it is, whatever heartbeats were
    added or removed in between. *)
Theorem getAggregatedData_cached `{DateManager} `{TimelineGeneratorOps} (k : string)
    (now now' : Z) (s s' : ActivityStorage) (svc : AggregationService) :
  getAggregatedData k now' s' (snd (getAggregatedData k now s svc))
  = (fst (getAggregatedData k now s svc), snd (getAggregatedData k now s svc)).
Proof.
  destruct (aggregationCache svc !! k) as [e|] eqn:Hk.
  - rewrite (getAggregatedData_hit k now s svc e Hk). simpl.
    by apply getAggregatedData_hit.
  - rewrite (getAggregatedData_miss k now s svc Hk). simpl.
    apply getAggregatedData_hit. simpl. apply lookup_insert_eq.
Qed.

(** X16.  [aggregateDay] and [getAggregatedData] write at most the cache
    entry of the day asked for: the entries of the other days and the
    interval are as before. *)
Theorem cache_writes_one_day `{DateManager} `{TimelineGeneratorOps} (k : string)
    (now : Z) (s : ActivityStorage) (svc : AggregationService) :
  generatorInterval (snd (aggregateDay k now s svc)) = generatorInterval svc
  /\ generatorInterval (snd (getAggregatedData k now s svc)) = generatorInterval svc
  /\ (forall k', k' <> k ->
        aggregationCache (snd (aggregateDay k now s svc)) !! k'
        = aggregationCache svc !! k'
        /\ aggregationCache (snd (getAggregatedData k now s svc)) !! k'
           = aggregationCache svc !! k').
Proof.
  split; [done|]. unfold getAggregatedData.
  split; [by destruct (aggregationCache svc !! k)|].
  intros k' Hne. split.
  - unfold aggregateDay. simpl. by rewrite lookup_insert_ne.
  - destruct (aggregationCache svc !! k); [done|]. simpl. by rewrite lookup_insert_ne.
Qed.

(** ** IntervalScheduler *)

Lemma scheduler_step_consistent (sch : Scheduler.t) (o : Scheduler.op) :
  Scheduler.consistent sch -> Scheduler.consistent (Scheduler.step sch o).
Proof.
  unfold Scheduler.consistent. destruct sch as [ms tid run].
  destruct o as [| |m| |]; simpl; intros ->; destruct run; reflexivity.
Qed.

(** X17.  Whatever sequence of [start], [pause], [setInterval], timeouts
    and [cleanup] follows the constructor, a timeout is pending exactly
    when the scheduler is running, and the pending timeout was armed with
    the current interval: pausing always cancels the next call, and a new
    interval always applies to it.  [setInterval] keeps the scheduler
    running or paused as it was and sets the interval to the minutes
    given. *)
Theorem scheduler_consistent (intervalMinutes : Z) (ops : list Scheduler.op) :
  Scheduler.consistent (foldl Scheduler.step (Scheduler.new intervalMinutes) ops)
  /\ (forall m sch,
        Scheduler.isRunning (Scheduler.setInterval m sch) = Scheduler.isRunning sch
        /\ Scheduler.intervalMillis (Scheduler.setInterval m sch) = (m * 60 * 1000)%Z).
Proof.
  split.
  - assert (Hgen : forall sch, Scheduler.consistent sch ->
                     Scheduler.consistent (foldl Scheduler.step sch ops)).
    { induction ops as [|o ops IH]; intros sch Hsch; simpl; [done|].
      apply IH. by apply scheduler_step_consistent. }
    apply Hgen. reflexivity.
  - intros m [ms tid run]. by destruct run.
Qed.

(** ** ActivityTracker *)

Lemma saveToDisk_storage `{JsRuntime} (w : World) :
  storage (snd (saveToDisk w)) = storage w.
Proof.
  destruct (useMockData (options (storage w))) eqn:Hmock.
  - unfold saveToDisk, bind, getStorage. by rewrite Hmock.
  - by rewrite (saveToDisk_run w Hmock).
Qed.

Lemma saveToDisk_mock_disk `{JsRuntime} (w : World) :
  useMockData (options (storage w)) = true -> snd (saveToDisk w) = w.
Proof. intros Hmock. unfold saveToDisk, bind, getStorage. by rewrite Hmock. Qed.

Lemma appSave_storage `{JsRuntime} (app : App) :
  activityStorage (facade (appSave app)) = activityStorage (facade app).
Proof. unfold appSave. simpl. apply saveToDisk_storage. Qed.

(** X18.  The tracker ignores a heartbeat while it is not tracking.  While
    tracking it files the heartbeat, stamped with the current time, under
    the day of that time, which becomes the current day: that day's
    sequence is the corrected earlier one followed by the new heartbeat,
    and the other days, the cache and the callbacks' calls are
    untouched.  The disk is written only when the day has changed (and the
    tracker is not in mock mode), and then before the heartbeat is
    stored: what is saved is the store without it. *)
Theorem trackerAddHeartbeat_contract `{JsRuntime} `{DateManager}
    (d : HeartbeatData) (now : Z) (app : App) :
  (isTracking (tracker app) = false -> trackerAddHeartbeat d now app = app)
  /\ (isTracking (tracker app) = true ->
      currentDayKey (tracker (trackerAddHeartbeat d now app)) = getDateKey now
      /\ isTracking (tracker (trackerAddHeartbeat d now app)) = true
      /\ scheduler (tracker (trackerAddHeartbeat d now app)) = scheduler (tracker app)
      /\ dayHeartbeatsOf (getDateKey now)
           (activityStorage (facade (trackerAddHeartbeat d now app)))
         = (if bool_decide (userActivity d = inactive)
            then handleMayBeInactive
                   (dayHeartbeatsOf (getDateKey now) (activityStorage (facade app))) now d
            else dayHeartbeatsOf (getDateKey now) (activityStorage (facade app)))
           ++ [{| timestamp := now; data := d |}]
      /\ (forall k, k <> getDateKey now ->
            days (storeData (activityState
                   (activityStorage (facade (trackerAddHeartbeat d now app))))) !! k
            = days (storeData (activityState (activityStorage (facade app)))) !! k)
      /\ aggregationService (facade (trackerAddHeartbeat d now app))
         = aggregationService (facade app)
      /\ notified (trackerAddHeartbeat d now app) = notified app
      /\ appDisk (trackerAddHeartbeat d now app)
         = if String.eqb (getDateKey now) (currentDayKey (tracker app))
              || trackerMock (tracker app)
           then appDisk app
           else disk (snd (saveToDisk {| storage := activityStorage (facade app);
                                         disk := appDisk app |}))).
Proof.
  unfold trackerAddHeartbeat. split; [intros Hst; by rewrite Hst|]. intros Hst. rewrite Hst. simpl.
  assert (Hkey : forall app1 : App,
    dayHeartbeatsOf (getDateKey now)
      (addHeartbeat now d (getDateKey now) (activityStorage (facade app1)))
    = (if bool_decide (userActivity d = inactive)
       then handleMayBeInactive
              (dayHeartbeatsOf (getDateKey now) (activityStorage (facade app1))) now d
       else dayHeartbeatsOf (getDateKey now) (activityStorage (facade app1)))
      ++ [{| timestamp := now; data := d |}])
    by (intros; apply dayHeartbeatsOf_addHeartbeat).
  assert (Hother : forall (s : ActivityStorage) k, k <> getDateKey now ->
    days (storeData (activityState (addHeartbeat now d (getDateKey now) s))) !! k
    = days (storeData (activityState s)) !! k).
  { intros s k Hk. unfold addHeartbeat.
    destruct (bool_decide _); simpl; by rewrite lookup_insert_ne. }
  destruct (String.eqb_spec (getDateKey now) (currentDayKey (tracker app))) as [He|Hne];
    simpl.
  - rewrite <- He. repeat split; try done. intros k Hk. by apply Hother.
  - unfold handleDayChange.
    destruct (trackerMock (tracker app)); simpl.
    + repeat split; try done. intros k Hk. by apply Hother.
    + rewrite saveToDisk_storage. simpl.
      repeat split; try done. intros k Hk. by apply Hother.
Qed.

Lemma trackerAddHeartbeat_contract_witness :
  dayHeartbeatsOf sampleDay
    (activityStorage (facade
       (@trackerAddHeartbeat (sampleRuntime []) (pinnedDate sampleDay)
          (sample inactive) 400
          {| tracker := {| isTracking := true; currentDayKey := sampleDay;
                           trackerMock := false; scheduler := Scheduler.new 15;
                           onDataUpdate := false; onTrackingStatusChange := false |};
             facade := {| activityStorage := sampleStorage pendingDay;
                          aggregationService := freshService |};
             appDisk := emptyDisk; notified := [] |})))
  = [hbAt 100 active; hbAt 200 inactive; hbAt 300 inactive; hbAt 400 inactive].
Proof.
  destruct (@trackerAddHeartbeat_contract (sampleRuntime []) (pinnedDate sampleDay)
              (sample inactive) 400
              {| tracker := {| isTracking := true; currentDayKey := sampleDay;
                               trackerMock := false; scheduler := Scheduler.new 15;
                               onDataUpdate := false; onTrackingStatusChange := false |};
                 facade := {| activityStorage := sampleStorage pendingDay;
                              aggregationService := freshService |};
                 appDisk := emptyDisk; notified := [] |}) as [_ H].
  destruct (H eq_refl) as (_ & _ & _ & Hday & _).
  simpl getDateKey in Hday. rewrite Hday. vm_compute. reflexivity.
Defined.

Lemma handleIntervalEnd_tracker `{JsRuntime} `{DateManager} `{TimelineGeneratorOps}
    (now : Z) (app : App) :
  tracker (handleIntervalEnd now app) = tracker app.
Proof.
  unfold handleIntervalEnd, notifyDataUpdate.
  destruct (isTracking (tracker app) && negb (trackerMock (tracker app))); [|done].
  simpl. by destruct (onDataUpdate (tracker app)).
Qed.

Lemma trackerStep_inStep `{JsRuntime} `{DateManager} `{TimelineGeneratorOps}
    (app : App) (o : trackerOp) :
  schedulerInStep (tracker app) ->
  schedulerInStep (tracker (trackerStep app o))
  /\ trackerMock (tracker (trackerStep app o)) = trackerMock (tracker app)
  /\ (isCleanup o = false ->
      Scheduler.isRunning (scheduler (tracker app))
      = isTracking (tracker app) && negb (trackerMock (tracker app)) ->
      Scheduler.isRunning (scheduler (tracker (trackerStep app o)))
      = isTracking (tracker (trackerStep app o))
        && negb (trackerMock (tracker (trackerStep app o)))).
Proof.
  unfold schedulerInStep, Scheduler.consistent.
  destruct app as [[trk key mock [ms tid run] cb1 cb2] f fs log].
  destruct o as [a b|now| |d now|now|m|]; simpl.
  - intros [Hc Hr]. repeat split; try done; by apply Hr.
  - unfold startTracking. simpl. intros [Hc Hr].
    destruct trk, mock, run, cb2; simpl in *;
      repeat split; try done; try (by apply Hr); try (intros; by destruct (Hr eq_refl)).
  - unfold pauseTracking. simpl. intros [Hc Hr].
    destruct trk, mock, run, cb2; simpl in *;
      repeat split; try done; try (by apply Hr); try (intros; by destruct (Hr eq_refl)).
  - unfold trackerAddHeartbeat, handleDayChange. simpl. intros [Hc Hr].
    destruct trk; simpl; [|repeat split; try done; by apply Hr].
    destruct (negb (String.eqb (getDateKey now) key)); simpl;
      [destruct mock|]; simpl; repeat split; try done; by apply Hr.
  - unfold timerExpires, Scheduler.expire. simpl. intros [Hc Hr].
    destruct tid as [dl|]; simpl.
    + destruct run; simpl.
      * rewrite handleIntervalEnd_tracker. simpl.
        injection Hc as ->. repeat split; try done; by apply Hr.
      * discriminate Hc.
    + repeat split; try done; by apply Hr.
  - unfold trackerSetAggregationInterval. simpl. intros [Hc Hr].
    destruct run; simpl in *; repeat split; try done; by apply Hr.
  - unfold trackerCleanup. simpl. intros [Hc Hr].
    destruct run; simpl in *; repeat split; try done.
Qed.

(** X19.  From its construction on, whatever is done to a tracker, its
    scheduler has a timeout pending exactly when it runs, armed with the
    current interval, and it runs only while the tracker is tracking
    outside mock mode.  As long as [cleanup] has not been called the
    converse holds too: the scheduler runs exactly while the tracker
    tracks outside mock mode.  The mock flag never changes. *)
Theorem tracker_scheduler_in_step `{JsRuntime} `{DateManager} `{TimelineGeneratorOps}
    (useMock : bool) (now : Z) (f : ActivityFacade) (fs : FileSystem)
    (ops : list trackerOp) :
  schedulerInStep (tracker (foldl trackerStep (newApp useMock now f fs) ops))
  /\ trackerMock (tracker (foldl trackerStep (newApp useMock now f fs) ops)) = useMock
  /\ (forallb (fun o => negb (isCleanup o)) ops = true ->
      Scheduler.isRunning
        (scheduler (tracker (foldl trackerStep (newApp useMock now f fs) ops)))
      = isTracking (tracker (foldl trackerStep (newApp useMock now f fs) ops))
        && negb useMock).
Proof.
  assert (Hgen : forall app,
    schedulerInStep (tracker app) ->
    schedulerInStep (tracker (foldl trackerStep app ops))
    /\ trackerMock (tracker (foldl trackerStep app ops)) = trackerMock (tracker app)
    /\ (forallb (fun o => negb (isCleanup o)) ops = true ->
        Scheduler.isRunning (scheduler (tracker app))
        = isTracking (tracker app) && negb (trackerMock (tracker app)) ->
        Scheduler.isRunning (scheduler (tracker (foldl trackerStep app ops)))
        = isTracking (tracker (foldl trackerStep app ops))
          && negb (trackerMock (tracker app)))).
  { induction ops as [|o ops IH]; intros app Happ; simpl; [done|].
    destruct (trackerStep_inStep app o Happ) as (Hstep & Hmock & Hrun).
    destruct (IH (trackerStep app o) Hstep) as (Hin & Hm & Hr).
    split; [done|]. split; [by rewrite Hm|].
    intros [Ho Hops]%andb_prop Hinit. rewrite <- Hmock. apply Hr; [done|].
    apply Hrun; [by apply negb_true_iff|done]. }
  destruct (Hgen (newApp useMock now f fs)) as (Hin & Hm & Hr).
  { split; [reflexivity|]. simpl. intros Habs. discriminate Habs. }
  split; [done|]. split; [done|]. intros Hops. by apply Hr.
Qed.

(** X20.  At the end of an interval, while tracking outside mock mode,
    the tracker replaces the cache entry of the current day by the events
    of its stored heartbeats with their computed summary, calls the
    data-update callback with the day when one is set, and saves; the
    stored heartbeats are untouched, and the facade then serves these
    events for the day.  Otherwise the end of an interval changes
    nothing. *)
Theorem handleIntervalEnd_contract `{JsRuntime} `{DateManager} `{TimelineGeneratorOps}
    (now now' : Z) (app : App) :
  (isTracking (tracker app) = false \/ trackerMock (tracker app) = true ->
   handleIntervalEnd now app = app)
  /\ (isTracking (tracker app) = true -> trackerMock (tracker app) = false ->
      aggregationCache (aggregationService (facade (handleIntervalEnd now app)))
        !! currentDayKey (tracker app)
      = Some {| summary :=
                  calculateSummary
                    (generateTimelineEvents
                       (generatorInterval (aggregationService (facade app)))
                       (storedHeartbeats (currentDayKey (tracker app)) now
                          (activityStorage (facade app))));
                timelineEvents :=
                  generateTimelineEvents
                    (generatorInterval (aggregationService (facade app)))
                    (storedHeartbeats (currentDayKey (tracker app)) now
                       (activityStorage (facade app))) |}
      /\ activityStorage (facade (handleIntervalEnd now app))
         = activityStorage (facade app)
      /\ notified (handleIntervalEnd now app)
         = notified app ++ (if onDataUpdate (tracker app)
                            then [DataUpdate (currentDayKey (tracker app))] else [])
      /\ appDisk (handleIntervalEnd now app)
         = disk (snd (saveToDisk {| storage := activityStorage (facade app);
                                    disk := appDisk app |}))
      /\ (currentDayKey (tracker app) <> "" ->
          exists r,
            fst (facadeGetDayData (Some (currentDayKey (tracker app))) now'
                   (facade (handleIntervalEnd now app))) = Some r
            /\ dv_timelineEvents r
               = generateTimelineEvents
                   (generatorInterval (aggregationService (facade app)))
                   (storedHeartbeats (currentDayKey (tracker app)) now
                      (activityStorage (facade app))))).
Proof.
  unfold handleIntervalEnd, notifyDataUpdate. split.
  - intros [Ht|Hm]; [by rewrite Ht|]. rewrite Hm. by rewrite andb_false_r.
  - intros Ht Hm. rewrite Ht, Hm. simpl.
    destruct (onDataUpdate (tracker app)); simpl.
    + split; [apply lookup_insert_eq|]. split; [apply saveToDisk_storage|].
      split; [done|]. split; [done|].
      intros Hkey. unfold facadeGetDayData, getDayDataWithAggregation, getAggregatedData.
      simpl. destruct (String.eqb_spec (currentDayKey (tracker app)) "") as [|_]; [done|].
      rewrite lookup_insert_eq. eexists. split; reflexivity.
    + split; [apply lookup_insert_eq|]. split; [apply saveToDisk_storage|].
      split; [by rewrite app_nil_r|]. split; [done|].
      intros Hkey. unfold facadeGetDayData, getDayDataWithAggregation, getAggregatedData.
      simpl. destruct (String.eqb_spec (currentDayKey (tracker app)) "") as [|_]; [done|].
      rewrite lookup_insert_eq. eexists. split; reflexivity.
Qed.

Lemma appSave_mock `{JsRuntime} (app : App) :
  useMockData (options (activityStorage (facade app))) = true ->
  appDisk (appSave app) = appDisk app.
Proof.
  intros Hmock. unfold appSave. simpl.
  by rewrite saveToDisk_mock_disk.
Qed.

Lemma trackerStep_mock `{JsRuntime} `{DateManager} `{TimelineGeneratorOps}
    (app : App) (o : trackerOp) :
  useMockData (options (activityStorage (facade app))) = true ->
  appDisk (trackerStep app o) = appDisk app
  /\ useMockData (options (activityStorage (facade (trackerStep app o)))) = true.
Proof.
  intros Hmock.
  assert (Hsave : forall app1 : App,
    useMockData (options (activityStorage (facade app1))) = true ->
    appDisk (appSave app1) = appDisk app1
    /\ useMockData (options (activityStorage (facade (appSave app1)))) = true).
  { intros app1 Hm1. split; [by apply appSave_mock|]. by rewrite appSave_storage. }
  assert (Hadd : forall ts d k (s : ActivityStorage),
    options (addHeartbeat ts d k s) = options s).
  { intros. unfold addHeartbeat. by destruct (bool_decide _). }
  destruct o as [a b|now| |d now|now|m|]; simpl.
  - done.
  - unfold startTracking.
    destruct (isTracking (tracker app)); [done|]. simpl.
    destruct (negb (trackerMock (tracker app))); simpl;
      by destruct (onTrackingStatusChange (tracker app)).
  - unfold pauseTracking.
    destruct (negb (isTracking (tracker app))); [done|]. simpl.
    destruct (negb (trackerMock (tracker app))); simpl.
    + destruct (onTrackingStatusChange (tracker app)); simpl;
        (split; [by rewrite saveToDisk_mock_disk|by rewrite saveToDisk_storage]).
    + by destruct (onTrackingStatusChange (tracker app)).
  - unfold trackerAddHeartbeat.
    destruct (negb (isTracking (tracker app))); [done|].
    destruct (negb (String.eqb (getDateKey now) (currentDayKey (tracker app)))); simpl.
    + unfold handleDayChange. destruct (negb (trackerMock (tracker app))); simpl.
      * rewrite Hadd. split; [by rewrite saveToDisk_mock_disk|by rewrite saveToDisk_storage].
      * by rewrite Hadd.
    + by rewrite Hadd.
  - unfold timerExpires.
    destruct (Scheduler.expire (scheduler (tracker app))) as [runs sch1].
    destruct runs; [|done]. simpl. unfold handleIntervalEnd. simpl.
    destruct (isTracking (tracker app) && negb (trackerMock (tracker app))); [|done].
    unfold notifyDataUpdate. simpl.
    destruct (onDataUpdate (tracker app)); simpl;
      (split; [by rewrite saveToDisk_mock_disk|by rewrite saveToDisk_storage]).
  - done.
  - done.
Qed.

(** X21.  With the storage manager in mock mode nothing is saved:
    [saveToDisk], [cleanupOldData] and the storage manager's [cleanup]
    leave disk and store untouched, and whatever the tracker does (start,
    pause, heartbeats with or without a change of day, ends of intervals,
    cleanup), the disk stays as it was, also when the tracker's own mock
    flag is off.  ([updateStoragePath] and [useExistingStoreFile] do not
    look at the flag; they are not part of this statement.) *)
Theorem mock_mode_never_saves `{JsRuntime} `{DateManager} `{TimelineGeneratorOps}
    (app : App) (ops : list trackerOp) (now : Z) :
  useMockData (options (activityStorage (facade app))) = true ->
  appDisk (foldl trackerStep app ops) = appDisk app
  /\ (forall w, storage w = activityStorage (facade app) ->
        snd (saveToDisk w) = w
        /\ snd (cleanupOldData now w) = w
        /\ snd (storageCleanup w) = w).
Proof.
  intros Hmock. split.
  - revert app Hmock. induction ops as [|o ops IH]; intros app Hmock; simpl; [done|].
    destruct (trackerStep_mock app o Hmock) as [Hdisk Hflag].
    by rewrite (IH _ Hflag).
  - intros w Hw. rewrite <- Hw in Hmock. split; [by apply saveToDisk_mock_disk|].
    split.
    + rewrite cleanupOldData_skipped; [done|by left].
    + unfold storageCleanup, bind, getStorage. by rewrite Hmock.
Qed.

Lemma mock_mode_never_saves_witness :
  appDisk (foldl (@trackerStep (sampleRuntime []) (pinnedDate sampleDay) specTimeline)
             (@newApp (pinnedDate sampleDay) false 0
                {| activityStorage := storageWith samplePath true sampleStore;
                   aggregationService := freshService |} emptyDisk)
             [OpStart 0; OpHeartbeat (sample active) 10; OpTimeout 20; OpPause])
  = emptyDisk.
Proof.
  destruct (@mock_mode_never_saves (sampleRuntime []) (pinnedDate sampleDay) specTimeline
              (@newApp (pinnedDate sampleDay) false 0
                 {| activityStorage := storageWith samplePath true sampleStore;
                    aggregationService := freshService |} emptyDisk)
              [OpStart 0; OpHeartbeat (sample active) 10; OpTimeout 20; OpPause] 0
              eq_refl) as [H _].
  exact H.
Defined.

(** X22.  Starting a tracker that tracks and pausing one that does not
    change nothing, so [startTracking] and [pauseTracking] are idempotent
    (the callback is called once); after [pauseTracking] the tracker is
    stopped and a heartbeat handed to it is dropped. *)
Theorem start_pause_compose `{JsRuntime} `{DateManager}
    (now now' : Z) (d : HeartbeatData) (app : App) :
  isTracking (tracker (startTracking now app)) = true
  /\ startTracking now' (startTracking now app) = startTracking now app
  /\ isTracking (tracker (pauseTracking app)) = false
  /\ pauseTracking (pauseTracking app) = pauseTracking app
  /\ trackerAddHeartbeat d now (pauseTracking app) = pauseTracking app.
Proof.
  assert (Hstart : isTracking (tracker (startTracking now app)) = true).
  { unfold startTracking. destruct (isTracking (tracker app)) eqn:Ht; [done|]. simpl.
    destruct (negb (trackerMock (tracker app))); simpl;
      by destruct (onTrackingStatusChange (tracker app)). }
  assert (Hpause : isTracking (tracker (pauseTracking app)) = false).
  { unfold pauseTracking. destruct (isTracking (tracker app)) eqn:Ht; [|done]. simpl.
    destruct (negb (trackerMock (tracker app))); simpl;
      by destruct (onTrackingStatusChange (tracker app)). }
  split; [done|]. split; [|split; [done|split]].
  - unfold startTracking at 1. by rewrite Hstart.
  - unfold pauseTracking at 1. by rewrite Hpause.
  - unfold trackerAddHeartbeat. by rewrite Hpause.
Qed.

(* ===================================================================== *)
(** ** HeartbeatManager.ts                                                *)
(* ===================================================================== *)

Lemma assoc_setProp (k k' : string) (v : JSValue) (obj : HeartbeatManager.object) :
  assoc k (HeartbeatManager.setProp k' v obj)
  = if String.eqb k k' then Some v else assoc k obj.
Proof.
  induction obj as [|[k0 v0] rest IH]; simpl.
  - by destruct (String.eqb k k').
  - destruct (String.eqb k' k0) eqn:E0; simpl.
    + apply String.eqb_eq in E0. subst k0.
      by destruct (String.eqb k k').
    + destruct (String.eqb k k0) eqn:E1.
      * apply String.eqb_eq in E1. subst k0.
        by rewrite String.eqb_sym, E0.
      * exact IH.
Qed.

Lemma assoc_Some_elem (k : string) (v : JSValue) (obj : HeartbeatManager.object) :
  assoc k obj = Some v -> k ∈ obj.*1.
Proof.
  induction obj as [|[k0 v0] rest IH]; simpl; [done|].
  destruct (String.eqb k k0) eqn:E.
  - apply String.eqb_eq in E. subst k0. intros _. apply list_elem_of_here.
  - intros Hr. apply list_elem_of_further. by apply IH.
Qed.

Lemma assoc_assign_one (k : string) (src tgt : HeartbeatManager.object) :
  HeartbeatManager.wellFormed src ->
  assoc k (foldl (fun tgt' kv => HeartbeatManager.setProp kv.1 kv.2 tgt') tgt src)
  = match assoc k src with
    | Some v => Some v
    | None => assoc k tgt
    end.
Proof.
  unfold HeartbeatManager.wellFormed.
  revert tgt. induction src as [|[k0 v0] rest IH]; intros tgt Hnd; simpl; [done|].
  simpl in Hnd. apply NoDup_cons in Hnd as [Hnotin Hnd].
  rewrite (IH _ Hnd). rewrite assoc_setProp.
  destruct (assoc k rest) as [v|] eqn:Hrest.
  - destruct (String.eqb k k0) eqn:E; [|done].
    apply String.eqb_eq in E. subst k0.
    exfalso. apply Hnotin. by eapply assoc_Some_elem.
  - by destruct (String.eqb k k0).
Qed.

Lemma assoc_objectAssign (k : string) (srcs : list HeartbeatManager.object)
    (tgt : HeartbeatManager.object) :
  Forall HeartbeatManager.wellFormed srcs ->
  assoc k (HeartbeatManager.objectAssign tgt srcs)
  = foldl (fun acc src => match assoc k src with
                          | Some v => Some v
                          | None => acc
                          end) (assoc k tgt) srcs.
Proof.
  unfold HeartbeatManager.objectAssign.
  revert tgt. induction srcs as [|src srcs IH]; intros tgt Hwf; simpl; [done|].
  apply Forall_cons in Hwf as [Hsrc Hwf].
  rewrite (IH _ Hwf). by rewrite assoc_assign_one.
Qed.

Lemma promiseAll_resolved (results : list HeartbeatManager.object) :
  HeartbeatManager.promiseAll (map Some results) = Some results.
Proof.
  induction results as [|r rs IH]; simpl; [done|]. by rewrite IH.
Qed.

Lemma promiseAll_rejected (outcomes : list (option HeartbeatManager.object)) :
  None ∈ outcomes -> HeartbeatManager.promiseAll outcomes = None.
Proof.
  induction outcomes as [|o os IH]; intros Hin.
  - by apply elem_of_nil in Hin.
  - apply elem_of_cons in Hin as [<-|Hin]; [done|].
    simpl. destruct o; [|done]. by rewrite (IH Hin).
Qed.

Lemma setProp_length (k : string) (v : JSValue) (obj : HeartbeatManager.object) :
  (0 < length (HeartbeatManager.setProp k v obj))%nat.
Proof.
  destruct obj as [|[k0 v0] rest]; simpl; [lia|].
  destruct (String.eqb k k0); simpl; lia.
Qed.

Lemma collectHeartbeatData_userActivity (m : HeartbeatManager.t)
    (outcomes : list (option HeartbeatManager.object)) :
  truthyProp (assoc "userActivity"
                (HeartbeatManager.collectHeartbeatData m outcomes)) = true.
Proof.
  unfold HeartbeatManager.collectHeartbeatData.
  destruct (negb (HeartbeatManager.isInitialized m)); [done|].
  destruct (HeartbeatManager.promiseAll outcomes) as [results|]; [|done].
  destruct (truthyProp (assoc "userActivity" (HeartbeatManager.objectAssign [] results)))
    eqn:Ht; simpl; [done|].
  by rewrite assoc_setProp.
Qed.

(** X23.  [collectHeartbeatData] always answers with an object whose
    [userActivity] is truthy, hence never with an empty object: when the
    manager is not initialised or one watcher's promise is rejected the
    answer is exactly [{ userActivity: 'inactive' }] and what the other
    watchers reported is dropped.  So the branch of [generateHeartbeat]
    for an object without keys is never taken: a running manager always
    hands the collected object to the facade, a stopped one nothing. *)
Theorem collectHeartbeatData_never_empty (m : HeartbeatManager.t)
    (outcomes : list (option HeartbeatManager.object)) :
  truthyProp (assoc "userActivity"
                (HeartbeatManager.collectHeartbeatData m outcomes)) = true
  /\ HeartbeatManager.collectHeartbeatData m outcomes <> []
  /\ (HeartbeatManager.isInitialized m = false \/ None ∈ outcomes ->
      HeartbeatManager.collectHeartbeatData m outcomes
      = [("userActivity", JStr "inactive")])
  /\ HeartbeatManager.generateHeartbeat m outcomes
     = if HeartbeatManager.isRunning m
       then Some (HeartbeatManager.collectHeartbeatData m outcomes)
       else None.
Proof.
  pose proof (collectHeartbeatData_userActivity m outcomes) as Hua.
  assert (Hne : HeartbeatManager.collectHeartbeatData m outcomes <> []).
  { intros Heq. by rewrite Heq in Hua. }
  split; [done|]. split; [done|]. split.
  - unfold HeartbeatManager.collectHeartbeatData.
    intros [Hinit|Hrej].
    + by rewrite Hinit.
    + rewrite (promiseAll_rejected _ Hrej).
      by destruct (negb (HeartbeatManager.isInitialized m)).
  - unfold HeartbeatManager.generateHeartbeat.
    destruct (HeartbeatManager.isRunning m); simpl; [|done].
    destruct (HeartbeatManager.collectHeartbeatData m outcomes); [done|done].
Qed.

(** X24.  When the manager is initialised and every watcher answered,
    the collected object holds, for each property, the value of the last
    watcher (in the order of [this.watchers]) that reported it, and no
    property that no watcher reported; only [userActivity] is treated
    apart: a missing or falsy value is replaced by ['inactive']. *)
Theorem collectHeartbeatData_last_watcher_wins (m : HeartbeatManager.t)
    (results : list HeartbeatManager.object) (k : string) :
  HeartbeatManager.isInitialized m = true ->
  Forall HeartbeatManager.wellFormed results ->
  assoc k (HeartbeatManager.collectHeartbeatData m (map Some results))
  = if String.eqb k "userActivity"
    then match HeartbeatManager.lastDefined k results with
         | Some v => if truthy v then Some v else Some (JStr "inactive")
         | None => Some (JStr "inactive")
         end
    else HeartbeatManager.lastDefined k results.
Proof.
  intros Hinit Hwf.
  unfold HeartbeatManager.collectHeartbeatData.
  rewrite Hinit, promiseAll_resolved. simpl negb. cbv iota.
  pose proof (assoc_objectAssign k results [] Hwf) as Hk.
  pose proof (assoc_objectAssign "userActivity" results [] Hwf) as Hua.
  simpl assoc in Hk, Hua.
  fold (HeartbeatManager.lastDefined k results) in Hk.
  fold (HeartbeatManager.lastDefined "userActivity" results) in Hua.
  destruct (String.eqb k "userActivity") eqn:E.
  - apply String.eqb_eq in E. subst k.
    rewrite Hua.
    destruct (HeartbeatManager.lastDefined "userActivity" results) as [v|] eqn:Hl; simpl.
    + destruct (truthy v) eqn:Hv; simpl.
      * exact Hua.
      * by rewrite assoc_setProp.
    + by rewrite assoc_setProp.
  - destruct (negb (truthyProp (assoc "userActivity"
                (HeartbeatManager.objectAssign [] results)))).
    + rewrite assoc_setProp, E. exact Hk.
    + exact Hk.
Qed.

Lemma collectHeartbeatData_last_watcher_wins_witness :
  assoc "userActivity"
    (HeartbeatManager.collectHeartbeatData
       (HeartbeatManager.init true HeartbeatManager.new)
       (map Some [[("appWindow", JObj [("app", JStr "Chrome"); ("title", JStr "Docs")]);
                   ("userActivity", JStr "active")];
                  [("userActivity", JStr "may_be_inactive")]]))
  = Some (JStr "may_be_inactive").
Proof.
  apply (collectHeartbeatData_last_watcher_wins
           (HeartbeatManager.init true HeartbeatManager.new)
           [[("appWindow", JObj [("app", JStr "Chrome"); ("title", JStr "Docs")]);
             ("userActivity", JStr "active")];
            [("userActivity", JStr "may_be_inactive")]]
           "userActivity" eq_refl).
  apply Forall_cons; split; [|apply Forall_cons; split; [|apply Forall_nil]];
    unfold HeartbeatManager.wellFormed; simpl; by apply (bool_decide_unpack _).
Defined.

Lemma heartbeat_timer_step (p : HeartbeatManager.process) (o : HeartbeatManager.op) :
  HeartbeatManager.heartbeatInterval (HeartbeatManager.manager p)
  = HeartbeatManager.isRunning (HeartbeatManager.manager p) ->
  HeartbeatManager.heartbeatInterval
    (HeartbeatManager.manager (HeartbeatManager.step p o))
  = HeartbeatManager.isRunning (HeartbeatManager.manager (HeartbeatManager.step p o)).
Proof.
  destruct p as [[run ini tmr chk] n]. simpl. intros ->.
  destruct o as [|ok| | |s| |]; simpl.
  - by destruct (HeartbeatManager.initEnter _).
  - by destruct n.
  - unfold HeartbeatManager.start. simpl. destruct run; simpl; [done|]. by destruct ini.
  - unfold HeartbeatManager.stop. simpl. by destruct run.
  - unfold HeartbeatManager.checkHeartbeatTime. simpl.
    destruct run, chk; simpl; try done;
      by destruct ((s =? 15)%Z || (s =? 45)%Z).
  - done.
  - unfold HeartbeatManager.cleanup, HeartbeatManager.stop. simpl. by destruct run.
Qed.

(** Without a successful end of [init], a manager that is stopped and not
    initialised stays so. *)
Lemma heartbeat_idle_step (p : HeartbeatManager.process) (o : HeartbeatManager.op) :
  HeartbeatManager.isInitSuccess o = false ->
  HeartbeatManager.isRunning (HeartbeatManager.manager p) = false ->
  HeartbeatManager.isInitialized (HeartbeatManager.manager p) = false ->
  HeartbeatManager.isRunning (HeartbeatManager.manager (HeartbeatManager.step p o)) = false
  /\ HeartbeatManager.isInitialized
       (HeartbeatManager.manager (HeartbeatManager.step p o)) = false.
Proof.
  destruct p as [[run ini tmr chk] n]. simpl. intros Ho -> ->.
  destruct o as [|[|]| | |s| |]; simpl in *; try done.
  by destruct n.
Qed.

Lemma heartbeat_idle_run (ops : list HeartbeatManager.op) (p : HeartbeatManager.process) :
  forallb (fun o => negb (HeartbeatManager.isInitSuccess o)) ops = true ->
  HeartbeatManager.isRunning (HeartbeatManager.manager p) = false ->
  HeartbeatManager.isInitialized (HeartbeatManager.manager p) = false ->
  HeartbeatManager.isRunning
    (HeartbeatManager.manager (foldl HeartbeatManager.step p ops)) = false
  /\ HeartbeatManager.isInitialized
       (HeartbeatManager.manager (foldl HeartbeatManager.step p ops)) = false.
Proof.
  revert p. induction ops as [|o ops IH]; intros p Hops Hrun Hini; simpl; [done|].
  simpl in Hops. apply andb_true_iff in Hops as [Ho Hops].
  apply negb_true_iff in Ho.
  destruct (heartbeat_idle_step p o Ho Hrun Hini) as [Hrun' Hini'].
  by apply IH.
Qed.

Lemma heartbeat_sequential_run (ops : list HeartbeatManager.op)
    (p : HeartbeatManager.process) :
  HeartbeatManager.initsSequential p ops = true ->
  HeartbeatManager.initsInOrder p ->
  HeartbeatManager.initsInOrder (foldl HeartbeatManager.step p ops).
Proof.
  revert p. induction ops as [|o ops IH]; intros p Hseq Hinv; simpl; [done|].
  simpl in Hseq. apply andb_true_iff in Hseq as [Ho Hseq].
  apply IH; [done|]. clear IH Hseq.
  destruct p as [[run ini tmr chk] n]. unfold HeartbeatManager.initsInOrder in *. simpl in *.
  destruct Hinv as (Hri & Hin & Hle).
  destruct o as [|ok| | |s| |]; simpl.
  - unfold HeartbeatManager.initEnter in *. simpl in *.
    destruct ini; simpl in *; [done|].
    apply Nat.eqb_eq in Ho. subst n. simpl.
    split; [done|]. split; [done|lia].
  - destruct n as [|n]; simpl; [done|].
    assert (n = 0%nat) as -> by lia.
    destruct ini; [by specialize (Hin eq_refl)|].
    destruct run; [by specialize (Hri eq_refl)|].
    split; [done|]. split; [done|lia].
  - unfold HeartbeatManager.start. simpl.
    destruct run; simpl; [done|]. by destruct ini.
  - unfold HeartbeatManager.stop. simpl. by destruct run.
  - unfold HeartbeatManager.checkHeartbeatTime. simpl.
    destruct run, chk; simpl; try done;
      by destruct ((s =? 15)%Z || (s =? 45)%Z).
  - done.
  - unfold HeartbeatManager.cleanup, HeartbeatManager.stop. simpl.
    destruct run; simpl; (split; [done|]; split; [done|lia]).
Qed.

(** X25.  Whatever sequence of calls of [init], ends of their waits
    (succeeding or failing, in any interleaving), [start], [stop], timer
    checks and [cleanup] a heartbeat manager goes through from its
    constructor, the one-second timer is set exactly while it is running.
    As long as no wait of [init] has ended with success the manager is
    neither running nor initialised, whatever was called; the same holds
    after [cleanup] until a wait ends with success.  While the calls of
    [init] do not overlap, a running manager has initialised watchers;
    with overlapping calls it has not: when a first call succeeds, the
    manager is started and a second call then fails, it runs with
    [isInitialized] false. *)
Theorem heartbeatManager_invariant (ops : list HeartbeatManager.op) :
  let p := foldl HeartbeatManager.step HeartbeatManager.boot ops in
  HeartbeatManager.heartbeatInterval (HeartbeatManager.manager p)
  = HeartbeatManager.isRunning (HeartbeatManager.manager p)
  /\ (forallb (fun o => negb (HeartbeatManager.isInitSuccess o)) ops = true ->
      HeartbeatManager.isRunning (HeartbeatManager.manager p) = false
      /\ HeartbeatManager.isInitialized (HeartbeatManager.manager p) = false)
  /\ (forall ops2,
        forallb (fun o => negb (HeartbeatManager.isInitSuccess o)) ops2 = true ->
        HeartbeatManager.isRunning
          (HeartbeatManager.manager
             (foldl HeartbeatManager.step
                (HeartbeatManager.step p HeartbeatManager.Cleanup) ops2)) = false
        /\ HeartbeatManager.isInitialized
             (HeartbeatManager.manager
                (foldl HeartbeatManager.step
                   (HeartbeatManager.step p HeartbeatManager.Cleanup) ops2)) = false)
  /\ (HeartbeatManager.initsSequential HeartbeatManager.boot ops = true ->
      HeartbeatManager.isRunning (HeartbeatManager.manager p) = true ->
      HeartbeatManager.isInitialized (HeartbeatManager.manager p) = true)
  /\ (let q := foldl HeartbeatManager.step HeartbeatManager.boot
                 HeartbeatManager.overlappingInits in
      HeartbeatManager.isRunning (HeartbeatManager.manager q) = true
      /\ HeartbeatManager.isInitialized (HeartbeatManager.manager q) = false).
Proof.
  intros p. subst p. split; [|split; [|split; [|split]]].
  - induction ops as [|o ops IH] using rev_ind; [done|].
    rewrite foldl_snoc. by apply heartbeat_timer_step.
  - intros Hops. by apply heartbeat_idle_run.
  - intros ops2 Hops2.
    destruct (foldl HeartbeatManager.step HeartbeatManager.boot ops)
      as [[run ini tmr chk] n].
    apply heartbeat_idle_run; [done| |done].
    simpl. unfold HeartbeatManager.cleanup, HeartbeatManager.stop. simpl.
    by destruct run.
  - intros Hseq.
    destruct (heartbeat_sequential_run ops HeartbeatManager.boot Hseq) as (Hri & _).
    + unfold HeartbeatManager.initsInOrder. simpl. split; [done|]. split; [done|lia].
    + exact Hri.
  - by vm_compute.
Qed.

(** X26.  [checkHeartbeatTime] calls [generateHeartbeat] exactly when the
    manager is running, the check is enabled and the clock shows second
    15 or 45; it changes nothing but the check flag; a check that fired
    disables the next ones, whatever the second, until the re-enabling
    timeout has run, after which a running manager fires again at second
    15 or 45. *)
Theorem checkHeartbeatTime_fires_once (m : HeartbeatManager.t) (seconds seconds' : Z) :
  let r := HeartbeatManager.checkHeartbeatTime seconds m in
  (fst r = true <->
     HeartbeatManager.isRunning m = true
     /\ HeartbeatManager.shouldCheckHeartbeatTime m = true
     /\ (seconds = 15 \/ seconds = 45)%Z)
  /\ HeartbeatManager.isRunning (snd r) = HeartbeatManager.isRunning m
  /\ HeartbeatManager.isInitialized (snd r) = HeartbeatManager.isInitialized m
  /\ HeartbeatManager.heartbeatInterval (snd r) = HeartbeatManager.heartbeatInterval m
  /\ (fst r = false -> snd r = m)
  /\ (fst r = true ->
      HeartbeatManager.checkHeartbeatTime seconds' (snd r) = (false, snd r)
      /\ fst (HeartbeatManager.checkHeartbeatTime seconds
                (HeartbeatManager.reenableCheck (snd r))) = true).
Proof.
  destruct m as [run ini tmr chk].
  unfold HeartbeatManager.checkHeartbeatTime. simpl.
  destruct run, chk; simpl;
    try (split; [split; [done|by intros (? & ? & ?)]|by repeat split]).
  destruct (seconds =? 15)%Z eqn:E15; simpl.
  - apply Z.eqb_eq in E15. subst seconds.
    split; [split; [intros _; repeat split; by left|done]|].
    by repeat split.
  - destruct (seconds =? 45)%Z eqn:E45; simpl.
    + apply Z.eqb_eq in E45. subst seconds.
      split; [split; [intros _; repeat split; by right|done]|].
      by repeat split.
    + apply Z.eqb_neq in E15. apply Z.eqb_neq in E45.
      split; [split; [done|intros (_ & _ & [?|?]); lia]|].
      by repeat split.
Qed.
